(** * Conversation explorer: loader, store, query layer and chunk partitioner

    A shallow embedding of [server.py] and [split_json.py].

    Python values are modelled as they reach the code: a [str] is a
    sequence of Unicode code points, a parsed JSON document is a tree of
    [json] values, a [dict] is an insertion-ordered association list.
    Where Python raises, the model returns [Raise]; where the behaviour of
    Python is not covered by the model (floating point, ordering and
    hashing of non-string keys, [repr] of containers) it returns
    [Raise Unmodelled], so that no statement is made about those runs.

    Three library functions are not part of the repository and are taken
    as parameters, bundled in [PyLib]: [json.loads], [json.dumps] and
    [str.lower].  A reference instance [ref_lib], used to evaluate the
    program on concrete files, is given at the end of the definitions.
    Console output ([print]) and the HTTP framing are left out. *)

From Stdlib Require Import String Ascii DecimalString DecimalNat.
From Stdlib Require Import List ZArith NArith Bool Lia Permutation Sorted.
Import ListNotations.

Local Open Scope list_scope.
Set Warnings "-register-all".

(* ================================================================== *)
(** ** Python strings *)

(** A Python [str]: its code points, in order. *)
Definition pystr := list N.

(** Literals are written [str "uuid"]; they are ASCII, one character for
    one code point. *)
Definition str (s : string) : pystr :=
  map N_of_ascii (list_ascii_of_string s).

Fixpoint str_eqb (a b : pystr) : bool :=
  match a, b with
  | [], [] => true
  | x :: a', y :: b' => (x =? y)%N && str_eqb a' b'
  | _, _ => false
  end.

(** [a < b] on strings: lexicographic on code points. *)
Fixpoint str_ltb (a b : pystr) : bool :=
  match a, b with
  | [], [] => false
  | [], _ :: _ => true
  | _ :: _, [] => false
  | x :: a', y :: b' =>
      if (x <? y)%N then true
      else if (x =? y)%N then str_ltb a' b'
      else false
  end.

(** The line feed, ["\n"]. *)
Definition nl : pystr := [10%N].

(** [s.startswith(p)] *)
Fixpoint startswith (s p : pystr) {struct p} : bool :=
  match p, s with
  | [], _ => true
  | _ :: _, [] => false
  | x :: p', y :: s' => (x =? y)%N && startswith s' p'
  end.

(** [sub in s] *)
Fixpoint py_in (sub s : pystr) : bool :=
  startswith s sub ||
  match s with
  | [] => false
  | _ :: s' => py_in sub s'
  end.

(** [s.rfind(sub)], computed on the suffix of [s] that starts at index [i]:
    the highest index at which [sub] occurs, or [-1]. *)
Fixpoint rfind_from (i : Z) (s sub : pystr) : Z :=
  match s with
  | [] => if startswith [] sub then i else (-1)%Z
  | _ :: s' =>
      let later := rfind_from (i + 1) s' sub in
      if (0 <=? later)%Z then later
      else if startswith s sub then i else (-1)%Z
  end.

Definition rfind (s sub : pystr) : Z := rfind_from 0 s sub.

(** The code points for which [str.isspace] holds; [str.strip] removes them
    from both ends. *)
Definition isspace (c : N) : bool :=
  ((9 <=? c) && (c <=? 13) || (28 <=? c) && (c <=? 32)
   || (c =? 133) || (c =? 160) || (c =? 5760)
   || (8192 <=? c) && (c <=? 8202)
   || (c =? 8232) || (c =? 8233) || (c =? 8239) || (c =? 8287)
   || (c =? 12288))%N.

Fixpoint lstrip (s : pystr) : pystr :=
  match s with
  | [] => []
  | c :: s' => if isspace c then lstrip s' else s
  end.

Definition rstrip (s : pystr) : pystr := rev (lstrip (rev s)).

Definition strip (s : pystr) : pystr := rstrip (lstrip s).

(** [s[:n]] for [0 <= n]. *)
Definition slice_to (s : pystr) (n : Z) : pystr := firstn (Z.to_nat n) s.

(** [sep.join(parts)] on strings. *)
Fixpoint join (sep : pystr) (parts : list pystr) : pystr :=
  match parts with
  | [] => []
  | [p] => p
  | p :: rest => p ++ sep ++ join sep rest
  end.

(** [len(s.encode('utf-8'))] *)
Definition utf8_width (c : N) : N :=
  (if c <? 128 then 1 else if c <? 2048 then 2
   else if c <? 65536 then 3 else 4)%N.

Definition utf8_len (s : pystr) : N :=
  fold_right (fun c n => (utf8_width c + n)%N) 0%N s.

(* ================================================================== *)
(** ** JSON values and Python dictionaries *)

(** What [json.loads] returns.  A float keeps the lexeme it was read
    from; nothing in the model computes with it. *)
Inductive json : Type :=
| JNull
| JBool (b : bool)
| JInt (z : Z)
| JFloat (lexeme : pystr)
| JStr (s : pystr)
| JArr (items : list json)
| JObj (fields : list (pystr * json)).

(** A [dict] with string keys, in insertion order. *)
Definition dict := list (pystr * json).

Section Dict.
Context {V : Type}.

(** [k in d] / [d.get(k)] *)
Fixpoint dict_get (k : pystr) (d : list (pystr * V)) : option V :=
  match d with
  | [] => None
  | (k', v) :: d' => if str_eqb k k' then Some v else dict_get k d'
  end.

(** [d[k] = v]: overwrites in place, or appends a new key at the end. *)
Fixpoint dict_set (k : pystr) (v : V) (d : list (pystr * V))
  : list (pystr * V) :=
  match d with
  | [] => [(k, v)]
  | (k', v') :: d' =>
      if str_eqb k k' then (k', v) :: d' else (k', v') :: dict_set k v d'
  end.
End Dict.

(** [d.get(k, default)] *)
Definition py_get (k : pystr) (default : json) (d : dict) : json :=
  match dict_get k d with
  | Some v => v
  | None => default
  end.

Definition is_str (v : json) : bool :=
  match v with JStr _ => true | _ => false end.

Definition str_of (v : json) : pystr :=
  match v with JStr s => s | _ => [] end.

(** [v == s] for a string literal [s] *)
Definition eq_str (v : json) (s : pystr) : bool :=
  match v with JStr s' => str_eqb s' s | _ => false end.

(* ================================================================== *)
(** ** Outcomes *)

Inductive exn : Type :=
| TypeError
| AttributeError
| Unmodelled.

Inductive result (A : Type) : Type :=
| Ok (a : A)
| Raise (e : exn).

Arguments Ok {A} a.
Arguments Raise {A} e.

Definition rbind {A B} (r : result A) (f : A -> result B) : result B :=
  match r with
  | Ok a => f a
  | Raise e => Raise e
  end.

Declare Scope result_scope.
Delimit Scope result_scope with result.
Notation "'do' x <- r ; k" := (rbind r (fun x => k))
  (at level 10, x name, r at level 100, k at level 200) : result_scope.

Local Open Scope result_scope.

(** A [for] loop that builds a list and stops at the first exception. *)
Fixpoint map_result {A B} (f : A -> result B) (l : list A)
  : result (list B) :=
  match l with
  | [] => Ok []
  | x :: l' =>
      do y <- f x;
      do ys <- map_result f l';
      Ok (y :: ys)
  end.

(** [bool(v)] *)
Definition truthy (v : json) : result bool :=
  match v with
  | JNull => Ok false
  | JBool b => Ok b
  | JInt z => Ok (negb (z =? 0)%Z)
  | JFloat _ => Raise Unmodelled
  | JStr s => Ok (match s with [] => false | _ => true end)
  | JArr l => Ok (match l with [] => false | _ => true end)
  | JObj d => Ok (match d with [] => false | _ => true end)
  end.

(** [len(v)] *)
Definition py_len (v : json) : result nat :=
  match v with
  | JStr s => Ok (length s)
  | JArr l => Ok (length l)
  | JObj d => Ok (length d)
  | _ => Raise TypeError
  end.

(** The items a [for] loop (or [list.extend]) sees: the elements of a list,
    the keys of a dict, the characters of a string. *)
Definition py_iter (v : json) : result (list json) :=
  match v with
  | JArr l => Ok l
  | JObj d => Ok (map (fun kv => JStr (fst kv)) d)
  | JStr s => Ok (map (fun c => JStr [c]) s)
  | _ => Raise TypeError
  end.

(** [str(v)], as an f-string interpolates it. *)
Definition py_format (v : json) : result pystr :=
  match v with
  | JStr s => Ok s
  | JNull => Ok (str "None")
  | JBool true => Ok (str "True")
  | JBool false => Ok (str "False")
  | JInt z => Ok (str (NilZero.string_of_int (Z.to_int z)))
  | _ => Raise Unmodelled
  end.

(** [sep.join(parts)]: every part must be a string. *)
Definition py_join (sep : pystr) (parts : list json) : result pystr :=
  if forallb is_str parts then Ok (join sep (map str_of parts))
  else Raise TypeError.

(** [l.sort(key=..., reverse=True)]: the keys are computed first, then the
    list is sorted stably, larger keys first.  Only string keys are
    modelled. *)
Section Sort.
Context {A : Type} (skey : A -> pystr).

Fixpoint insert_desc (x : A) (l : list A) : list A :=
  match l with
  | [] => [x]
  | y :: l' =>
      if str_ltb (skey x) (skey y) then y :: insert_desc x l'
      else x :: l
  end.

Definition sort_desc (l : list A) : list A :=
  fold_right insert_desc [] l.
End Sort.

Definition py_sort_desc {A} (key : A -> result json) (l : list A)
  : result (list A) :=
  do keys <- map_result key l;
  if forallb is_str keys
  then Ok (sort_desc (fun x => match key x with
                               | Ok k => str_of k
                               | Raise _ => []
                               end) l)
  else Raise Unmodelled.

(** The library functions the program calls. *)
Record PyLib : Type := {
  (** [json.loads]; [None] stands for [json.JSONDecodeError]. *)
  json_loads : pystr -> option json;
  (** [json.dumps] with its default separators. *)
  json_dumps : json -> pystr;
  (** [str.lower] *)
  lower : pystr -> pystr
}.

(* ================================================================== *)
(** ** The source files *)

(** The state of one candidate file [conversations i.json]. *)
Inductive file : Type :=
| Missing                      (* [filepath.exists()] is false *)
| Unreadable                   (* [open] or [read] raises *)
| Text (content : pystr).      (* what [f.read()] returns *)

(** The data directory: the file behind each index. *)
Definition filesystem := nat -> file.

(** [range(1, 5)] *)
Definition candidate_files : list nat := [1; 2; 3; 4]%nat.

(* ================================================================== *)
(** ** server.py *)

(** The index: identifier to conversation, in insertion order.  Only a
    [dict] record can be stored (see [index_one]). *)
Definition store := list (pystr * dict).

(** The process state: the module-level [conversations_cache], and the
    files opened so far (most recent last). *)
Record world : Type := {
  conversations_cache : store;
  opened : list nat
}.

Definition initial_world : world :=
  {| conversations_cache := []; opened := [] |}.

(** Computations that read and write the process state and may raise. *)
Definition M (A : Type) : Type := world -> result A * world.

Definition ret {A} (a : A) : M A := fun w => (Ok a, w).

Definition raise {A} (e : exn) : M A := fun w => (Raise e, w).

Definition bind {A B} (m : M A) (f : A -> M B) : M B :=
  fun w =>
    match m w with
    | (Ok a, w') => f a w'
    | (Raise e, w') => (Raise e, w')
    end.

Definition lift {A} (r : result A) : M A := fun w => (r, w).

Declare Scope monad_scope.
Delimit Scope monad_scope with monad.
Notation "x <- m ;; k" := (bind m (fun x => k))
  (at level 100, m at next level, right associativity) : monad_scope.
Notation "m ;; k" := (bind m (fun _ => k))
  (at level 100, right associativity) : monad_scope.

Local Open Scope monad_scope.

Definition get_cache : M store :=
  fun w => (Ok (conversations_cache w), w).

Definition cache_set (k : pystr) (v : dict) : M unit :=
  fun w =>
    (Ok tt, {| conversations_cache := dict_set k v (conversations_cache w);
               opened := opened w |}).

Definition log_open (i : nat) : M unit :=
  fun w => (Ok tt, {| conversations_cache := conversations_cache w;
                      opened := opened w ++ [i] |}).

(** [for x in l: body x] *)
Fixpoint for_each {A} (l : list A) (body : A -> M unit) : M unit :=
  match l with
  | [] => ret tt
  | x :: l' => body x;; for_each l' body
  end.

(** A [for] loop that threads a local variable. *)
Fixpoint fold_m {A S} (l : list A) (body : S -> A -> M S) (s : S) : M S :=
  match l with
  | [] => ret s
  | x :: l' => s' <- body s x;; fold_m l' body s'
  end.

Section Server.
Variable L : PyLib.
Variable fs : filesystem.

(** The [except json.JSONDecodeError] branch of [load_conversations]:
    what the salvage adds to [all_conversations].  Whatever is raised
    inside is caught by the bare [except]. *)
Definition salvage (content : pystr) : list json :=
  let content := strip content in
  if startswith content (str "[") then
    let last_complete := rfind content (str "},") in
    if (0 <? last_complete)%Z then
      let fixed := slice_to content (last_complete + 1) ++ str "]" in
      match json_loads L fixed with
      | Some data =>
          match py_iter data with
          | Ok items => items
          | Raise _ => []
          end
      | None => []
      end
    else []
  else [].

(** What one file's content adds to [all_conversations]. *)
Definition load_content (content : pystr) : list json :=
  match json_loads L content with
  | Some (JArr items) => items
  | Some data => [data]
  | None => salvage content
  end.

(** The body of the loop over [range(1, 5)]. *)
Definition load_file (all_conversations : list json) (i : nat)
  : M (list json) :=
  match fs i with
  | Missing => ret all_conversations
  | Unreadable => log_open i;; ret all_conversations
  | Text content =>
      log_open i;; ret (all_conversations ++ load_content content)
  end.

(** The body of the loop that builds the index. *)
Definition index_one (conv : json) : M unit :=
  match conv with
  | JObj d =>
      match dict_get (str "uuid") d with
      | None => ret tt
      | Some (JStr uuid) => cache_set uuid d
      | Some (JArr _) | Some (JObj _) => raise TypeError
      | Some _ => raise Unmodelled
      end
  | JStr s => if py_in (str "uuid") s then raise TypeError else ret tt
  | JArr l =>
      if existsb (fun x => eq_str x (str "uuid")) l
      then raise TypeError else ret tt
  | _ => raise TypeError
  end.

Definition load_conversations : M store :=
  cache <- get_cache;;
  match cache with
  | _ :: _ => ret cache
  | [] =>
      all_conversations <- fold_m candidate_files load_file [];;
      for_each all_conversations index_one;;
      get_cache
  end.

(** One record of the list API. *)
Record list_entry : Type := {
  le_uuid : pystr;
  le_name : json;
  le_summary : json;
  le_created_at : json;
  le_updated_at : json;
  le_message_count : nat
}.

Definition list_entry_of (item : pystr * dict) : result list_entry :=
  let (uuid, conv) := item in
  do n <- py_len (py_get (str "chat_messages") (JArr []) conv);
  Ok {| le_uuid := uuid;
        le_name := py_get (str "name") (JStr (str "Untitled")) conv;
        le_summary := py_get (str "summary") (JStr []) conv;
        le_created_at := py_get (str "created_at") (JStr []) conv;
        le_updated_at := py_get (str "updated_at") (JStr []) conv;
        le_message_count := n |}.

(** [get_conversation_list] on a loaded store. *)
Definition conversation_list (convs : store) : result (list list_entry) :=
  do result <- map_result list_entry_of convs;
  py_sort_desc (fun x => Ok (le_created_at x)) result.

Definition get_conversation_list : M (list list_entry) :=
  convs <- load_conversations;;
  lift (conversation_list convs).

Definition get_conversation (uuid : pystr) : M (option dict) :=
  convs <- load_conversations;;
  ret (dict_get uuid convs).

(** [format_message_content]: what one item of [msg['content']]
    appends to [content_parts]. *)
Definition block_parts (item : json) : result (list json) :=
  match item with
  | JObj d =>
      let type := py_get (str "type") JNull d in
      if eq_str type (str "text") then
        Ok [py_get (str "text") (JStr []) d]
      else if eq_str type (str "tool_use") then
        do tool_name <-
          py_format (py_get (str "name") (JStr (str "unknown")) d);
        Ok [JStr (nl ++ str "[Tool: " ++ tool_name ++ str "]" ++ nl)]
      else if eq_str type (str "tool_result") then
        do content <- py_format (py_get (str "content") (JStr []) d);
        Ok [JStr (nl ++ str "[Tool Result]" ++ nl ++ content)]
      else Ok []
  | JStr _ => Ok [item]
  | _ => Ok []
  end.

Definition format_message_content (msg : dict) : result pystr :=
  do text_parts <-
    match dict_get (str "text") msg with
    | Some text => do b <- truthy text; Ok (if b then [text] else [])
    | None => Ok []
    end;
  do block_list <-
    match dict_get (str "content") msg with
    | Some content =>
        do b <- truthy content;
        if b then
          do items <- py_iter content;
          do parts <- map_result block_parts items;
          Ok (concat parts)
        else Ok []
    | None => Ok []
    end;
  py_join nl (text_parts ++ block_list).

(** One message of the fetch-one API. *)
Record message_view : Type := {
  mv_uuid : json;
  mv_sender : json;
  mv_created_at : json;
  mv_content : pystr;
  mv_attachments : json;
  mv_files : json
}.

(** The record of the fetch-one API. *)
Record conversation_view : Type := {
  cv_uuid : json;
  cv_name : json;
  cv_summary : json;
  cv_created_at : json;
  cv_updated_at : json;
  cv_messages : list message_view
}.

Inductive response : Type :=
| NotFound                        (* 404 *)
| Found (body : conversation_view). (* 200 *)

Definition message_view_of (msg : json) : result message_view :=
  match msg with
  | JObj m =>
      do content <- format_message_content m;
      Ok {| mv_uuid := py_get (str "uuid") (JStr []) m;
            mv_sender := py_get (str "sender") (JStr (str "unknown")) m;
            mv_created_at := py_get (str "created_at") (JStr []) m;
            mv_content := content;
            mv_attachments := py_get (str "attachments") (JArr []) m;
            mv_files := py_get (str "files") (JArr []) m |}
  | _ => Raise AttributeError
  end.

(** [serve_conversation] once the conversation has been looked up. *)
Definition conversation_response (conv : option dict) : result response :=
  match conv with
  | None | Some [] => Ok NotFound
  | Some conv =>
      do msgs <- py_iter (py_get (str "chat_messages") (JArr []) conv);
      do messages <- map_result message_view_of msgs;
      Ok (Found
            {| cv_uuid := py_get (str "uuid") (JStr []) conv;
               cv_name := py_get (str "name") (JStr (str "Untitled")) conv;
               cv_summary := py_get (str "summary") (JStr []) conv;
               cv_created_at := py_get (str "created_at") (JStr []) conv;
               cv_updated_at := py_get (str "updated_at") (JStr []) conv;
               cv_messages := messages |})
  end.

Definition serve_conversation (uuid : pystr) : M response :=
  conv <- get_conversation uuid;;
  lift (conversation_response conv).

(** One record of the search API. *)
Record hit : Type := {
  h_uuid : pystr;
  h_name : json;
  h_summary : json;
  h_created_at : json;
  h_match_type : pystr
}.

Definition hit_of (uuid : pystr) (conv : dict) (match_type : string) : hit :=
  {| h_uuid := uuid;
     h_name := py_get (str "name") (JStr (str "Untitled")) conv;
     h_summary := py_get (str "summary") (JStr []) conv;
     h_created_at := py_get (str "created_at") (JStr []) conv;
     h_match_type := str match_type |}.

(** [v.lower()] *)
Definition py_lower (v : json) : result pystr :=
  match v with
  | JStr s => Ok (lower L s)
  | _ => Raise AttributeError
  end.

(** The inner loop of [serve_search], left at the first match. *)
Fixpoint scan_messages (query_lower : pystr) (uuid : pystr) (conv : dict)
  (msgs : list json) : result (list hit) :=
  match msgs with
  | [] => Ok []
  | JObj m :: rest =>
      do text <- py_lower (py_get (str "text") (JStr []) m);
      if py_in query_lower text
      then Ok [hit_of uuid conv "message"]
      else scan_messages query_lower uuid conv rest
  | _ :: _ => Raise AttributeError
  end.

(** The body of the outer loop of [serve_search]: what one conversation
    appends to [results]. *)
Definition search_one (query_lower : pystr) (item : pystr * dict)
  : result (list hit) :=
  let (uuid, conv) := item in
  do name <- py_lower (py_get (str "name") (JStr []) conv);
  do summary <- py_lower (py_get (str "summary") (JStr []) conv);
  if py_in query_lower name || py_in query_lower summary
  then Ok [hit_of uuid conv "title/summary"]
  else
    do msgs <- py_iter (py_get (str "chat_messages") (JArr []) conv);
    scan_messages query_lower uuid conv msgs.

Definition search_matches (query_lower : pystr) (convs : store)
  : result (list hit) :=
  do found <- map_result (search_one query_lower) convs;
  Ok (concat found).

(** [serve_search] on a loaded store, for a non-empty query. *)
Definition search_results (query : pystr) (convs : store)
  : result (list hit) :=
  let query_lower := lower L query in
  do results <- search_matches query_lower convs;
  do results <- py_sort_desc (fun x => Ok (h_created_at x)) results;
  Ok (firstn 100 results).

Definition serve_search (query : pystr) : M (list hit) :=
  match query with
  | [] => ret []
  | _ :: _ =>
      convs <- load_conversations;;
      lift (search_results query convs)
  end.
End Server.


(* ================================================================== *)
(** ** split_json.py *)

(** 45MB *)
Definition MAX_CHUNK_SIZE : N := 45 * 1024 * 1024.

(** The local variables of the packing loop. *)
Record packer (A : Type) : Type := {
  chunks : list (list A);
  current_chunk : list A;
  current_size : N
}.

Arguments chunks {A} p.
Arguments current_chunk {A} p.
Arguments current_size {A} p.

Definition nonempty {A} (l : list A) : bool :=
  match l with [] => false | _ :: _ => true end.

Section Pack.
Context {A : Type}.
Variable size : A -> N.
Variable max_size : N.

(** The body of [for conv in all_conversations]. *)
Definition pack_step (st : packer A) (conv : A) : packer A :=
  let conv_size := size conv in
  let st :=
    if (max_size <? current_size st + conv_size)%N
       && nonempty (current_chunk st)
    then {| chunks := chunks st ++ [current_chunk st];
            current_chunk := [];
            current_size := 0 |}
    else st in
  {| chunks := chunks st;
     current_chunk := current_chunk st ++ [conv];
     current_size := current_size st + conv_size |}.

(** The last chunk is kept when it has content. *)
Definition pack_close (st : packer A) : list (list A) :=
  if nonempty (current_chunk st)
  then chunks st ++ [current_chunk st]
  else chunks st.

Definition pack (l : list A) : list (list A) :=
  pack_close
    (fold_left pack_step l
       {| chunks := []; current_chunk := []; current_size := 0 |}).
End Pack.

Section Split.
Variable L : PyLib.
Variable fs : filesystem.

(** The [except json.JSONDecodeError] branch of [split_conversations].
    An exception raised inside is caught by the enclosing
    [except Exception]; the file then adds nothing. *)
Definition split_salvage (content : pystr) : list json :=
  let last_complete := rfind content (str "},") in
  if (0 <? last_complete)%Z && startswith (strip content) (str "[") then
    let fixed := slice_to content (last_complete + 1) ++ str "]" in
    match json_loads L fixed with
    | Some data =>
        match py_iter data with
        | Ok items => items
        | Raise _ => []
        end
    | None => []
    end
  else [].

Definition split_load_content (content : pystr) : list json :=
  match json_loads L content with
  | Some (JArr items) => items
  | Some data => [data]
  | None => split_salvage content
  end.

Definition split_load_file (all_conversations : list json) (i : nat)
  : list json :=
  match fs i with
  | Text content => all_conversations ++ split_load_content content
  | _ => all_conversations
  end.

(** [all_conversations] after the loading loop. *)
Definition split_load : list json :=
  fold_left split_load_file candidate_files [].

(** [lambda x: x.get('created_at', '')] *)
Definition created_at_key (x : json) : result json :=
  match x with
  | JObj d => Ok (py_get (str "created_at") (JStr []) d)
  | _ => Raise AttributeError
  end.

(** [len(json.dumps(conv).encode('utf-8'))] *)
Definition conv_size (conv : json) : N := utf8_len (json_dumps L conv).

(** The sorted sequence cut into chunks. *)
Definition partition_chunks (all_conversations : list json)
  : list (list json) :=
  pack conv_size MAX_CHUNK_SIZE all_conversations.

(** [split_conversations], up to the list [chunks]; the files written
    from it and the manifest are left out. *)
Definition split_conversations : result (list (list json)) :=
  do sorted <- py_sort_desc created_at_key split_load;
  Ok (partition_chunks sorted).
End Split.

(* ================================================================== *)
(** ** server.py: the request handler *)

(** A request as [do_GET] sees it once [urlparse] and [parse_qs] have cut
    it up: the path, and for each key of the query string the values
    given for it, of which there is at least one ([parse_qs] leaves out a
    key without value). *)
Record request : Type := {
  req_path : pystr;
  req_query : list (pystr * (pystr * list pystr))
}.

(** [query.get(k, [default])[0]], [None] standing for the default. *)
Definition first_value (k : pystr) (query : list (pystr * (pystr * list pystr)))
  : option pystr :=
  match dict_get k query with
  | Some (v, _) => Some v
  | None => None
  end.

(** What the handler sends back; the bodies are the values handed to
    [json.dumps]. *)
Inductive reply : Type :=
| IndexPage                               (* 200, the HTML template *)
| JsonList (convs : list list_entry)      (* 200 *)
| JsonConversation (body : conversation_view) (* 200 *)
| JsonSearch (results : list hit)         (* 200 *)
| SendError (code : nat)                  (* [send_error] *)
| StaticFile.                             (* [super().do_GET()] *)

Section Handler.
Variable L : PyLib.
Variable fs : filesystem.

Definition serve_conversation_list : M reply :=
  convs <- get_conversation_list L fs;;
  ret (JsonList convs).

Definition do_GET (req : request) : M reply :=
  let path := req_path req in
  let query := req_query req in
  if str_eqb path (str "/") then ret IndexPage
  else if str_eqb path (str "/api/conversations") then
    serve_conversation_list
  else if str_eqb path (str "/api/conversation") then
    match first_value (str "id") query with
    | Some (c :: uuid) =>
        resp <- serve_conversation L fs (c :: uuid);;
        match resp with
        | NotFound => ret (SendError 404)
        | Found body => ret (JsonConversation body)
        end
    | Some [] | None => ret (SendError 400)
    end
  else if str_eqb path (str "/api/search") then
    let q := match first_value (str "q") query with
             | Some v => v
             | None => []
             end in
    results <- serve_search L fs q;;
    ret (JsonSearch results)
  else ret StaticFile.
End Handler.

(* ================================================================== *)
(** ** split_json.py: the files written *)

(** [str(n)] for a natural number. *)
Definition decimal (n : nat) : pystr :=
  str (NilZero.string_of_uint (Nat.to_uint n)).

(** [f"{n:02d}"] *)
Definition two_digits (n : nat) : pystr :=
  let d := decimal n in
  if List.length d <? 2 then str "0" ++ d else d.

(** The name of the file of chunk [i], counted from 0. *)
Definition chunk_filename (i : nat) : pystr :=
  str "conversations_" ++ two_digits (i + 1) ++ str ".json".

(** [enumerate(l)] *)
Definition enumerate {A} (l : list A) : list (nat * A) :=
  combine (seq 0 (List.length l)) l.

(** One entry of the manifest; [size_mb], a float, is left out. *)
Record chunk_entry : Type := {
  ce_file : pystr;
  ce_count : nat
}.

Record manifest : Type := {
  total_conversations : nat;
  manifest_chunks : list chunk_entry
}.

(** The chunk files in the output directory, by name, each with the
    chunk dumped into it, and the manifest. *)
Record split_output : Type := {
  chunk_files : list (pystr * list json);
  split_manifest : manifest
}.

(** The loop [for i, chunk in enumerate(chunks)]: opening a file for
    writing replaces a file of that name. *)
Definition write_chunks (chunks : list (list json))
  : list (pystr * list json) :=
  fold_left (fun dir ic => dict_set (chunk_filename (fst ic)) (snd ic) dir)
    (enumerate chunks) [].

Definition manifest_of (total : nat) (chunks : list (list json)) : manifest :=
  {| total_conversations := total;
     manifest_chunks :=
       map (fun ic => {| ce_file := chunk_filename (fst ic);
                         ce_count := List.length (snd ic) |})
         (enumerate chunks) |}.

(** [split_conversations] with what it writes, in an output directory
    that held no chunk file. *)
Definition split_and_write (L : PyLib) (fs : filesystem)
  : result split_output :=
  do sorted <- py_sort_desc created_at_key (split_load L fs);
  let chunks := partition_chunks L sorted in
  Ok {| chunk_files := write_chunks chunks;
        split_manifest := manifest_of (List.length sorted) chunks |}.

(* ================================================================== *)
(** ** A reference library

    An executable stand-in for the three library functions, used to run
    the program on concrete files.  The parser follows the grammar that
    [json.loads] accepts: whitespace is space, tab, line feed and carriage
    return only; nothing may follow the document; control characters are
    refused inside strings.  [ref_dumps] prints a float by its lexeme and
    [ref_lower] changes the letters [A] to [Z] only; on other inputs the
    three functions agree with CPython. *)

Module Ref.

Definition json_space (c : N) : bool :=
  ((c =? 32) || (c =? 9) || (c =? 10) || (c =? 13))%N.

Fixpoint skip_ws (s : pystr) : pystr :=
  match s with
  | c :: s' => if json_space c then skip_ws s' else s
  | [] => []
  end.

Definition is_digit (c : N) : bool := ((48 <=? c) && (c <=? 57))%N.

Definition hex_value (c : N) : option N :=
  (if (48 <=? c) && (c <=? 57) then Some (c - 48)
   else if (97 <=? c) && (c <=? 102) then Some (c - 87)
   else if (65 <=? c) && (c <=? 70) then Some (c - 55)
   else None)%N.

Definition hex4 (a b c d : N) : option N :=
  match hex_value a, hex_value b, hex_value c, hex_value d with
  | Some a, Some b, Some c, Some d =>
      Some (((a * 16 + b) * 16 + c) * 16 + d)%N
  | _, _, _, _ => None
  end.

Definition simple_escape (c : N) : option N :=
  (if c =? 34 then Some 34          (* quote *)
   else if c =? 92 then Some 92     (* backslash *)
   else if c =? 47 then Some 47     (* slash *)
   else if c =? 98 then Some 8      (* b: backspace *)
   else if c =? 102 then Some 12    (* f: form feed *)
   else if c =? 110 then Some 10    (* n: line feed *)
   else if c =? 114 then Some 13    (* r: carriage return *)
   else if c =? 116 then Some 9     (* t: tab *)
   else None)%N.

(** The low half of a surrogate pair written [\uXXXX] at the head of [s]. *)
Definition low_surrogate (s : pystr) : option (N * pystr) :=
  match s with
  | 92 :: 117 :: a :: b :: c :: d :: rest =>
      match hex4 a b c d with
      | Some u => if ((56320 <=? u) && (u <=? 57343))%N
                  then Some (u, rest) else None
      | None => None
      end
  | _ => None
  end%N.

(** A string, from just after its opening quote; [acc] holds the
    characters read so far, last first. *)
Fixpoint scan_string (s : pystr) (acc : pystr) : option (pystr * pystr) :=
  match s with
  | [] => None
  | 34 :: rest => Some (rev acc, rest)
  | 92 :: 117 :: a :: b :: c :: d :: rest =>
      match hex4 a b c d with
      | None => None
      | Some u =>
          if ((55296 <=? u) && (u <=? 56319))%N then
            match rest with
            | 92 :: 117 :: a' :: b' :: c' :: d' :: rest' =>
                match low_surrogate rest with
                | Some (u', _) =>
                    scan_string rest'
                      ((65536 + ((u - 55296) * 1024 + (u' - 56320)))%N :: acc)
                | None => scan_string rest (u :: acc)
                end
            | _ => scan_string rest (u :: acc)
            end
          else scan_string rest (u :: acc)
      end
  | 92 :: e :: rest =>
      match simple_escape e with
      | Some c => scan_string rest (c :: acc)
      | None => None
      end
  | 92 :: [] => None
  | c :: rest =>
      if (c <? 32)%N then None else scan_string rest (c :: acc)
  end%N.

Fixpoint span_digits (s : pystr) : pystr * pystr :=
  match s with
  | c :: s' =>
      if is_digit c
      then let (ds, rest) := span_digits s' in (c :: ds, rest)
      else ([], s)
  | [] => ([], [])
  end.

Definition digits_value (ds : pystr) : Z :=
  fold_left (fun n c => (n * 10 + Z.of_N (c - 48))%Z) ds 0%Z.

(** The integer part [0|[1-9][0-9]*] *)
Definition scan_int_part (s : pystr) : option (pystr * pystr) :=
  match s with
  | 48 :: rest => Some ([48], rest)
  | c :: _ => if is_digit c then Some (span_digits s) else None
  | [] => None
  end%N.

(** [\.[0-9]+] when it is there. *)
Definition scan_frac (s : pystr) : pystr * pystr :=
  match s with
  | 46 :: rest =>
      match span_digits rest with
      | ([], _) => ([], s)
      | (ds, rest') => (46 :: ds, rest')
      end
  | _ => ([], s)
  end%N.

(** [[eE][-+]?[0-9]+] when it is there. *)
Definition scan_exp (s : pystr) : pystr * pystr :=
  match s with
  | e :: rest =>
      if ((e =? 101) || (e =? 69))%N then
        let (sign, rest1) :=
          match rest with
          | c :: r => if ((c =? 43) || (c =? 45))%N
                      then ([c], r) else ([], rest)
          | [] => ([], rest)
          end in
        match span_digits rest1 with
        | ([], _) => ([], s)
        | (ds, rest') => (e :: sign ++ ds, rest')
        end
      else ([], s)
  | [] => ([], s)
  end.

Definition scan_number (s : pystr) : option (json * pystr) :=
  let (neg, body) :=
    match s with
    | 45 :: r => (true, r)
    | _ => (false, s)
    end%N in
  match scan_int_part body with
  | None => None
  | Some (ds, rest) =>
      let (frac, rest1) := scan_frac rest in
      let (ex, rest2) := scan_exp rest1 in
      match frac, ex with
      | [], [] =>
          let n := digits_value ds in
          Some (JInt (if neg then (- n)%Z else n), rest2)
      | _, _ =>
          Some (JFloat ((if neg then [45%N] else []) ++ ds ++ frac ++ ex),
                rest2)
      end
  end.

(** [s] without the literal [lit] at its head. *)
Definition after (lit : string) (s : pystr) : option pystr :=
  if startswith s (str lit)
  then Some (skipn (List.length (str lit)) s) else None.

Definition scan_literal (s : pystr) : option (json * pystr) :=
  match after "null" s, after "true" s, after "false" s with
  | Some r, _, _ => Some (JNull, r)
  | _, Some r, _ => Some (JBool true, r)
  | _, _, Some r => Some (JBool false, r)
  | _, _, _ =>
      match after "NaN" s, after "Infinity" s, after "-Infinity" s with
      | Some r, _, _ => Some (JFloat (str "NaN"), r)
      | _, Some r, _ => Some (JFloat (str "Infinity"), r)
      | _, _, Some r => Some (JFloat (str "-Infinity"), r)
      | _, _, _ => None
      end
  end.

(** One value at the head of [s]; the rest of [s] is returned with it. *)
Fixpoint scan_value (fuel : nat) (s : pystr) {struct fuel}
  : option (json * pystr) :=
  match fuel with
  | O => None
  | S fuel' =>
      match s with
      | 34 :: rest =>
          match scan_string rest [] with
          | Some (x, rest') => Some (JStr x, rest')
          | None => None
          end
      | 91 :: rest =>
          match skip_ws rest with
          | 93 :: rest' => Some (JArr [], rest')
          | rest' => scan_items fuel' rest' []
          end
      | 123 :: rest =>
          match skip_ws rest with
          | 125 :: rest' => Some (JObj [], rest')
          | rest' => scan_members fuel' rest' []
          end
      | _ =>
          match scan_number s with
          | Some r => Some r
          | None => scan_literal s
          end
      end
  end%N

with scan_items (fuel : nat) (s : pystr) (acc : list json) {struct fuel}
  : option (json * pystr) :=
  match fuel with
  | O => None
  | S fuel' =>
      match scan_value fuel' s with
      | None => None
      | Some (v, rest) =>
          match skip_ws rest with
          | 93 :: rest' => Some (JArr (rev (v :: acc)), rest')
          | 44 :: rest' => scan_items fuel' (skip_ws rest') (v :: acc)
          | _ => None
          end
      end
  end%N

with scan_members (fuel : nat) (s : pystr) (acc : dict) {struct fuel}
  : option (json * pystr) :=
  match fuel with
  | O => None
  | S fuel' =>
      match s with
      | 34 :: rest =>
          match scan_string rest [] with
          | None => None
          | Some (k, rest1) =>
              match skip_ws rest1 with
              | 58 :: rest2 =>
                  match scan_value fuel' (skip_ws rest2) with
                  | None => None
                  | Some (v, rest3) =>
                      match skip_ws rest3 with
                      | 125 :: rest4 => Some (JObj (dict_set k v acc), rest4)
                      | 44 :: rest4 =>
                          scan_members fuel' (skip_ws rest4) (dict_set k v acc)
                      | _ => None
                      end
                  end
              | _ => None
              end
          end
      | _ => None
      end
  end%N.

(** [json.loads] *)
Definition ref_loads (s : pystr) : option json :=
  match scan_value (2 * List.length s + 2) (skip_ws s) with
  | Some (v, rest) =>
      match skip_ws rest with
      | [] => Some v
      | _ :: _ => None
      end
  | None => None
  end.

Definition hex_digit (d : N) : N := (if d <? 10 then 48 + d else 87 + d)%N.

(** [\uXXXX] *)
Definition u_escape (u : N) : pystr :=
  [92; 117; hex_digit (u / 4096); hex_digit ((u / 256) mod 16);
   hex_digit ((u / 16) mod 16); hex_digit (u mod 16)]%N.

Definition escape_char (c : N) : pystr :=
  (if c =? 34 then [92; 34]
   else if c =? 92 then [92; 92]
   else if c =? 10 then [92; 110]
   else if c =? 13 then [92; 114]
   else if c =? 9 then [92; 116]
   else if c =? 12 then [92; 102]
   else if c =? 8 then [92; 98]
   else if (32 <=? c) && (c <=? 126) then [c]
   else if c <? 65536 then u_escape c
   else u_escape (55296 + (c - 65536) / 1024)
        ++ u_escape (56320 + (c - 65536) mod 1024))%N.

Definition quote (s : pystr) : pystr :=
  [34%N] ++ flat_map escape_char s ++ [34%N].

(** [json.dumps] *)
Fixpoint ref_dumps (v : json) : pystr :=
  match v with
  | JNull => str "null"
  | JBool true => str "true"
  | JBool false => str "false"
  | JInt z => str (NilZero.string_of_int (Z.to_int z))
  | JFloat lexeme => lexeme
  | JStr s => quote s
  | JArr items =>
      str "["
      ++ join (str ", ") (map ref_dumps items)
      ++ str "]"
  | JObj fields =>
      str "{"
      ++ join (str ", ")
           (map (fun kv => quote (fst kv) ++ str ": " ++ ref_dumps (snd kv))
              fields)
      ++ str "}"
  end.

(** [str.lower] *)
Definition ref_lower (s : pystr) : pystr :=
  map (fun c => if ((65 <=? c) && (c <=? 90))%N then (c + 32)%N else c) s.

End Ref.

Definition ref_lib : PyLib :=
  {| json_loads := Ref.ref_loads;
     json_dumps := Ref.ref_dumps;
     lower := Ref.ref_lower |}.

(** A data directory from the contents of its files, the first being
    [conversations 1.json]. *)
Definition files (l : list file) : filesystem :=
  fun i => match i with
           | O => Missing
           | S j => nth j l Missing
           end.

(** JSON source text, written with ['] where the file has a double
    quote. *)
Definition src (s : string) : pystr :=
  map (fun c => if (c =? 39)%N then 34%N else c) (str s).

(* ================================================================== *)
(** ** Vocabulary of the statements *)

(** Whether a candidate file exists. *)
Definition is_present (fs : filesystem) (i : nat) : bool :=
  match fs i with Missing => false | _ => true end.

(** The candidate files that exist, in the order they are visited. *)
Definition existing (fs : filesystem) : list nat :=
  filter (is_present fs) candidate_files.

(** What a visit of file [i] does to [all_conversations] in
    [load_conversations]. *)
Definition visit_file (L : PyLib) (fs : filesystem) (all : list json)
  (i : nat) : list json :=
  match fs i with
  | Text content => all ++ load_content L content
  | _ => all
  end.

(** The sequence [all_conversations] that the loading loop of
    [load_conversations] builds. *)
Definition server_load (L : PyLib) (fs : filesystem) : list json :=
  fold_left (visit_file L fs) candidate_files [].

(** The white space that [str.strip] removes at the head of a string. *)
Fixpoint leading_space (s : pystr) : pystr :=
  match s with
  | c :: s' => if isspace c then c :: leading_space s' else []
  | [] => []
  end.

(** The identifier of a record, when it is a dict with a string [uuid]. *)
Definition record_uuid (r : json) : option pystr :=
  match r with
  | JObj d =>
      match dict_get (str "uuid") d with
      | Some (JStr u) => Some u
      | _ => None
      end
  | _ => None
  end.

(** A record is indexable when it is a dict whose [uuid], if any, is a
    string. *)
Definition indexable (r : json) : bool :=
  match r with
  | JObj d =>
      match dict_get (str "uuid") d with
      | None | Some (JStr _) => true
      | Some _ => false
      end
  | _ => false
  end.

(** What an indexable record does to the index. *)
Definition index_add (c : store) (r : json) : store :=
  match r, record_uuid r with
  | JObj d, Some u => dict_set u d c
  | _, _ => c
  end.

(** The last record of [recs] that carries the identifier [u]. *)
Fixpoint last_with_uuid (u : pystr) (recs : list json) : option dict :=
  match recs with
  | [] => None
  | r :: rest =>
      match last_with_uuid u rest with
      | Some d => Some d
      | None =>
          match r, record_uuid r with
          | JObj d, Some u' => if str_eqb u u' then Some d else None
          | _, _ => None
          end
      end
  end.

(** How many records of [recs] carry the identifier [u]. *)
Definition count_uuid (u : pystr) (recs : list json) : nat :=
  List.length
    (filter (fun r => match record_uuid r with
                      | Some u' => str_eqb u u'
                      | None => false
                      end) recs).

(** The characters of a string, each as a string of length one. *)
Definition chars (s : pystr) : list pystr := map (fun c => [c]) s.

(** [x] may stand before [y] in a sequence sorted descending by the
    string key [skey]. *)
Definition key_order {A} (skey : A -> pystr) (x y : A) : Prop :=
  str_ltb (skey x) (skey y) = false.

(** [a >= b] on [created_at] values that are strings. *)
Definition key_ge (a b : json) : Prop :=
  match a, b with
  | JStr x, JStr y => str_ltb x y = false
  | _, _ => False
  end.

(** A sequence of [created_at] values never increases. *)
Definition descending (keys : list json) : Prop :=
  Forall (fun k => is_str k = true) keys /\ StronglySorted key_ge keys.

(** The summed size of the items of a chunk. *)
Definition total {A} (size : A -> N) (c : list A) : N :=
  fold_right (fun x n => (size x + n)%N) 0%N c.

(** The chunks that the packing loop still produces when [l] is left to
    visit and [cur] is the current chunk. *)
Fixpoint chunks_from {A} (size : A -> N) (max_size : N) (cur l : list A)
  : list (list A) :=
  match l with
  | [] => if nonempty cur then [cur] else []
  | x :: l' =>
      if (max_size <? total size cur + size x)%N && nonempty cur
      then cur :: chunks_from size max_size [x] l'
      else chunks_from size max_size (cur ++ [x]) l'
  end.

(** The lowercased [text] field of a message, when the message is a dict
    and the field, if present, is a string. *)
Definition lowered_text (L : PyLib) (msg : json) : option pystr :=
  match msg with
  | JObj m =>
      match py_get (str "text") (JStr []) m with
      | JStr s => Some (lower L s)
      | _ => None
      end
  | _ => None
  end.

Definition text_hits (L : PyLib) (q : pystr) (msg : json) : bool :=
  match lowered_text L msg with
  | Some t => py_in q t
  | None => false
  end.

Definition text_misses (L : PyLib) (q : pystr) (msg : json) : bool :=
  match lowered_text L msg with
  | Some t => negb (py_in q t)
  | None => false
  end.

(** A message of the export format: a dict whose [text], when present,
    is a string. *)
Definition well_formed_message (msg : json) : bool :=
  match msg with
  | JObj m => is_str (py_get (str "text") (JStr []) m)
  | _ => false
  end.

(** A conversation of the export format: [name], [summary] and
    [created_at] are strings when present, [chat_messages] is a list of
    messages when present. *)
Definition well_formed_conv (conv : dict) : bool :=
  is_str (py_get (str "name") (JStr []) conv)
  && is_str (py_get (str "summary") (JStr []) conv)
  && is_str (py_get (str "created_at") (JStr []) conv)
  && match py_get (str "chat_messages") (JArr []) conv with
     | JArr msgs => forallb well_formed_message msgs
     | _ => false
     end.

Definition well_formed_store (convs : store) : bool :=
  forallb (fun item => well_formed_conv (snd item)) convs.

(** The [name] and [summary] that the API reports for a conversation:
    the stored value when the field is present, the default when it is
    absent. *)
Definition reports_name_summary (conv : dict) (name summary : json) : Prop :=
  (dict_get (str "name") conv = None -> name = JStr (str "Untitled"))
  /\ (forall v, dict_get (str "name") conv = Some v -> name = v)
  /\ (dict_get (str "summary") conv = None -> summary = JStr [])
  /\ (forall v, dict_get (str "summary") conv = Some v -> summary = v).

(** The [message_count] that the list API reports for a conversation. *)
Definition reports_message_count (conv : dict) (n : nat) : Prop :=
  (dict_get (str "chat_messages") conv = None -> n = 0)
  /\ (forall msgs, dict_get (str "chat_messages") conv = Some (JArr msgs) ->
      n = List.length msgs).

(* ================================================================== *)
(** ** Sample data *)

(** An export with three conversations: a named one, one whose name is the
    empty string, and one without name, summary and dates. *)
Definition sample_export : pystr :=
  src ("[{'uuid':'a','name':'First','created_at':'2024-01-01',"
       ++ "'chat_messages':[{'text':'Hello there'}]},"
       ++ "{'uuid':'b','name':'','summary':'notes on hello',"
       ++ "'created_at':'2025-03-02','chat_messages':[]},"
       ++ "{'uuid':'c','chat_messages':[{'text':'bye'},{'text':'HELLO'}]}]").

Definition sample_files : filesystem := files [Text sample_export].

(** An export with 101 conversations, all named [hello]. *)
Definition crowded_export : pystr :=
  Ref.ref_dumps
    (JArr (map (fun i => JObj [(str "uuid", JStr [(1000 + N.of_nat i)%N]);
                               (str "name", JStr (str "hello"))])
             (seq 0 101))).

Definition crowded_files : filesystem := files [Text crowded_export].

(** An export with one conversation, whose only message carries its words
    in a content block and has no [text] field. *)
Definition blocks_export : pystr :=
  src ("[{'uuid':'u','name':'n','chat_messages':"
       ++ "[{'content':[{'type':'text','text':'hello'}]}]}]").

Definition blocks_files : filesystem := files [Text blocks_export].

(** The third conversation of [sample_export]. *)
Definition sample_conv_c : dict :=
  [(str "uuid", JStr (str "c"));
   (str "chat_messages",
    JArr [JObj [(str "text", JStr (str "bye"))];
          JObj [(str "text", JStr (str "HELLO"))]])].

(** Sizes in megabytes. *)
Definition megabytes (n : N) : N := (n * 1024 * 1024)%N.

(** Two exports that both hold a conversation [u]; the first also holds a
    record without identifier, the second is a single object. *)
Definition duplicate_files : filesystem :=
  files [Text (src ("[{'uuid':'u','name':'old','created_at':'2024'},"
                    ++ "{'name':'no id'}]"));
         Missing;
         Text (src "{'uuid':'u','name':'new','created_at':'2025'}")].

(** An export without conversations. *)
Definition empty_files : filesystem := files [Text (src "[]")].

(** An export cut off inside its second conversation, and what is left of
    it when it is cut after the first. *)
Definition truncated_export : pystr :=
  src "[{'uuid':'a','name':'x'},{'uuid':'b','name':'y'".

Definition recovered_export : pystr := src "[{'uuid':'a','name':'x'}]".

Definition record_a : dict :=
  [(str "uuid", JStr (str "a")); (str "name", JStr (str "x"))].

(** The form feed: white space for [str.strip], not for [json.loads]. *)
Definition form_feed : N := 12.

(* ================================================================== *)
(** ** Vocabulary of further statements *)

(** The identifiers that the records of [recs] carry, in order. *)
Definition uuids (recs : list json) : list pystr :=
  flat_map (fun r => match record_uuid r with
                     | Some u => [u]
                     | None => []
                     end) recs.

(** [l] without the strings of [seen] and with each string kept where
    it occurs first. *)
Fixpoint first_seen (seen l : list pystr) : list pystr :=
  match l with
  | [] => []
  | x :: l' =>
      if existsb (str_eqb x) seen then first_seen seen l'
      else x :: first_seen (x :: seen) l'
  end.

(** The index is well built: no identifier is stored twice, and every
    stored conversation carries the identifier it is stored under. *)
Definition store_consistent (st : store) : Prop :=
  NoDup (map fst st)
  /\ forall u d, In (u, d) st -> dict_get (str "uuid") d = Some (JStr u).

(** A record is text-keyed unless it is a dict whose [uuid] is a number,
    a boolean or null.  The index loop stores such a dict under that
    value; the store of this development is keyed by strings, and
    [index_one] ends in [Unmodelled] on it. *)
Definition text_keyed (r : json) : bool :=
  match r with
  | JObj d =>
      match dict_get (str "uuid") d with
      | Some (JInt _) | Some (JFloat _) | Some (JBool _) | Some JNull =>
          false
      | _ => true
      end
  | _ => true
  end.

(** A value that an f-string prints within the model. *)
Definition formattable (v : json) : bool :=
  match v with
  | JStr _ | JNull | JBool _ | JInt _ => true
  | _ => false
  end.

(** An item of a content list that the flattening can take: a text block
    whose text is a string, a tool block whose name or content can be
    printed, or anything the flattening passes over. *)
Definition renderable_block (item : json) : bool :=
  match item with
  | JObj d =>
      let type := py_get (str "type") JNull d in
      if eq_str type (str "text") then
        is_str (py_get (str "text") (JStr []) d)
      else if eq_str type (str "tool_use") then
        formattable (py_get (str "name") (JStr (str "unknown")) d)
      else if eq_str type (str "tool_result") then
        formattable (py_get (str "content") (JStr []) d)
      else true
  | _ => true
  end.

(** A message that the flattening can take: [text] is absent, null or a
    string; [content] is absent, null, a string or a list of items it
    can take. *)
Definition renderable_message (msg : dict) : bool :=
  match dict_get (str "text") msg with
  | None | Some JNull | Some (JStr _) => true
  | Some _ => false
  end
  && match dict_get (str "content") msg with
     | None | Some JNull | Some (JStr _) => true
     | Some (JArr items) => forallb renderable_block items
     | Some _ => false
     end.

(** An item of a content list that adds something to the flattened
    text. *)
Definition rendered (item : json) : bool :=
  match item with
  | JStr _ => true
  | JObj d =>
      let type := py_get (str "type") JNull d in
      eq_str type (str "text") || eq_str type (str "tool_use")
      || eq_str type (str "tool_result")
  | _ => false
  end.

(** A text block, or a plain string, that holds the string [s]. *)
Definition holds_text (item : json) (s : pystr) : Prop :=
  item = JStr s
  \/ exists d,
      item = JObj d
      /\ eq_str (py_get (str "type") JNull d) (str "text") = true
      /\ py_get (str "text") (JStr []) d = JStr s.

(** A conversation of the export format in which the query occurs
    nowhere the search looks. *)
Definition conv_misses (L : PyLib) (ql : pystr) (conv : dict) : bool :=
  match py_get (str "name") (JStr []) conv,
        py_get (str "summary") (JStr []) conv,
        py_get (str "chat_messages") (JArr []) conv with
  | JStr name, JStr summary, JArr msgs =>
      negb (py_in ql (lower L name))
      && negb (py_in ql (lower L summary))
      && forallb (text_misses L ql) msgs
  | _, _, _ => false
  end.

(** Name or summary of a conversation contain the query. *)
Definition title_hits (L : PyLib) (ql : pystr) (conv : dict) : bool :=
  match py_get (str "name") (JStr []) conv,
        py_get (str "summary") (JStr []) conv with
  | JStr name, JStr summary =>
      py_in ql (lower L name) || py_in ql (lower L summary)
  | _, _ => false
  end.

(** The process state after the requests [reqs], handled one after the
    other from the state [w]. *)
Definition run_requests (L : PyLib) (fs : filesystem) (reqs : list request)
  (w : world) : world :=
  fold_left (fun w req => snd (do_GET L fs req w)) reqs w.

(** The requests of the API. *)
Definition get_request (path : string) (query : list (string * string))
  : request :=
  {| req_path := str path;
     req_query := map (fun kv => (str (fst kv), (str (snd kv), []))) query |}.

(** An export in which the first and the third conversation have the
    same [created_at]. *)
Definition tied_files : filesystem :=
  files [Text (src ("[{'uuid':'x','name':'tea','created_at':'2024'},"
                    ++ "{'uuid':'y','name':'tea','created_at':'2025'},"
                    ++ "{'uuid':'z','name':'coffee','created_at':'2024',"
                    ++ "'chat_messages':[{'text':'no tea'},{'text':'tea'}]}]"))].

(** Two exports; the second holds a newer version of the first
    conversation of the first. *)
Definition updated_files : filesystem :=
  files [Text (src "[{'uuid':'u','name':'old'},{'uuid':'v'}]");
         Text (src "[{'uuid':'u','name':'new'}]")].

(** An export whose second record is a number. *)
Definition broken_files : filesystem :=
  files [Text (src "[{'uuid':'a','name':'x'}, 7, {'uuid':'b'}]")].

(** An export with messages of every shape the flattening knows. *)
Definition blocks_conv : dict :=
  [(str "uuid", JStr (str "m"));
   (str "chat_messages",
    JArr [JObj [(str "text", JStr (str "see"));
                (str "content",
                 JArr [JObj [(str "type", JStr (str "text"));
                             (str "text", JStr (str "hi"))];
                       JObj [(str "type", JStr (str "image"))];
                       JInt 3;
                       JStr (str "raw")])]])].

(* ================================================================== *)
(** * Properties *)

(** ** Strings and outcomes *)

Lemma str_eqb_eq (a b : pystr) : str_eqb a b = true <-> a = b.
Proof.
  revert b; induction a as [|x a IH]; intros [|y b]; simpl;
    try (split; congruence).
  rewrite andb_true_iff, N.eqb_eq, IH. split.
  - intros [-> ->]; reflexivity.
  - intros H; injection H; auto.
Qed.

Lemma str_eqb_refl (a : pystr) : str_eqb a a = true.
Proof. apply str_eqb_eq; reflexivity. Qed.

Lemma str_eqb_neq (a b : pystr) : str_eqb a b = false <-> a <> b.
Proof.
  rewrite <- str_eqb_eq. destruct (str_eqb a b); split; congruence.
Qed.

Lemma str_ltb_irrefl (a : pystr) : str_ltb a a = false.
Proof.
  induction a as [|x a IH]; simpl; [reflexivity|].
  rewrite N.ltb_irrefl, N.eqb_refl; exact IH.
Qed.

Lemma str_ltb_trans (a b c : pystr) :
  str_ltb a b = true -> str_ltb b c = true -> str_ltb a c = true.
Proof.
  revert b c; induction a as [|x a IH]; intros [|y b] [|z c]; simpl;
    try congruence.
  destruct (N.ltb_spec x y), (N.ltb_spec y z), (N.ltb_spec x z);
    try lia; try congruence;
    destruct (N.eqb_spec x y), (N.eqb_spec y z), (N.eqb_spec x z);
    try lia; try congruence.
  apply IH.
Qed.

Lemma str_ltb_total (a b : pystr) :
  str_ltb a b = false -> str_ltb b a = false -> a = b.
Proof.
  revert b; induction a as [|x a IH]; intros [|y b]; simpl;
    try congruence.
  destruct (N.ltb_spec x y), (N.ltb_spec y x); try lia; try congruence.
  assert (x = y) by lia; subst y.
  rewrite N.eqb_refl. intros H1 H2. f_equal. apply IH; assumption.
Qed.

(** [>=] is transitive: what strong sortedness needs. *)
Lemma str_geb_trans (a b c : pystr) :
  str_ltb a b = false -> str_ltb b c = false -> str_ltb a c = false.
Proof.
  intros Hab Hbc.
  destruct (str_ltb a c) eqn:Hac; [|reflexivity].
  destruct (str_ltb c b) eqn:Hcb.
  - rewrite (str_ltb_trans a c b Hac Hcb) in Hab. discriminate.
  - assert (b = c) by (apply str_ltb_total; assumption). subst c.
    congruence.
Qed.

Lemma str_ltb_asym (a b : pystr) :
  str_ltb a b = true -> str_ltb b a = false.
Proof.
  intros Hab. destruct (str_ltb b a) eqn:Hba; [|reflexivity].
  rewrite <- (str_ltb_irrefl a). symmetry.
  apply (str_ltb_trans a b a); assumption.
Qed.

Lemma map_result_Ok {A B} (f : A -> result B) (l : list A) (ys : list B) :
  map_result f l = Ok ys -> Forall2 (fun x y => f x = Ok y) l ys.
Proof.
  revert ys; induction l as [|x l IH]; simpl; intros ys H.
  - injection H as <-. constructor.
  - destruct (f x) as [y|e] eqn:Hx; simpl in H; [|discriminate].
    destruct (map_result f l) as [ys'|e] eqn:Hl; simpl in H; [|discriminate].
    injection H as <-. constructor; auto.
Qed.

Lemma map_result_pure {A B} (f : A -> B) (l : list A) :
  map_result (fun x => Ok (f x)) l = Ok (map f l).
Proof.
  induction l as [|x l IH]; simpl; [reflexivity|].
  rewrite IH. reflexivity.
Qed.

(** ** The stable descending sort *)

Section SortFacts.
Context {A : Type} (skey : A -> pystr).

Lemma insert_desc_perm (x : A) (l : list A) :
  Permutation (insert_desc skey x l) (x :: l).
Proof.
  induction l as [|y l IH]; simpl; [reflexivity|].
  destruct (str_ltb (skey x) (skey y)); [|reflexivity].
  rewrite IH. apply perm_swap.
Qed.

Lemma sort_desc_perm (l : list A) : Permutation (sort_desc skey l) l.
Proof.
  induction l as [|x l IH]; simpl; [reflexivity|].
  rewrite insert_desc_perm. constructor; exact IH.
Qed.

Lemma insert_desc_sorted (x : A) (l : list A) :
  StronglySorted (key_order skey) l ->
  StronglySorted (key_order skey) (insert_desc skey x l).
Proof.
  induction 1 as [|y l Hl IH Hy]; simpl.
  - repeat constructor.
  - destruct (str_ltb (skey x) (skey y)) eqn:Hxy.
    + constructor; [exact IH|].
      apply (Permutation_Forall (Permutation_sym (insert_desc_perm x l))).
      constructor; [|exact Hy].
      apply str_ltb_asym; exact Hxy.
    + constructor; [constructor; assumption|].
      constructor; [exact Hxy|].
      eapply Forall_impl; [|exact Hy].
      intros z Hz. apply (str_geb_trans _ (skey y)); assumption.
Qed.

Lemma sort_desc_sorted (l : list A) :
  StronglySorted (key_order skey) (sort_desc skey l).
Proof.
  induction l as [|x l IH]; simpl; [constructor|].
  apply insert_desc_sorted; exact IH.
Qed.
End SortFacts.

Lemma string_keys {A} (key : A -> result json) (l : list A)
  (keys : list json) :
  map_result key l = Ok keys ->
  forallb is_str keys = true ->
  Forall (fun x => exists k, key x = Ok (JStr k)) l.
Proof.
  intros Hkeys Hstr. apply map_result_Ok in Hkeys.
  induction Hkeys as [|x k l keys Hx _ IH]; [constructor|].
  simpl in Hstr. apply andb_true_iff in Hstr as [Hk Hstr].
  constructor; [|apply IH, Hstr].
  destruct k; try discriminate. eexists; exact Hx.
Qed.

(** What [sort(key=..., reverse=True)] returns when it returns: the same
    items, with keys that never increase. *)
Lemma py_sort_desc_spec {A} (key : A -> result json) (l r : list A) :
  py_sort_desc key l = Ok r ->
  Permutation r l
  /\ exists keys, map_result key r = Ok keys /\ descending keys.
Proof.
  unfold py_sort_desc.
  destruct (map_result key l) as [keys0|e] eqn:Hkeys; [|discriminate].
  simpl. destruct (forallb is_str keys0) eqn:Hstr; [|discriminate].
  intros H; injection H as <-.
  set (skey := fun x => match key x with
                        | Ok k => str_of k
                        | Raise _ => []
                        end).
  pose proof (sort_desc_perm skey l) as Hperm.
  split; [exact Hperm|].
  pose proof (string_keys _ _ _ Hkeys Hstr) as Hall.
  apply (Permutation_Forall (Permutation_sym Hperm)) in Hall.
  pose proof (sort_desc_sorted skey l) as Hsorted.
  revert Hall Hsorted. generalize (sort_desc skey l) as s.
  intros s Hall Hsorted.
  exists (map (fun x => JStr (skey x)) s). split; [|split].
  - induction Hall as [|x s [k Hx] _ IH]; simpl; [reflexivity|].
    inversion Hsorted; subst. rewrite Hx, IH by assumption.
    unfold skey at 2. rewrite Hx. reflexivity.
  - apply Forall_map, Forall_forall. reflexivity.
  - clear Hall. induction Hsorted as [|x s _ IH Hx]; simpl; constructor.
    + exact IH.
    + apply Forall_map. eapply Forall_impl; [|exact Hx].
      intros y Hy. exact Hy.
Qed.

Lemma py_sort_desc_descending {A} (key : A -> json) (l r : list A) :
  py_sort_desc (fun x => Ok (key x)) l = Ok r ->
  Permutation r l /\ descending (map key r).
Proof.
  intros H. apply py_sort_desc_spec in H as [Hperm [keys [Hkeys Hdesc]]].
  rewrite map_result_pure in Hkeys. injection Hkeys as <-. auto.
Qed.

(** The sort itself never fails on string keys. *)
Lemma py_sort_desc_total {A} (key : A -> json) (l : list A) :
  forallb is_str (map key l) = true ->
  exists r, py_sort_desc (fun x => Ok (key x)) l = Ok r.
Proof.
  intros H. unfold py_sort_desc. rewrite map_result_pure. simpl.
  rewrite H. eexists; reflexivity.
Qed.

(** ** Dictionaries *)

Section DictFacts.
Context {V : Type}.
Implicit Types (d : list (pystr * V)) (k : pystr) (v : V).

Lemma dict_get_set_same k v d : dict_get k (dict_set k v d) = Some v.
Proof.
  induction d as [|[k' v'] d IH]; simpl.
  - rewrite str_eqb_refl. reflexivity.
  - destruct (str_eqb k k') eqn:E; simpl; rewrite E; auto.
Qed.

Lemma dict_get_set_other k k' v d :
  k' <> k -> dict_get k' (dict_set k v d) = dict_get k' d.
Proof.
  intros Hne. induction d as [|[k0 v0] d IH]; simpl.
  - apply str_eqb_neq in Hne. rewrite Hne. reflexivity.
  - destruct (str_eqb k k0) eqn:E; simpl.
    + apply str_eqb_eq in E; subst k0.
      apply str_eqb_neq in Hne. rewrite Hne. reflexivity.
    + rewrite IH. reflexivity.
Qed.

Lemma dict_set_keys k v d :
  map fst (dict_set k v d) =
  if existsb (str_eqb k) (map fst d) then map fst d else map fst d ++ [k].
Proof.
  induction d as [|[k' v'] d IH]; simpl; [reflexivity|].
  destruct (str_eqb k k') eqn:E; simpl; [reflexivity|].
  rewrite IH. destruct (existsb (str_eqb k) (map fst d)); reflexivity.
Qed.

Lemma dict_set_NoDup k v d :
  NoDup (map fst d) -> NoDup (map fst (dict_set k v d)).
Proof.
  intros H. rewrite dict_set_keys.
  destruct (existsb (str_eqb k) (map fst d)) eqn:E; [exact H|].
  apply NoDup_rev in H. rewrite <- (rev_involutive (_ ++ _)).
  apply NoDup_rev. rewrite rev_app_distr. simpl.
  constructor; [|exact H].
  rewrite <- in_rev. intros Hin.
  assert (existsb (str_eqb k) (map fst d) = true); [|congruence].
  apply existsb_exists. exists k. split; [exact Hin|apply str_eqb_refl].
Qed.
End DictFacts.

(** ** The loading pass in closed form *)

Section LoadFacts.
Variable L : PyLib.
Variable fs : filesystem.

(** The loop over the candidate files: it opens the files that exist,
    in order, and leaves the index alone. *)
Lemma fold_m_load_file (l : list nat) (acc : list json) (w : world) :
  fold_m l (load_file L fs) acc w =
  (Ok (fold_left (visit_file L fs) l acc),
   {| conversations_cache := conversations_cache w;
      opened := opened w ++ filter (is_present fs) l |}).
Proof.
  revert acc w; induction l as [|i l IH]; intros acc w; simpl.
  - rewrite app_nil_r. destruct w; reflexivity.
  - unfold bind at 1. unfold load_file at 1, visit_file at 2, is_present at 1.
    destruct (fs i) as [| |content]; simpl.
    + unfold ret. rewrite IH. reflexivity.
    + rewrite IH. simpl. rewrite <- app_assoc. reflexivity.
    + rewrite IH. simpl. rewrite <- app_assoc. reflexivity.
Qed.

(** Building the index reads and writes the index only. *)
Lemma index_one_frame (conv : json) (w w' : world) (r : result unit) :
  index_one conv w = (r, w') ->
  forall o,
    index_one conv {| conversations_cache := conversations_cache w;
                      opened := o |}
    = (r, {| conversations_cache := conversations_cache w';
             opened := o |}).
Proof.
  unfold index_one, cache_set, raise, ret. intros H o.
  repeat match type of H with
         | context [match ?x with _ => _ end] => destruct x
         end;
    injection H as <- <-; reflexivity.
Qed.

Lemma for_each_index_frame (recs : list json) (w w' : world)
  (r : result unit) :
  for_each recs index_one w = (r, w') ->
  forall o,
    for_each recs index_one {| conversations_cache := conversations_cache w;
                               opened := o |}
    = (r, {| conversations_cache := conversations_cache w';
             opened := o |}).
Proof.
  revert w; induction recs as [|conv recs IH]; simpl; intros w H o.
  - injection H as <- <-. reflexivity.
  - unfold bind in *.
    destruct (index_one conv w) as [r1 w1] eqn:H1.
    rewrite (index_one_frame _ _ _ _ H1 o).
    destruct r1 as [[]|e].
    + apply (IH _ H).
    + injection H as <- <-. reflexivity.
Qed.

Lemma index_one_indexable (conv : json) (w : world) :
  indexable conv = true ->
  index_one conv w =
  (Ok tt, {| conversations_cache := index_add (conversations_cache w) conv;
             opened := opened w |}).
Proof.
  unfold indexable, index_one, index_add, record_uuid.
  destruct conv as [| | | | |l|d]; try discriminate.
  destruct (dict_get (str "uuid") d) as [[| | | |u| |]|];
    try discriminate; intros _; destruct w; reflexivity.
Qed.

Lemma for_each_indexable (recs : list json) (w : world) :
  forallb indexable recs = true ->
  for_each recs index_one w =
  (Ok tt, {| conversations_cache :=
               fold_left index_add recs (conversations_cache w);
             opened := opened w |}).
Proof.
  revert w; induction recs as [|conv recs IH]; simpl; intros w H.
  - destruct w; reflexivity.
  - apply andb_true_iff in H as [H1 H2].
    unfold bind. rewrite (index_one_indexable _ _ H1).
    rewrite (IH _ H2). reflexivity.
Qed.

(** [load_conversations] when the cache has content: nothing is read. *)
Lemma load_conversations_hit (w : world) :
  conversations_cache w <> [] ->
  load_conversations L fs w = (Ok (conversations_cache w), w).
Proof.
  unfold load_conversations, bind, get_cache, ret.
  destruct (conversations_cache w); [congruence|reflexivity].
Qed.

(** [load_conversations] when the cache is empty. *)
Lemma load_conversations_miss (w : world) :
  conversations_cache w = [] ->
  load_conversations L fs w =
  match for_each (server_load L fs) index_one
          {| conversations_cache := [];
             opened := opened w ++ existing fs |} with
  | (Ok _, w') => (Ok (conversations_cache w'), w')
  | (Raise e, w') => (Raise e, w')
  end.
Proof.
  intros Hc. unfold load_conversations, bind at 1, get_cache.
  rewrite Hc. unfold bind at 1. rewrite fold_m_load_file.
  simpl conversations_cache. rewrite Hc.
  unfold bind, get_cache. reflexivity.
Qed.

(** A call that returned can be repeated: it returns the same mapping;
    unless the mapping is empty, it reads nothing. *)
Lemma load_conversations_again (w w1 : world) (c : store) :
  load_conversations L fs w = (Ok c, w1) ->
  conversations_cache w1 = c
  /\ exists w2,
      load_conversations L fs w1 = (Ok c, w2)
      /\ conversations_cache w2 = c
      /\ (c <> [] -> w2 = w1)
      /\ (c = [] -> opened w2 = opened w1 ++ existing fs).
Proof.
  intros H.
  assert (Hc : conversations_cache w1 = c).
  { destruct (conversations_cache w) as [|x cache] eqn:Hw.
    - rewrite (load_conversations_miss _ Hw) in H.
      destruct (for_each _ _ _) as [[[]|e] w'];
        [|discriminate]. injection H as <- <-. reflexivity.
    - rewrite load_conversations_hit in H by congruence.
      injection H as <- <-. reflexivity. }
  split; [exact Hc|].
  destruct c as [|x c].
  - destruct (conversations_cache w) as [|x cache] eqn:Hw.
    2:{ rewrite load_conversations_hit in H by congruence.
        injection H as H _. congruence. }
    rewrite (load_conversations_miss _ Hw) in H.
    destruct (for_each _ _ _) as [[[]|e] w'] eqn:Hrun; [|discriminate].
    injection H as _ ->.
    rewrite (load_conversations_miss _ Hc).
    apply for_each_index_frame with (o := opened w1 ++ existing fs) in Hrun.
    simpl in Hrun. rewrite Hrun, Hc.
    eexists. split; [reflexivity|]. simpl.
    split; [reflexivity|]. split; [congruence|reflexivity].
  - exists w1. rewrite load_conversations_hit by congruence.
    rewrite Hc. repeat split; congruence.
Qed.
End LoadFacts.

(** ** Flattening of message content *)

Lemma block_parts_chars (s : pystr) :
  map_result block_parts (map (fun c => JStr [c]) s)
  = Ok (map (fun c => [JStr [c]]) s).
Proof.
  induction s as [|c s IH]; simpl; [reflexivity|].
  rewrite IH. reflexivity.
Qed.

Lemma concat_singletons {A B} (f : A -> B) (l : list A) :
  concat (map (fun x => [f x]) l) = map f l.
Proof.
  induction l as [|x l IH]; simpl; [reflexivity|].
  rewrite IH. reflexivity.
Qed.

Lemma py_join_strings (sep : pystr) (parts : list pystr) :
  py_join sep (map JStr parts) = Ok (join sep parts).
Proof.
  unfold py_join.
  assert (H : forallb is_str (map JStr parts) = true).
  { induction parts as [|p parts IH]; simpl; auto. }
  rewrite H, map_map. simpl. rewrite map_id. reflexivity.
Qed.

Lemma length_join_chars (c : N) (s : pystr) :
  List.length (join nl (chars (c :: s))) = 2 * List.length s + 1.
Proof.
  revert c; induction s as [|c' s IH]; intros c; [reflexivity|].
  change (chars (c :: c' :: s)) with ([c] :: chars (c' :: s)).
  change (join nl ([c] :: chars (c' :: s)))
    with ([c] ++ nl ++ join nl (chars (c' :: s))).
  rewrite !length_app, IH. simpl. lia.
Qed.

(** C10.  When the [content] of a message is a plain string [s], the
    flattening walks over [s] character by character and joins the
    characters with line feeds: after the [text] field (when that is a
    non-empty string) the output holds each character of [s] on a line of
    its own, which differs from [s] as soon as [s] has two characters. *)
Theorem format_plain_string_content (msg : dict) (s : pystr) :
  dict_get (str "content") msg = Some (JStr s) ->
  (dict_get (str "text") msg = None ->
   format_message_content msg = Ok (join nl (chars s)))
  /\ (forall t, dict_get (str "text") msg = Some (JStr t) ->
      format_message_content msg
      = Ok (join nl ((if nonempty t then [t] else []) ++ chars s)))
  /\ (2 <= List.length s -> join nl (chars s) <> s).
Proof.
  intros Hcontent.
  assert (Hblocks :
    forall text_parts : list pystr,
      (do block_list <-
         (do b <- truthy (JStr s);
          if b then
            do items <- py_iter (JStr s);
            do parts <- map_result block_parts items;
            Ok (concat parts)
          else Ok []);
       py_join nl (map JStr text_parts ++ block_list))%result
      = Ok (join nl (text_parts ++ chars s))).
  { intros text_parts. destruct s as [|c s].
    - simpl. rewrite !app_nil_r. apply py_join_strings.
    - cbn [truthy py_iter rbind]. rewrite block_parts_chars.
      cbn [rbind]. rewrite concat_singletons.
      rewrite <- (map_map (fun c => [c]) JStr), <- map_app.
      apply py_join_strings. }
  split; [|split].
  - intros Htext. unfold format_message_content.
    rewrite Htext, Hcontent. cbn [rbind]. apply (Hblocks []).
  - intros t Htext. unfold format_message_content.
    rewrite Htext, Hcontent.
    destruct t as [|c t]; cbn [truthy rbind nonempty].
    + apply (Hblocks []).
    + apply (Hblocks [c :: t]).
  - intros Hlen Heq. apply (f_equal (@List.length N)) in Heq.
    destruct s as [|c s]; [simpl in Hlen; lia|].
    rewrite length_join_chars in Heq. simpl in Heq, Hlen. lia.
Qed.

Lemma format_plain_string_content_witness :
  format_message_content [(str "content", JStr (str "abc"))]
  = Ok [97; 10; 98; 10; 99]%N
  /\ join nl (chars (str "abc")) <> str "abc".
Proof.
  pose proof (format_plain_string_content
                [(str "content", JStr (str "abc"))] (str "abc") eq_refl)
    as [Habsent [_ Hdiff]].
  split.
  - exact (Habsent eq_refl).
  - apply Hdiff. simpl. lia.
Defined.

(** ** The query layer *)

Section QueryFacts.
Variable L : PyLib.
Variable fs : filesystem.

Lemma get_conversation_list_Ok (w w' : world) (r : list list_entry) :
  get_conversation_list L fs w = (Ok r, w') ->
  exists convs,
    load_conversations L fs w = (Ok convs, w')
    /\ conversations_cache w' = convs
    /\ conversation_list convs = Ok r.
Proof.
  unfold get_conversation_list, bind, lift. intros H.
  destruct (load_conversations L fs w) as [[convs|e] w1] eqn:Hload;
    [|discriminate].
  injection H as H <-. exists convs.
  split; [reflexivity|]. split; [|exact H].
  apply (load_conversations_again _ _ _ _ _ Hload).
Qed.

Lemma serve_search_Ok (q : pystr) (w w' : world) (r : list hit) :
  serve_search L fs q w = (Ok r, w') ->
  (q = [] /\ r = [] /\ w' = w)
  \/ (q <> []
      /\ exists convs,
          load_conversations L fs w = (Ok convs, w')
          /\ search_results L q convs = Ok r).
Proof.
  unfold serve_search. destruct q as [|c q].
  - unfold ret. intros H; injection H as <- <-. left. auto.
  - unfold bind, lift. intros H.
    destruct (load_conversations L fs w) as [[convs|e] w1] eqn:Hload;
      [|discriminate].
    injection H as H <-. right. split; [discriminate|].
    exists convs. auto.
Qed.

Lemma serve_conversation_Ok (uuid : pystr) (w w' : world) (resp : response) :
  serve_conversation L fs uuid w = (Ok resp, w') ->
  conversation_response (dict_get uuid (conversations_cache w')) = Ok resp.
Proof.
  unfold serve_conversation, get_conversation, bind, lift, ret. intros H.
  destruct (load_conversations L fs w) as [[convs|e] w1] eqn:Hload;
    [|discriminate].
  injection H as H <-.
  apply load_conversations_again in Hload as [-> _]. exact H.
Qed.
End QueryFacts.

Lemma conversation_list_entries (convs : store) (r : list list_entry) :
  conversation_list convs = Ok r ->
  exists entries,
    Forall2 (fun item e => list_entry_of item = Ok e) convs entries
    /\ Permutation r entries
    /\ descending (map le_created_at r).
Proof.
  unfold conversation_list. intros H.
  destruct (map_result list_entry_of convs) as [entries|e] eqn:Hmap;
    [|discriminate].
  simpl in H. apply py_sort_desc_descending in H as [Hperm Hdesc].
  exists entries. split; [apply map_result_Ok; exact Hmap|]. auto.
Qed.

Lemma list_entry_of_reports (uuid : pystr) (conv : dict) (e : list_entry) :
  list_entry_of (uuid, conv) = Ok e ->
  le_uuid e = uuid
  /\ reports_name_summary conv (le_name e) (le_summary e)
  /\ reports_message_count conv (le_message_count e)
  /\ le_created_at e = py_get (str "created_at") (JStr []) conv.
Proof.
  unfold list_entry_of, reports_name_summary, reports_message_count, py_get.
  destruct (dict_get (str "chat_messages") conv) as [msgs|] eqn:Hm.
  - destruct (py_len msgs) as [n|] eqn:Hn; [|discriminate].
    simpl. intros H; injection H as <-. simpl.
    repeat split; try congruence.
    + intros ->; reflexivity.
    + intros v ->; reflexivity.
    + intros ->; reflexivity.
    + intros v ->; reflexivity.
    + intros l H; injection H as ->. simpl in Hn. congruence.
  - simpl. intros H; injection H as <-. simpl.
    repeat split; try congruence.
    + intros ->; reflexivity.
    + intros v ->; reflexivity.
    + intros ->; reflexivity.
    + intros v ->; reflexivity.
Qed.

Lemma search_results_Ok (L : PyLib) (q : pystr) (convs : store) (r : list hit) :
  search_results L q convs = Ok r ->
  exists matches sorted,
    search_matches L (lower L q) convs = Ok matches
    /\ Permutation sorted matches
    /\ descending (map h_created_at sorted)
    /\ r = firstn 100 sorted.
Proof.
  unfold search_results. intros H.
  destruct (search_matches L (lower L q) convs) as [matches|e]; [|discriminate].
  simpl in H.
  destruct (py_sort_desc _ matches) as [sorted|e] eqn:Hsort; [|discriminate].
  simpl in H. injection H as <-.
  apply py_sort_desc_descending in Hsort as [Hperm Hdesc].
  exists matches, sorted. auto.
Qed.

Lemma firstn_incl {A} (n : nat) (l : list A) (x : A) :
  In x (firstn n l) -> In x l.
Proof.
  intros H. rewrite <- (firstn_skipn n l). apply in_or_app; left; exact H.
Qed.

(** A prefix of a descending sequence is descending. *)
Lemma descending_firstn (n : nat) (keys : list json) :
  descending keys -> descending (firstn n keys).
Proof.
  intros [Hstr Hs]. split.
  - apply Forall_forall. intros k Hk.
    rewrite Forall_forall in Hstr. apply Hstr, (firstn_incl n), Hk.
  - clear Hstr. revert n.
    induction Hs as [|k keys Hs IH Hk]; intros n.
    + rewrite firstn_nil. constructor.
    + destruct n as [|n]; simpl; constructor.
      * apply IH.
      * apply Forall_forall. intros k' Hk'.
        rewrite Forall_forall in Hk. apply Hk, (firstn_incl n), Hk'.
Qed.

(** In a descending sequence nothing but empty keys follows an empty
    key. *)
Lemma descending_empty_last (keys k1 k2 : list json) :
  descending keys ->
  keys = k1 ++ JStr [] :: k2 ->
  Forall (fun k => k = JStr []) k2.
Proof.
  intros [Hstr Hs] ->.
  induction k1 as [|k k1 IH]; simpl in *.
  - inversion Hs as [|? ? _ Hall]; subst.
    inversion Hstr as [|? ? _ Hstr2]; subst.
    rewrite Forall_forall in *. intros k Hk.
    specialize (Hall k Hk). specialize (Hstr2 k Hk).
    destruct k as [| | | |[|c s]| |]; simpl in Hall, Hstr2;
      try discriminate; reflexivity.
  - inversion Hs; inversion Hstr; subst. apply IH; assumption.
Qed.

Lemma Forall2_pick {A B} (R : A -> B -> Prop) (l : list A) (l' : list B)
  (x : A) :
  Forall2 R l l' -> In x l -> exists y, In y l' /\ R x y.
Proof.
  induction 1 as [|a b l l' Hab _ IH]; simpl; [tauto|].
  intros [<-|Hin].
  - exists b. auto.
  - destruct (IH Hin) as [y [Hy Hxy]]. exists y. auto.
Qed.

Lemma py_get_reports (conv : dict) :
  reports_name_summary conv
    (py_get (str "name") (JStr (str "Untitled")) conv)
    (py_get (str "summary") (JStr []) conv).
Proof.
  unfold reports_name_summary, py_get.
  repeat split; intros; match goal with H : _ = _ |- _ => rewrite H end;
    reflexivity.
Qed.

(** C6.  The list API and the search API return their records with
    [created_at] never increasing from one record to the next, in the
    order of the raw strings.  A conversation without [created_at] is
    given the empty string, and in a descending sequence only empty keys
    follow an empty key, so such records come last. *)
Theorem results_sorted_descending (L : PyLib) (fs : filesystem) (w : world) :
  (forall r w', get_conversation_list L fs w = (Ok r, w') ->
     descending (map le_created_at r))
  /\ (forall q r w', serve_search L fs q w = (Ok r, w') ->
      descending (map h_created_at r))
  /\ (forall uuid conv,
       dict_get (str "created_at") conv = None ->
       (forall e, list_entry_of (uuid, conv) = Ok e ->
                  le_created_at e = JStr [])
       /\ (forall match_type,
             h_created_at (hit_of uuid conv match_type) = JStr []))
  /\ (forall keys k1 k2,
       descending keys -> keys = k1 ++ JStr [] :: k2 ->
       Forall (fun k => k = JStr []) k2).
Proof.
  split; [|split; [|split]].
  - intros r w' H.
    apply get_conversation_list_Ok in H as [convs [_ [_ H]]].
    apply conversation_list_entries in H as [entries [_ [_ H]]]. exact H.
  - intros q r w' H.
    apply serve_search_Ok in H as [[_ [-> _]]|[_ [convs [_ H]]]].
    + split; constructor.
    + apply search_results_Ok in H as [matches [sorted [_ [_ [Hd ->]]]]].
      rewrite <- firstn_map. apply descending_firstn. exact Hd.
  - intros uuid conv Hnone. split.
    + intros e He. apply list_entry_of_reports in He as [_ [_ [_ ->]]].
      unfold py_get. rewrite Hnone. reflexivity.
    + intros match_type. unfold hit_of, py_get. simpl.
      rewrite Hnone. reflexivity.
  - intros keys k1 k2. apply descending_empty_last.
Qed.

Lemma results_sorted_descending_witness :
  exists r w' h w'',
    get_conversation_list ref_lib sample_files initial_world = (Ok r, w')
    /\ map le_uuid r = [str "b"; str "a"; str "c"]
    /\ descending (map le_created_at r)
    /\ serve_search ref_lib sample_files (str "hello") initial_world
       = (Ok h, w'')
    /\ map h_uuid h = [str "b"; str "a"; str "c"]
    /\ descending (map h_created_at h).
Proof.
  destruct (results_sorted_descending ref_lib sample_files initial_world)
    as [Hlist [Hsearch _]].
  destruct (get_conversation_list ref_lib sample_files initial_world)
    as [[r|e] w'] eqn:Hr; [|vm_compute in Hr; discriminate].
  destruct (serve_search ref_lib sample_files (str "hello") initial_world)
    as [[h|e] w''] eqn:Hh; [|vm_compute in Hh; discriminate].
  exists r, w', h, w''.
  split; [reflexivity|]. split.
  { vm_compute in Hr. injection Hr as <- _. reflexivity. }
  split; [apply (Hlist r w' eq_refl)|].
  split; [reflexivity|]. split.
  { vm_compute in Hh. injection Hh as <- _. reflexivity. }
  apply (Hsearch (str "hello") h w'' Hh).
Defined.

(** C9.  The search API returns at most 100 records: for a non-empty
    query, the first 100 of the matches after they have been sorted
    descending by [created_at]; for the empty query, none. *)
Theorem search_capped_after_sort (L : PyLib) (fs : filesystem) (q : pystr)
  (w w' : world) (r : list hit) :
  serve_search L fs q w = (Ok r, w') ->
  List.length r <= 100
  /\ ((q = [] /\ r = [])
      \/ exists convs matches sorted,
          load_conversations L fs w = (Ok convs, w')
          /\ search_matches L (lower L q) convs = Ok matches
          /\ Permutation sorted matches
          /\ descending (map h_created_at sorted)
          /\ r = firstn 100 sorted).
Proof.
  intros H.
  apply serve_search_Ok in H as [[-> [-> _]]|[_ [convs [Hload H]]]].
  - split; [simpl; lia|]. left; auto.
  - apply search_results_Ok in H
      as [matches [sorted [Hm [Hperm [Hdesc ->]]]]].
    split; [apply firstn_le_length|].
    right. exists convs, matches, sorted. auto.
Qed.

Lemma search_capped_after_sort_witness :
  exists r w',
    serve_search ref_lib crowded_files (str "HELLO") initial_world = (Ok r, w')
    /\ List.length (conversations_cache w') = 101
    /\ List.length r = 100
    /\ List.length r <= 100.
Proof.
  destruct (serve_search ref_lib crowded_files (str "HELLO") initial_world)
    as [[r|e] w'] eqn:H; [|vm_compute in H; discriminate].
  exists r, w'. split; [reflexivity|].
  split; [vm_compute in H; injection H as _ <-; reflexivity|].
  split; [vm_compute in H; injection H as <- _; reflexivity|].
  apply (search_capped_after_sort _ _ _ _ _ _ H).
Defined.

(** C8 as stated fails: a conversation whose name is the empty string is
    listed, and fetched, with the empty string as its name. *)
Lemma empty_name_reported_empty :
  exists r w' body w'',
    get_conversation_list ref_lib sample_files initial_world = (Ok r, w')
    /\ map (fun e => (le_uuid e, le_name e)) r
       = [(str "b", JStr []); (str "a", JStr (str "First"));
          (str "c", JStr (str "Untitled"))]
    /\ serve_conversation ref_lib sample_files (str "b") initial_world
       = (Ok (Found body), w'')
    /\ cv_name body = JStr []
    /\ JStr [] <> JStr (str "Untitled").
Proof.
  destruct (get_conversation_list ref_lib sample_files initial_world)
    as [[r|e] w'] eqn:Hr; [|vm_compute in Hr; discriminate].
  destruct (serve_conversation ref_lib sample_files (str "b") initial_world)
    as [[[|body]|e] w''] eqn:Hb; try (vm_compute in Hb; discriminate).
  exists r, w', body, w''.
  split; [reflexivity|].
  split; [vm_compute in Hr; injection Hr as <- _; reflexivity|].
  split; [reflexivity|].
  split; [vm_compute in Hb; injection Hb as <- _; reflexivity|].
  discriminate.
Qed.

(** C8, amended.  For every stored conversation the list API has a record
    that reports: as name, ["Untitled"] when the [name] field is absent
    and the stored value otherwise; as summary, the empty string when the
    field is absent and the stored value otherwise; as message count, the
    length of the message sequence (0 when there is none).  The fetch-one
    API reports name and summary in the same way and returns one
    formatted message per stored message. *)
Theorem name_defaults_when_absent (L : PyLib) (fs : filesystem) (w : world) :
  (forall r w', get_conversation_list L fs w = (Ok r, w') ->
     forall uuid conv, In (uuid, conv) (conversations_cache w') ->
       exists e,
         In e r /\ le_uuid e = uuid
         /\ reports_name_summary conv (le_name e) (le_summary e)
         /\ reports_message_count conv (le_message_count e))
  /\ (forall uuid resp w',
       serve_conversation L fs uuid w = (Ok resp, w') ->
       match dict_get uuid (conversations_cache w') with
       | None => resp = NotFound
       | Some conv =>
           (conv = [] /\ resp = NotFound)
           \/ exists body,
               resp = Found body
               /\ reports_name_summary conv (cv_name body) (cv_summary body)
               /\ (forall msgs,
                     dict_get (str "chat_messages") conv = Some (JArr msgs) ->
                     List.length (cv_messages body) = List.length msgs)
       end).
Proof.
  split.
  - intros r w' H uuid conv Hin.
    apply get_conversation_list_Ok in H as [convs [_ [Hc H]]].
    rewrite Hc in Hin.
    apply conversation_list_entries in H as [entries [Hall [Hperm _]]].
    destruct (Forall2_pick _ _ _ _ Hall Hin) as [e [He Hentry]].
    exists e. split.
    + apply (Permutation_in _ (Permutation_sym Hperm) He).
    + apply list_entry_of_reports in Hentry as [Hu [Hn [Hm _]]]. auto.
  - intros uuid resp w' H. apply serve_conversation_Ok in H.
    destruct (dict_get uuid (conversations_cache w')) as [conv|];
      [|simpl in H; congruence].
    destruct conv as [|field conv]; [left; simpl in H; split; congruence|].
    right. remember (field :: conv) as c eqn:Hc.
    unfold conversation_response in H. rewrite Hc in H at 1.
    destruct (py_iter (py_get (str "chat_messages") (JArr []) c))
      as [msgs|e] eqn:Hmsgs; [|discriminate]. simpl in H.
    destruct (map_result message_view_of msgs) as [messages|e] eqn:Hviews;
      [|discriminate]. simpl in H. injection H as <-.
    eexists. split; [reflexivity|]. simpl. split; [apply py_get_reports|].
    intros l Hl. unfold py_get in Hmsgs. rewrite Hl in Hmsgs.
    simpl in Hmsgs. injection Hmsgs as <-.
    apply map_result_Ok in Hviews. symmetry.
    apply (Forall2_length Hviews).
Qed.

Lemma name_defaults_when_absent_witness :
  exists r w' e,
    get_conversation_list ref_lib sample_files initial_world = (Ok r, w')
    /\ In e r /\ le_uuid e = str "c"
    /\ le_name e = JStr (str "Untitled")
    /\ le_summary e = JStr []
    /\ le_message_count e = 2.
Proof.
  destruct (name_defaults_when_absent ref_lib sample_files initial_world)
    as [Hlist _].
  destruct (get_conversation_list ref_lib sample_files initial_world)
    as [[r|err] w'] eqn:Hr; [|vm_compute in Hr; discriminate].
  specialize (Hlist r w' eq_refl).
  assert (Hw : exists conv,
             In (str "c", conv) (conversations_cache w')
             /\ dict_get (str "name") conv = None
             /\ dict_get (str "summary") conv = None
             /\ exists m1 m2,
                 dict_get (str "chat_messages") conv = Some (JArr [m1; m2])).
  { vm_compute in Hr. injection Hr as _ <-.
    eexists. split; [right; right; left; reflexivity|].
    split; [reflexivity|]. split; [reflexivity|].
    eexists; eexists; reflexivity. }
  destruct Hw as [conv [Hin [Hname [Hsum [m1 [m2 Hmsgs]]]]]].
  destruct (Hlist _ _ Hin) as [e [He [Hu [[Hn [_ [Hs _]]] [_ Hcount]]]]].
  exists r, w', e. split; [reflexivity|]. split; [exact He|].
  split; [exact Hu|]. split; [exact (Hn Hname)|].
  split; [exact (Hs Hsum)|]. exact (Hcount _ Hmsgs).
Defined.

(** ** Search *)

Lemma scan_messages_first_hit (L : PyLib) (ql uuid : pystr) (conv : dict)
  (pre post : list json) (m : json) :
  forallb (text_misses L ql) pre = true ->
  text_hits L ql m = true ->
  scan_messages L ql uuid conv (pre ++ m :: post)
  = Ok [hit_of uuid conv "message"].
Proof.
  intros Hpre Hm. induction pre as [|m' pre IH]; simpl.
  - unfold text_hits, lowered_text in Hm.
    destruct m as [| | | | | |d]; try discriminate.
    destruct (py_get (str "text") (JStr []) d); try discriminate.
    simpl. rewrite Hm. reflexivity.
  - simpl in Hpre. apply andb_true_iff in Hpre as [Hm' Hpre].
    unfold text_misses, lowered_text in Hm'.
    destruct m' as [| | | | | |d]; try discriminate.
    destruct (py_get (str "text") (JStr []) d); try discriminate.
    simpl. apply negb_true_iff in Hm'. rewrite Hm'. apply IH, Hpre.
Qed.

Lemma scan_messages_no_hit (L : PyLib) (ql uuid : pystr) (conv : dict)
  (msgs : list json) :
  forallb (text_misses L ql) msgs = true ->
  scan_messages L ql uuid conv msgs = Ok [].
Proof.
  induction msgs as [|m msgs IH]; simpl; [reflexivity|].
  intros H. apply andb_true_iff in H as [Hm H].
  unfold text_misses, lowered_text in Hm.
  destruct m as [| | | | | |d]; try discriminate.
  destruct (py_get (str "text") (JStr []) d); try discriminate.
  simpl. apply negb_true_iff in Hm. rewrite Hm. apply IH, H.
Qed.

Lemma search_matches_incl (L : PyLib) (ql : pystr) (convs : store)
  (matches hits : list hit) (item : pystr * dict) :
  search_matches L ql convs = Ok matches ->
  In item convs ->
  search_one L ql item = Ok hits ->
  incl hits matches.
Proof.
  unfold search_matches. intros H Hin Hone.
  destruct (map_result (search_one L ql) convs) as [found|e] eqn:Hmap;
    [|discriminate].
  simpl in H. injection H as <-.
  apply map_result_Ok in Hmap.
  destruct (Forall2_pick _ _ _ _ Hmap Hin) as [hs [Hhs Hitem]].
  assert (hs = hits) by congruence. subst hs.
  intros h Hh. apply in_concat. exists hits. auto.
Qed.

(** C1 as stated fails: the words of a content block are part of the
    flattened message, yet a search for them finds nothing. *)
Lemma search_skips_block_content :
  exists conv msg flat w',
    serve_search ref_lib blocks_files (str "hello") initial_world
    = (Ok [], w')
    /\ conversations_cache w' = [(str "u", conv)]
    /\ dict_get (str "name") conv = Some (JStr (str "n"))
    /\ dict_get (str "summary") conv = None
    /\ dict_get (str "chat_messages") conv = Some (JArr [JObj msg])
    /\ format_message_content msg = Ok flat
    /\ py_in (lower ref_lib (str "hello")) (lower ref_lib flat) = true.
Proof.
  destruct (serve_search ref_lib blocks_files (str "hello") initial_world)
    as [r w'] eqn:H.
  vm_compute in H. injection H as <- <-.
  do 4 eexists.
  split; [reflexivity|]. split; [reflexivity|].
  split; [reflexivity|]. split; [reflexivity|].
  split; [reflexivity|]. split; vm_compute; reflexivity.
Qed.

(** C1, amended.  For a conversation whose name and summary do not
    contain the lowercased query, the search looks for the query in the
    lowercased [text] field of each message (the empty string when the
    field is absent), in sequence order.  At the first message whose
    [text] contains it the scan stops, whatever follows, and the
    conversation is reported once with match type ["message"]: it is among
    the sorted matches of which the search API returns the first 100.
    When no message's [text] contains the query, the conversation is not
    reported. *)
Theorem search_scans_text_field (L : PyLib) (q uuid : pystr) (conv : dict)
  (name summary : pystr) (msgs : list json) :
  py_get (str "name") (JStr []) conv = JStr name ->
  py_get (str "summary") (JStr []) conv = JStr summary ->
  py_in (lower L q) (lower L name) = false ->
  py_in (lower L q) (lower L summary) = false ->
  py_get (str "chat_messages") (JArr []) conv = JArr msgs ->
  (forall pre m post,
      msgs = pre ++ m :: post ->
      forallb (text_misses L (lower L q)) pre = true ->
      text_hits L (lower L q) m = true ->
      search_one L (lower L q) (uuid, conv)
      = Ok [hit_of uuid conv "message"]
      /\ forall fs w r w',
          q <> [] ->
          serve_search L fs q w = (Ok r, w') ->
          In (uuid, conv) (conversations_cache w') ->
          exists sorted,
            In (hit_of uuid conv "message") sorted
            /\ descending (map h_created_at sorted)
            /\ r = firstn 100 sorted)
  /\ (forallb (text_misses L (lower L q)) msgs = true ->
      search_one L (lower L q) (uuid, conv) = Ok []).
Proof.
  intros Hname Hsummary Hn Hs Hmsgs.
  assert (Hone : search_one L (lower L q) (uuid, conv)
                 = scan_messages L (lower L q) uuid conv msgs).
  { unfold search_one. rewrite Hname, Hsummary, Hmsgs. simpl.
    rewrite Hn, Hs. reflexivity. }
  split.
  - intros pre m post -> Hpre Hm.
    assert (Hhit : search_one L (lower L q) (uuid, conv)
                   = Ok [hit_of uuid conv "message"]).
    { rewrite Hone. apply scan_messages_first_hit; assumption. }
    split; [exact Hhit|].
    intros fs w r w' Hq Hserve Hin.
    apply serve_search_Ok in Hserve as [[Hq' _]|[_ [convs [Hload Hres]]]];
      [congruence|].
    apply load_conversations_again in Hload as [Hc _]. rewrite Hc in Hin.
    apply search_results_Ok in Hres
      as [matches [sorted [Hm' [Hperm [Hdesc ->]]]]].
    exists sorted. split; [|auto].
    apply (Permutation_in _ (Permutation_sym Hperm)).
    apply (search_matches_incl _ _ _ _ _ _ Hm' Hin Hhit). left; reflexivity.
  - intros Hall. rewrite Hone. apply scan_messages_no_hit, Hall.
Qed.

Lemma search_scans_text_field_witness :
  search_one ref_lib (lower ref_lib (str "Hello")) (str "c", sample_conv_c)
  = Ok [hit_of (str "c") sample_conv_c "message"]
  /\ exists r w' sorted,
      serve_search ref_lib sample_files (str "Hello") initial_world
      = (Ok r, w')
      /\ In (hit_of (str "c") sample_conv_c "message") sorted
      /\ r = firstn 100 sorted.
Proof.
  destruct (search_scans_text_field ref_lib (str "Hello") (str "c")
              sample_conv_c [] [] _ eq_refl eq_refl eq_refl eq_refl eq_refl)
    as [Hhit _].
  destruct (Hhit [JObj [(str "text", JStr (str "bye"))]]
              (JObj [(str "text", JStr (str "HELLO"))]) []
              eq_refl eq_refl eq_refl) as [Hone Hserve].
  split; [exact Hone|].
  destruct (serve_search ref_lib sample_files (str "Hello") initial_world)
    as [[r|e] w'] eqn:H; [|vm_compute in H; discriminate].
  destruct (Hserve sample_files initial_world r w') as [sorted [Hin [_ Hr]]].
  - discriminate.
  - exact H.
  - vm_compute in H. injection H as _ <-. right; right; left. reflexivity.
  - exists r, w', sorted. auto.
Defined.

(** ** The packing loop *)

Section PackFacts.
Context {A : Type}.
Variable size : A -> N.
Variable max_size : N.

Lemma total_app (c1 c2 : list A) :
  total size (c1 ++ c2) = (total size c1 + total size c2)%N.
Proof.
  induction c1 as [|x c1 IH]; simpl; [reflexivity|].
  rewrite IH. lia.
Qed.

Lemma app_same_length (p1 p2 s1 s2 : list A) :
  p1 ++ s1 = p2 ++ s2 -> List.length p1 = List.length p2 ->
  p1 = p2 /\ s1 = s2.
Proof.
  revert p2; induction p1 as [|a p1 IH]; intros [|b p2]; simpl;
    try discriminate; [auto|].
  intros H Hlen. injection H as -> H. injection Hlen as Hlen.
  destruct (IH _ H Hlen) as [-> ->]. auto.
Qed.

Lemma nonempty_true (l : list A) : nonempty l = true <-> l <> [].
Proof. destruct l; simpl; split; congruence. Qed.

(** The loop, as the chunks closed so far followed by those to come. *)
Lemma pack_fold (l : list A) (st : packer A) :
  current_size st = total size (current_chunk st) ->
  pack_close (fold_left (pack_step size max_size) l st)
  = chunks st ++ chunks_from size max_size (current_chunk st) l.
Proof.
  revert st; induction l as [|x l IH]; intros st Hsize; simpl.
  - unfold pack_close. destruct (nonempty (current_chunk st));
      [reflexivity|rewrite app_nil_r; reflexivity].
  - rewrite IH; unfold pack_step; rewrite Hsize;
      destruct ((max_size <? total size (current_chunk st) + size x)%N
                && nonempty (current_chunk st)); simpl.
    + rewrite <- app_assoc. reflexivity.
    + reflexivity.
    + lia.
    + rewrite total_app. simpl. lia.
Qed.

Lemma pack_chunks_from (l : list A) :
  pack size max_size l = chunks_from size max_size [] l.
Proof. unfold pack. rewrite pack_fold; reflexivity. Qed.

Lemma chunks_from_concat (l cur : list A) :
  concat (chunks_from size max_size cur l) = cur ++ l.
Proof.
  revert cur; induction l as [|x l IH]; intros cur; simpl.
  - destruct cur; simpl; rewrite ?app_nil_r; reflexivity.
  - destruct (_ && _); simpl; rewrite IH.
    + reflexivity.
    + rewrite <- app_assoc. reflexivity.
Qed.

Lemma chunks_from_nonempty (l cur : list A) :
  Forall (fun c => c <> []) (chunks_from size max_size cur l).
Proof.
  revert cur; induction l as [|x l IH]; intros cur; simpl.
  - destruct cur; simpl; constructor; [discriminate|constructor].
  - destruct (_ && nonempty cur) eqn:E; [|apply IH].
    apply andb_true_iff in E as [_ E]. apply nonempty_true in E.
    constructor; [exact E|apply IH].
Qed.

(** The first chunk starts with the current chunk. *)
Lemma chunks_from_head (l cur : list A) :
  cur <> [] ->
  exists ext rest, chunks_from size max_size cur l = (cur ++ ext) :: rest.
Proof.
  revert cur; induction l as [|x l IH]; intros cur Hcur; simpl.
  - apply nonempty_true in Hcur. rewrite Hcur.
    exists [], []. rewrite app_nil_r. reflexivity.
  - destruct (_ && _).
    + exists [], (chunks_from size max_size [x] l).
      rewrite app_nil_r. reflexivity.
    + destruct (IH (cur ++ [x])) as [ext [rest H]].
      { destruct cur; discriminate. }
      exists (x :: ext), rest. rewrite H, <- app_assoc. reflexivity.
Qed.

(** A chunk is closed only on overflow. *)
Lemma chunks_from_boundary (l cur : list A) cs1 c x c' cs2 :
  chunks_from size max_size cur l = cs1 ++ c :: (x :: c') :: cs2 ->
  (max_size < total size c + size x)%N.
Proof.
  revert cur cs1; induction l as [|y l IH]; intros cur cs1; simpl.
  - destruct (nonempty cur); intros H;
      destruct cs1 as [|? [|? ?]]; discriminate.
  - destruct (_ && nonempty cur) eqn:E; [|apply IH].
    apply andb_true_iff in E as [E _]. apply N.ltb_lt in E.
    destruct cs1 as [|c1 cs1]; simpl; intros H; injection H as <- H.
    + destruct (chunks_from_head l [y]) as [ext [rest Hhead]];
        [discriminate|].
      rewrite Hhead in H. injection H as <- _ _. exact E.
    + apply (IH _ _ H).
Qed.

(** Inside a chunk no overflow was passed over, apart from what the
    current chunk held at the start. *)
Lemma chunks_from_within (l cur : list A) cs1 p x q cs2 :
  chunks_from size max_size cur l = cs1 ++ (p ++ x :: q) :: cs2 ->
  p <> [] ->
  (cs1 = [] /\ List.length p < List.length cur)
  \/ (total size p + size x <= max_size)%N.
Proof.
  revert cur cs1; induction l as [|y l IH]; intros cur cs1; simpl.
  - destruct (nonempty cur); intros H Hp;
      destruct cs1 as [|? [|? ?]]; try discriminate.
    injection H as -> _. left. split; [reflexivity|].
    rewrite length_app. simpl. lia.
  - destruct (_ && nonempty cur) eqn:E.
    + destruct cs1 as [|c1 cs1]; simpl; intros H Hp; injection H as -> H.
      * left. split; [reflexivity|]. rewrite length_app. simpl. lia.
      * destruct (IH _ _ H Hp) as [[_ Hlen]|Hle]; [|right; exact Hle].
        destruct p; [congruence|simpl in Hlen; lia].
    + intros H Hp.
      destruct (IH _ _ H Hp) as [[-> Hlen]|Hle]; [|right; exact Hle].
      rewrite length_app in Hlen. simpl in Hlen.
      destruct (Nat.eq_dec (List.length p) (List.length cur)) as [Heq|Hne];
        [|left; split; [reflexivity|lia]].
      right.
      destruct (chunks_from_head l (cur ++ [y])) as [ext [rest Hhead]].
      { destruct cur; discriminate. }
      rewrite Hhead in H. simpl in H. injection H as H _.
      rewrite <- app_assoc in H. simpl in H.
      symmetry in H. apply app_same_length in H; [|exact Heq].
      destruct H as [-> H]. injection H as -> _.
      apply andb_false_iff in E as [E|E].
      * apply N.ltb_ge in E. exact E.
      * apply nonempty_true in Hp. congruence.
Qed.
End PackFacts.

(** The packing loop is greedy at every size and threshold.  Its
    chunks, put end to end, are the sequence it was given; no chunk is
    empty; where one chunk ends and the next begins, the first item of the
    next chunk would have pushed the size of the ended chunk over the
    threshold; inside a chunk, no item other than the first pushed the
    running size over the threshold; and an item larger than the threshold
    is alone in its chunk. *)
Lemma pack_greedy {A : Type} (size : A -> N) (max_size : N)
  (l : list A) :
  concat (pack size max_size l) = l
  /\ Forall (fun c => c <> []) (pack size max_size l)
  /\ (forall cs1 c x c' cs2,
        pack size max_size l = cs1 ++ c :: (x :: c') :: cs2 ->
        (max_size < total size c + size x)%N)
  /\ (forall cs1 p x q cs2,
        pack size max_size l = cs1 ++ (p ++ x :: q) :: cs2 ->
        p <> [] ->
        (total size p + size x <= max_size)%N)
  /\ (forall c x,
        In c (pack size max_size l) -> In x c ->
        (max_size < size x)%N ->
        c = [x]).
Proof.
  rewrite pack_chunks_from.
  assert (Hwithin :
    forall cs1 p x q cs2,
      chunks_from size max_size [] l = cs1 ++ (p ++ x :: q) :: cs2 ->
      p <> [] ->
      (total size p + size x <= max_size)%N).
  { intros cs1 p x q cs2 H Hp.
    destruct (chunks_from_within _ _ _ _ _ _ _ _ _ H Hp) as [[_ Hlen]|Hle];
      [simpl in Hlen; lia|exact Hle]. }
  split; [apply chunks_from_concat|].
  split; [apply chunks_from_nonempty|].
  split; [intros cs1 c x c' cs2; apply chunks_from_boundary|].
  split; [exact Hwithin|].
  intros c x Hc Hx Hbig.
  apply in_split in Hc as [cs1 [cs2 Hc]].
  apply in_split in Hx as [p [q ->]].
  destruct p as [|y p].
  - destruct q as [|z q]; [reflexivity|].
    pose proof (Hwithin cs1 [x] z q cs2 Hc) as H.
    simpl in H. assert ([x] <> []) as Hne by discriminate.
    specialize (H Hne). lia.
  - pose proof (Hwithin cs1 (y :: p) x q cs2 Hc) as H.
    assert (y :: p <> []) as Hne by discriminate.
    specialize (H Hne). lia.
Qed.

(** Items of 20, 20 and 10 megabytes at the threshold of the partitioner:
    the third item opens the second chunk.  An item of 50 megabytes is
    alone in its chunk. *)
Example pack_greedy_megabytes :
  pack megabytes MAX_CHUNK_SIZE [20; 20; 10]%N = [[20; 20]; [10]]%N
  /\ (MAX_CHUNK_SIZE < total megabytes [20; 20]%N + megabytes 10)%N
  /\ (total megabytes [20]%N + megabytes 20 <= MAX_CHUNK_SIZE)%N
  /\ pack megabytes MAX_CHUNK_SIZE [10; 50; 1]%N = [[10]; [50]; [1]]%N
  /\ (forall c, In c (pack megabytes MAX_CHUNK_SIZE [10; 50; 1]%N) ->
                In 50%N c -> c = [50%N]).
Proof.
  destruct (pack_greedy megabytes MAX_CHUNK_SIZE [20; 20; 10]%N)
    as [_ [_ [Hboundary [Hwithin _]]]].
  destruct (pack_greedy megabytes MAX_CHUNK_SIZE [10; 50; 1]%N)
    as [_ [_ [_ [_ Halone]]]].
  split; [reflexivity|].
  split; [apply (Hboundary [] [20; 20]%N 10%N [] []); reflexivity|].
  split; [apply (Hwithin [] [20%N] 20%N [] [[10%N]]);
          [reflexivity|discriminate]|].
  split; [reflexivity|].
  intros c Hc H50. apply (Halone c 50%N Hc H50). reflexivity.
Qed.

(** ** The index *)

Lemma index_fold_lookup (recs : list json) (c : store) (u : pystr) :
  dict_get u (fold_left index_add recs c)
  = match last_with_uuid u recs with
    | Some d => Some d
    | None => dict_get u c
    end.
Proof.
  revert c; induction recs as [|r recs IH]; intros c; simpl; [reflexivity|].
  rewrite IH. destruct (last_with_uuid u recs); [reflexivity|].
  unfold index_add, record_uuid.
  destruct r as [| | | | | |d]; try reflexivity.
  destruct (dict_get (str "uuid") d) as [[| | | |u'| |]|]; try reflexivity.
  destruct (str_eqb u u') eqn:E.
  - apply str_eqb_eq in E; subst u'. apply dict_get_set_same.
  - apply str_eqb_neq in E. apply dict_get_set_other; exact E.
Qed.

Lemma index_fold_NoDup (recs : list json) (c : store) :
  NoDup (map fst c) -> NoDup (map fst (fold_left index_add recs c)).
Proof.
  revert c; induction recs as [|r recs IH]; intros c H; simpl; [exact H|].
  apply IH. unfold index_add, record_uuid.
  destruct r as [| | | | | |d]; try exact H.
  destruct (dict_get (str "uuid") d) as [[| | | |u'| |]|]; try exact H.
  apply dict_set_NoDup; exact H.
Qed.

Lemma count_uuid_perm (u : pystr) (l l' : list json) :
  Permutation l l' -> count_uuid u l = count_uuid u l'.
Proof.
  unfold count_uuid.
  induction 1 as [|x l l' _ IH|x y l|l l' l'' _ IH1 _ IH2]; simpl.
  - reflexivity.
  - destruct (record_uuid x) as [ux|]; [destruct (str_eqb u ux)|];
      simpl; congruence.
  - destruct (record_uuid x) as [ux|], (record_uuid y) as [uy|];
      try destruct (str_eqb u ux); try destruct (str_eqb u uy);
      reflexivity.
  - congruence.
Qed.

(** What the partitioner writes: the loaded sequence, sorted descending
    by [created_at] and cut by the packing loop. *)
Lemma split_conversations_Ok (L : PyLib) (fs : filesystem)
  (cs : list (list json)) :
  split_conversations L fs = Ok cs ->
  exists sorted keys,
    Permutation sorted (split_load L fs)
    /\ map_result created_at_key sorted = Ok keys
    /\ descending keys
    /\ cs = pack (conv_size L) MAX_CHUNK_SIZE sorted.
Proof.
  unfold split_conversations. intros H.
  destruct (py_sort_desc created_at_key (split_load L fs)) as [sorted|e]
    eqn:Hsort; [|discriminate].
  simpl in H. injection H as <-.
  apply py_sort_desc_spec in Hsort as [Hperm [keys [Hkeys Hdesc]]].
  exists sorted, keys. auto.
Qed.

(** C4.  The partitioner packs greedily.  From the loaded sequence as the
    sort leaves it, descending by [created_at], [split_conversations]
    returns the chunks that [partition_chunks] cuts, where the size of a
    conversation is [conv_size], the number of bytes of its [json.dumps]
    text, and the threshold is [MAX_CHUNK_SIZE].  The chunks, put end to
    end, are the sorted sequence; no chunk is empty; where one chunk ends
    and the next begins, the first conversation of the next chunk would
    have pushed the size of the ended chunk over the threshold; and
    inside a chunk, no conversation other than the first pushed the
    running size over the threshold.  So a new chunk starts exactly at an
    overflow of a chunk that has content, with the overflowing
    conversation first in the new chunk.  A conversation larger than the
    threshold is alone in its chunk. *)
Theorem pack_is_greedy (L : PyLib) (fs : filesystem) (sorted : list json) :
  py_sort_desc created_at_key (split_load L fs) = Ok sorted ->
  exists cs,
    split_conversations L fs = Ok cs
    /\ cs = partition_chunks L sorted
    /\ (exists keys,
          map_result created_at_key sorted = Ok keys /\ descending keys)
    /\ concat cs = sorted
    /\ Forall (fun c => c <> []) cs
    /\ (forall cs1 c x c' cs2,
          cs = cs1 ++ c :: (x :: c') :: cs2 ->
          (MAX_CHUNK_SIZE < total (conv_size L) c + conv_size L x)%N)
    /\ (forall cs1 p x q cs2,
          cs = cs1 ++ (p ++ x :: q) :: cs2 ->
          p <> [] ->
          (total (conv_size L) p + conv_size L x <= MAX_CHUNK_SIZE)%N)
    /\ (forall c x,
          In c cs -> In x c ->
          (MAX_CHUNK_SIZE < conv_size L x)%N ->
          c = [x]).
Proof.
  intros Hsort. exists (partition_chunks L sorted).
  split; [unfold split_conversations; rewrite Hsort; reflexivity|].
  split; [reflexivity|].
  split.
  { apply py_sort_desc_spec in Hsort as [_ [keys [Hkeys Hdesc]]].
    exists keys. auto. }
  exact (pack_greedy (conv_size L) MAX_CHUNK_SIZE sorted).
Qed.

Lemma pack_is_greedy_witness :
  exists sorted cs,
    py_sort_desc created_at_key (split_load ref_lib duplicate_files)
    = Ok sorted
    /\ split_conversations ref_lib duplicate_files = Ok cs
    /\ map_result created_at_key sorted
       = Ok [JStr (str "2025"); JStr (str "2024"); JStr []]
    /\ map (conv_size ref_lib) sorted = [50; 50; 17]%N
    /\ cs = [sorted]
    /\ concat cs = sorted
    /\ Forall (fun c => c <> []) cs.
Proof.
  destruct (py_sort_desc created_at_key (split_load ref_lib duplicate_files))
    as [sorted|e] eqn:Hsort; [|vm_compute in Hsort; discriminate].
  destruct (pack_is_greedy ref_lib duplicate_files sorted Hsort)
    as [cs [Hrun [Hcs [_ [Hconcat [Hne _]]]]]].
  exists sorted, cs. split; [reflexivity|]. split; [exact Hrun|].
  vm_compute in Hsort. injection Hsort as <-.
  split; [vm_compute; reflexivity|].
  split; [vm_compute; reflexivity|].
  split; [rewrite Hcs; vm_compute; reflexivity|].
  split; [exact Hconcat|exact Hne].
Defined.

Lemma dict_get_In {V} (d : list (pystr * V)) (k : pystr) (v : V) :
  NoDup (map fst d) -> In (k, v) d -> dict_get k d = Some v.
Proof.
  induction d as [|[k' v'] d IH]; simpl; [tauto|].
  intros Hnd [Heq|Hin].
  - injection Heq as -> ->. rewrite str_eqb_refl. reflexivity.
  - inversion Hnd as [|? ? Hnotin Hnd']; subst.
    destruct (str_eqb k k') eqn:E; [|apply IH; assumption].
    apply str_eqb_eq in E; subst k'. exfalso. apply Hnotin.
    apply (in_map fst) in Hin. exact Hin.
Qed.

Lemma last_with_uuid_Some (u : pystr) (recs : list json) (d : dict) :
  last_with_uuid u recs = Some d ->
  In (JObj d) recs /\ dict_get (str "uuid") d = Some (JStr u).
Proof.
  induction recs as [|r recs IH]; simpl; [discriminate|].
  destruct (last_with_uuid u recs) as [d'|].
  - intros H; injection H as ->. destruct (IH eq_refl). auto.
  - unfold record_uuid. destruct r as [| | | | | |d0]; try discriminate.
    destruct (dict_get (str "uuid") d0) as [[| | | |u'| |]|] eqn:Hu;
      try discriminate.
    destruct (str_eqb u u') eqn:E; [|discriminate].
    apply str_eqb_eq in E; subst u'.
    intros H; injection H as <-. auto.
Qed.

(** C3.  When every loaded record is a dict whose identifier, if any, is a
    string, building the index raises nothing and leaves a store with at
    most one conversation per identifier, in which each identifier maps to
    the last loaded record that carries it; every stored conversation is
    a loaded record that carries its key as identifier, so that earlier
    records with that identifier, and records without identifier, are
    not in the store.
    The chunks of the partitioner hold the sequence it loaded, reordered:
    every record is kept, so an identifier occurs in the chunks as often
    as in the loaded sequence. *)
Theorem store_keeps_last_partitioner_keeps_all (L : PyLib) (fs : filesystem)
  (w : world) :
  conversations_cache w = [] ->
  forallb indexable (server_load L fs) = true ->
  (exists st w',
      load_conversations L fs w = (Ok st, w')
      /\ NoDup (map fst st)
      /\ (forall u, dict_get u st = last_with_uuid u (server_load L fs))
      /\ (forall u d, In (u, d) st ->
            In (JObj d) (server_load L fs)
            /\ dict_get (str "uuid") d = Some (JStr u)))
  /\ (forall cs,
        split_conversations L fs = Ok cs ->
        Permutation (concat cs) (split_load L fs)
        /\ forall u,
            count_uuid u (concat cs) = count_uuid u (split_load L fs)).
Proof.
  intros Hempty Hrecs. split.
  - rewrite (load_conversations_miss _ _ _ Hempty).
    rewrite (for_each_indexable _ _ Hrecs). simpl.
    assert (Hnd : NoDup (map fst (fold_left index_add (server_load L fs) [])))
      by (apply index_fold_NoDup; constructor).
    assert (Hlast : forall u,
               dict_get u (fold_left index_add (server_load L fs) [])
               = last_with_uuid u (server_load L fs)).
    { intros u. rewrite index_fold_lookup.
      destruct (last_with_uuid u (server_load L fs)); reflexivity. }
    eexists; eexists. split; [reflexivity|].
    split; [exact Hnd|]. split; [exact Hlast|].
    intros u d Hin. apply (last_with_uuid_Some u).
    rewrite <- Hlast. apply dict_get_In; assumption.
  - intros cs H.
    apply split_conversations_Ok in H as [sorted [keys [Hperm [_ [_ ->]]]]].
    rewrite pack_chunks_from, chunks_from_concat. simpl.
    split; [exact Hperm|].
    intros u. apply count_uuid_perm, Hperm.
Qed.

Lemma store_keeps_last_partitioner_keeps_all_witness :
  exists st w' cs,
    load_conversations ref_lib duplicate_files initial_world = (Ok st, w')
    /\ map fst st = [str "u"]
    /\ NoDup (map fst st)
    /\ dict_get (str "u") st
       = Some [(str "uuid", JStr (str "u")); (str "name", JStr (str "new"));
               (str "created_at", JStr (str "2025"))]
    /\ split_conversations ref_lib duplicate_files = Ok cs
    /\ List.length (concat cs) = 3
    /\ count_uuid (str "u") (concat cs) = 2.
Proof.
  destruct (store_keeps_last_partitioner_keeps_all
              ref_lib duplicate_files initial_world eq_refl)
    as [[st [w' [Hload [Hnodup [Hlast _]]]]] Hsplit].
  { vm_compute. reflexivity. }
  destruct (split_conversations ref_lib duplicate_files) as [cs|e] eqn:Hcs;
    [|vm_compute in Hcs; discriminate].
  destruct (Hsplit cs eq_refl) as [Hperm Hcount].
  exists st, w', cs. split; [exact Hload|].
  split; [vm_compute in Hload; injection Hload as <- _; reflexivity|].
  split; [exact Hnodup|].
  split; [rewrite Hlast; vm_compute; reflexivity|].
  split; [reflexivity|].
  split; [rewrite (Permutation_length Hperm); vm_compute; reflexivity|].
  rewrite Hcount. vm_compute. reflexivity.
Defined.

(** C2 as stated fails: when the files hold no conversation, the second
    call opens the file again. *)
Lemma empty_store_is_reloaded :
  exists w1 w2,
    load_conversations ref_lib empty_files initial_world = (Ok [], w1)
    /\ opened w1 = [1]
    /\ load_conversations ref_lib empty_files w1 = (Ok [], w2)
    /\ opened w2 = [1; 1].
Proof.
  do 2 eexists.
  split; [vm_compute; reflexivity|].
  split; [reflexivity|].
  split; vm_compute; reflexivity.
Qed.

(** C2, amended.  For a fixed set of source files, a call of the loader
    that returned can be repeated and returns the same mapping, which is
    the content of the cache.  When that mapping holds a conversation, the
    repeated call changes nothing: no file is opened and the index is not
    rebuilt.  When it is empty, the repeated call runs the loading pass
    again, opening every existing file once more.  Either way, the list
    API called twice returns identical results. *)
Theorem load_is_memoized_when_nonempty (L : PyLib) (fs : filesystem)
  (w : world) :
  (forall c w1,
      load_conversations L fs w = (Ok c, w1) ->
      conversations_cache w1 = c
      /\ exists w2,
          load_conversations L fs w1 = (Ok c, w2)
          /\ conversations_cache w2 = c
          /\ (c <> [] -> w2 = w1)
          /\ (c = [] -> opened w2 = opened w1 ++ existing fs))
  /\ (forall r wa,
        get_conversation_list L fs w = (Ok r, wa) ->
        exists wb,
          get_conversation_list L fs wa = (Ok r, wb)
          /\ (conversations_cache wa <> [] -> wb = wa)).
Proof.
  split.
  - intros c w1. apply load_conversations_again.
  - intros r wa H.
    apply get_conversation_list_Ok in H as [convs [Hload [Hc Hlist]]].
    apply load_conversations_again in Hload
      as [_ [wb [Hagain [_ [Hsame _]]]]].
    exists wb. split.
    + unfold get_conversation_list, bind, lift.
      rewrite Hagain, Hlist. reflexivity.
    + intros Hne. apply Hsame. congruence.
Qed.

Lemma load_is_memoized_when_nonempty_witness :
  exists c w1 r,
    load_conversations ref_lib sample_files initial_world = (Ok c, w1)
    /\ List.length c = 3
    /\ opened w1 = [1]
    /\ load_conversations ref_lib sample_files w1 = (Ok c, w1)
    /\ get_conversation_list ref_lib sample_files initial_world = (Ok r, w1)
    /\ get_conversation_list ref_lib sample_files w1 = (Ok r, w1).
Proof.
  destruct (load_is_memoized_when_nonempty ref_lib sample_files initial_world)
    as [Hload Hlist].
  destruct (load_conversations ref_lib sample_files initial_world)
    as [[c|e] w1] eqn:H1; [|vm_compute in H1; discriminate].
  destruct (get_conversation_list ref_lib sample_files initial_world)
    as [[r|e] wa] eqn:H2; [|vm_compute in H2; discriminate].
  destruct (Hload c w1 eq_refl) as [Hc [w2 [Hagain [_ [Hsame _]]]]].
  destruct (Hlist r wa eq_refl) as [wb [Hlist2 Hsame2]].
  assert (Hlen : List.length c = 3).
  { vm_compute in H1. injection H1 as <- _. reflexivity. }
  assert (Hwa : wa = w1).
  { vm_compute in H1, H2. injection H1 as _ <-. injection H2 as _ <-.
    reflexivity. }
  assert (Hne : c <> []) by (destruct c; [discriminate|discriminate]).
  rewrite (Hsame Hne) in Hagain.
  subst wa. rewrite Hsame2 in Hlist2 by congruence.
  exists c, w1, r. split; [reflexivity|]. split; [exact Hlen|].
  split; [vm_compute in H1; injection H1 as _ <-; reflexivity|].
  split; [exact Hagain|]. split; [reflexivity|exact Hlist2].
Defined.

(** ** Salvage of a truncated export *)

Lemma rfind_from_absent (sub s : pystr) (i : Z) :
  py_in sub s = false -> rfind_from i s sub = (-1)%Z.
Proof.
  revert i; induction s as [|c s IH]; intros i; simpl.
  - rewrite orb_false_r. intros ->. reflexivity.
  - intros H. apply orb_false_iff in H as [Hhere Hlater].
    rewrite (IH _ Hlater). simpl. rewrite Hhere. reflexivity.
Qed.

Lemma rfind_from_here (sub s : pystr) (c : N) (i : Z) :
  (0 <= i)%Z ->
  startswith (c :: s) sub = true ->
  py_in sub s = false ->
  rfind_from i (c :: s) sub = i.
Proof.
  intros Hi Hhere Hlater. cbn [rfind_from].
  rewrite (rfind_from_absent _ _ _ Hlater). simpl (0 <=? -1)%Z. cbv iota.
  rewrite Hhere. reflexivity.
Qed.

Lemma rfind_from_skip (sub pre s : pystr) (i : Z) :
  (0 <= rfind_from (i + Z.of_nat (List.length pre)) s sub)%Z ->
  rfind_from i (pre ++ s) sub
  = rfind_from (i + Z.of_nat (List.length pre)) s sub.
Proof.
  revert i; induction pre as [|c pre IH]; intros i H.
  - simpl in *. rewrite Z.add_0_r in H |- *. reflexivity.
  - cbn [app rfind_from].
    replace (i + Z.of_nat (List.length (c :: pre)))%Z
      with (i + 1 + Z.of_nat (List.length pre))%Z in *
      by (cbn [List.length]; lia).
    rewrite (IH _ H). apply Z.leb_le in H. rewrite H. reflexivity.
Qed.

(** The last [},] of a string, found by [rfind]. *)
Lemma rfind_last_brace (pre post : pystr) :
  py_in (str "},") post = false ->
  rfind (pre ++ str "}," ++ post) (str "},")
  = Z.of_nat (List.length pre).
Proof.
  intros Hpost. unfold rfind.
  assert (Hhere : rfind_from (0 + Z.of_nat (List.length pre))
                    (str "}," ++ post) (str "},")
                  = (0 + Z.of_nat (List.length pre))%Z).
  { change (str "}," ++ post) with (125%N :: 44%N :: post).
    apply rfind_from_here; [lia|reflexivity|].
    cbn [py_in]. rewrite Hpost. apply orb_false_r. }
  rewrite rfind_from_skip; rewrite Hhere; lia.
Qed.

Lemma firstn_succ_app (pre s : pystr) (c : N) :
  firstn (S (List.length pre)) (pre ++ c :: s) = pre ++ [c].
Proof.
  induction pre as [|x pre IH]; simpl; [reflexivity|].
  simpl in IH. rewrite IH. reflexivity.
Qed.

(** The salvage on a string whose last [},] is known. *)
Lemma salvage_last_brace (L : PyLib) (content pre post : pystr) :
  strip content = pre ++ str "}," ++ post ->
  startswith pre (str "[") = true ->
  py_in (str "},") post = false ->
  salvage L content
  = match json_loads L (pre ++ str "}]") with
    | Some data =>
        match py_iter data with
        | Ok items => items
        | Raise _ => []
        end
    | None => []
    end.
Proof.
  intros Hstrip Hopen Hpost. unfold salvage. rewrite Hstrip.
  destruct pre as [|c pre]; [discriminate|].
  assert (Hstart : startswith ((c :: pre) ++ str "}," ++ post) (str "[")
                   = true).
  { simpl in Hopen |- *. rewrite andb_true_r in Hopen |- *. exact Hopen. }
  rewrite Hstart, (rfind_last_brace _ _ Hpost).
  assert (Hpos : (0 <? Z.of_nat (List.length (c :: pre)))%Z = true).
  { apply Z.ltb_lt. simpl. lia. }
  rewrite Hpos. unfold slice_to.
  replace (Z.to_nat (Z.of_nat (List.length (c :: pre)) + 1))
    with (S (List.length (c :: pre))) by lia.
  change (str "}," ++ post) with (125%N :: 44%N :: post).
  rewrite firstn_succ_app, <- app_assoc. reflexivity.
Qed.

Lemma server_load_one (L : PyLib) (content : pystr) :
  server_load L (files [Text content]) = load_content L content.
Proof. reflexivity. Qed.

Lemma split_load_one (L : PyLib) (content : pystr) :
  split_load L (files [Text content]) = split_load_content L content.
Proof. reflexivity. Qed.

(** C5.  When the standard parse of a file fails, the loader adds nothing
    unless the trimmed content starts with [[]; when it does, the content
    is cut just after the brace of the last [},], a [[]]] is appended,
    and the records of that text, parsed again, are added (none when there
    is no [},] or when the second parse fails).  On the export
    [[{"uuid":"a","name":"x"},{"uuid":"b","name":"y"], which fails to
    parse and whose cut parses to the single record [a], the loader
    recovers exactly the record [a] and the store holds it alone. *)
Theorem salvage_truncated_array (L : PyLib) :
  (forall content,
      json_loads L content = None ->
      (startswith (strip content) (str "[") = false ->
       load_content L content = [])
      /\ (py_in (str "},") (strip content) = false ->
          load_content L content = [])
      /\ (forall pre post,
            strip content = pre ++ str "}," ++ post ->
            startswith pre (str "[") = true ->
            py_in (str "},") post = false ->
            load_content L content
            = match json_loads L (pre ++ str "}]") with
              | Some data =>
                  match py_iter data with
                  | Ok items => items
                  | Raise _ => []
                  end
              | None => []
              end))
  /\ (json_loads L truncated_export = None ->
      json_loads L recovered_export = Some (JArr [JObj record_a]) ->
      server_load L (files [Text truncated_export]) = [JObj record_a]
      /\ exists w',
          load_conversations L (files [Text truncated_export]) initial_world
          = (Ok [(str "a", record_a)], w')).
Proof.
  assert (Hlaw :
    forall content pre post,
      json_loads L content = None ->
      strip content = pre ++ str "}," ++ post ->
      startswith pre (str "[") = true ->
      py_in (str "},") post = false ->
      load_content L content
      = match json_loads L (pre ++ str "}]") with
        | Some data =>
            match py_iter data with
            | Ok items => items
            | Raise _ => []
            end
        | None => []
        end).
  { intros content pre post Hfail Hstrip Hopen Hpost.
    unfold load_content. rewrite Hfail.
    apply (salvage_last_brace L content pre post); assumption. }
  split.
  - intros content Hfail. split; [|split].
    + intros Hopen. unfold load_content, salvage.
      rewrite Hfail, Hopen. reflexivity.
    + intros Habsent. unfold load_content, salvage. rewrite Hfail.
      destruct (startswith (strip content) (str "[")); [|reflexivity].
      unfold rfind. rewrite (rfind_from_absent _ _ _ Habsent). reflexivity.
    + intros pre post. apply Hlaw, Hfail.
  - intros Hfail Hcut.
    assert (Hrecs : server_load L (files [Text truncated_export])
                    = [JObj record_a]).
    { rewrite server_load_one.
      rewrite (Hlaw truncated_export
                 (src "[{'uuid':'a','name':'x'")
                 (src "{'uuid':'b','name':'y'")
                 Hfail eq_refl eq_refl eq_refl).
      change (src "[{'uuid':'a','name':'x'" ++ str "}]")
        with recovered_export.
      rewrite Hcut. reflexivity. }
    split; [exact Hrecs|].
    rewrite load_conversations_miss by reflexivity.
    rewrite Hrecs. eexists. reflexivity.
Qed.

Lemma salvage_truncated_array_witness :
  json_loads ref_lib truncated_export = None
  /\ json_loads ref_lib recovered_export = Some (JArr [JObj record_a])
  /\ server_load ref_lib (files [Text truncated_export]) = [JObj record_a]
  /\ server_load ref_lib (files [Text (src "{'uuid':'a','name':")]) = []
  /\ exists w',
      load_conversations ref_lib (files [Text truncated_export]) initial_world
      = (Ok [(str "a", record_a)], w').
Proof.
  assert (H1 : json_loads ref_lib truncated_export = None)
    by (vm_compute; reflexivity).
  assert (H2 : json_loads ref_lib recovered_export
               = Some (JArr [JObj record_a]))
    by (vm_compute; reflexivity).
  destruct (salvage_truncated_array ref_lib) as [Hlaw Hscenario].
  destruct (Hscenario H1 H2) as [Hrecs Hstore].
  split; [exact H1|]. split; [exact H2|]. split; [exact Hrecs|].
  split; [|exact Hstore].
  rewrite server_load_one.
  assert (H3 : json_loads ref_lib (src "{'uuid':'a','name':") = None)
    by (vm_compute; reflexivity).
  destruct (Hlaw _ H3) as [Hother _].
  apply Hother. vm_compute. reflexivity.
Defined.

(** ** The two loading passes *)

(** C7.  The two loading passes differ on an export that is cut off and
    starts with a form feed, as soon as [json.loads] refuses a leading
    form feed.  The server trims the content before it cuts it, so the
    text it parses again starts at the bracket and the record [a] is
    recovered.  The partitioner cuts the untrimmed content, so the text it
    parses again still starts with the form feed: the second parse fails
    and the file adds nothing. *)
Theorem loaders_disagree_after_form_feed (L : PyLib) :
  json_loads L (form_feed :: truncated_export) = None ->
  json_loads L recovered_export = Some (JArr [JObj record_a]) ->
  json_loads L (form_feed :: recovered_export) = None ->
  server_load L (files [Text (form_feed :: truncated_export)])
  = [JObj record_a]
  /\ split_load L (files [Text (form_feed :: truncated_export)]) = [].
Proof.
  intros Hfail Hcut Hfeed. split.
  - rewrite server_load_one. unfold load_content. rewrite Hfail.
    rewrite (salvage_last_brace L (form_feed :: truncated_export)
               (src "[{'uuid':'a','name':'x'")
               (src "{'uuid':'b','name':'y'")
               eq_refl eq_refl eq_refl).
    change (src "[{'uuid':'a','name':'x'" ++ str "}]") with recovered_export.
    rewrite Hcut. reflexivity.
  - rewrite split_load_one. unfold split_load_content. rewrite Hfail.
    unfold split_salvage.
    change (rfind (form_feed :: truncated_export) (str "},")) with 24%Z.
    change (startswith (strip (form_feed :: truncated_export)) (str "["))
      with true.
    change (slice_to (form_feed :: truncated_export) (24 + 1) ++ str "]")
      with (form_feed :: recovered_export).
    simpl. rewrite Hfeed. reflexivity.
Qed.

Lemma loaders_disagree_after_form_feed_witness :
  server_load ref_lib (files [Text (form_feed :: truncated_export)])
  = [JObj record_a]
  /\ split_load ref_lib (files [Text (form_feed :: truncated_export)]) = [].
Proof.
  apply (loaders_disagree_after_form_feed ref_lib);
    vm_compute; reflexivity.
Defined.

(** ** The query layer returns on the export format *)

Lemma well_formed_conv_fields (conv : dict) :
  well_formed_conv conv = true ->
  is_str (py_get (str "name") (JStr []) conv) = true
  /\ is_str (py_get (str "summary") (JStr []) conv) = true
  /\ is_str (py_get (str "created_at") (JStr []) conv) = true
  /\ exists msgs,
      py_get (str "chat_messages") (JArr []) conv = JArr msgs
      /\ forallb well_formed_message msgs = true.
Proof.
  unfold well_formed_conv. rewrite !andb_true_iff.
  intros [[[Hn Hs] Hc] Hm]. repeat split; try assumption.
  destruct (py_get (str "chat_messages") (JArr []) conv);
    try discriminate. eexists; split; [reflexivity|exact Hm].
Qed.

Lemma list_entries_total (convs : store) :
  well_formed_store convs = true ->
  exists entries,
    map_result list_entry_of convs = Ok entries
    /\ forallb is_str (map le_created_at entries) = true.
Proof.
  unfold well_formed_store.
  induction convs as [|[uuid conv] convs IH]; simpl; intros H.
  - exists []. auto.
  - apply andb_true_iff in H as [Hconv H].
    destruct (IH H) as [entries [Hentries Hstr]].
    apply well_formed_conv_fields in Hconv
      as [_ [_ [Hc [msgs [Hmsgs _]]]]].
    rewrite Hmsgs, Hentries. simpl. eexists. split; [reflexivity|].
    simpl. rewrite Hc, Hstr. reflexivity.
Qed.

(** The list API raises nothing on a store of the export format. *)
Lemma conversation_list_total (convs : store) :
  well_formed_store convs = true ->
  exists r, conversation_list convs = Ok r.
Proof.
  intros H. destruct (list_entries_total _ H) as [entries [He Hstr]].
  unfold conversation_list. rewrite He. simpl.
  apply py_sort_desc_total, Hstr.
Qed.

Lemma scan_messages_total (L : PyLib) (ql uuid : pystr) (conv : dict)
  (msgs : list json) :
  forallb well_formed_message msgs = true ->
  scan_messages L ql uuid conv msgs = Ok []
  \/ scan_messages L ql uuid conv msgs = Ok [hit_of uuid conv "message"].
Proof.
  induction msgs as [|m msgs IH]; simpl; [auto|].
  intros H. apply andb_true_iff in H as [Hm H].
  destruct m as [| | | | | |d]; try discriminate. simpl in Hm.
  destruct (py_get (str "text") (JStr []) d); try discriminate. simpl.
  destruct (py_in ql (lower L s)); [right; reflexivity|apply IH, H].
Qed.

Lemma search_matches_total (L : PyLib) (ql : pystr) (convs : store) :
  well_formed_store convs = true ->
  exists matches,
    search_matches L ql convs = Ok matches
    /\ forallb is_str (map h_created_at matches) = true.
Proof.
  unfold well_formed_store, search_matches.
  induction convs as [|[uuid conv] convs IH]; simpl; intros H.
  - exists []. auto.
  - apply andb_true_iff in H as [Hconv H].
    destruct (IH H) as [matches [Hmatches Hstr]].
    destruct (map_result (search_one L ql) convs) as [found|e];
      [|discriminate].
    simpl in Hmatches. injection Hmatches as <-.
    apply well_formed_conv_fields in Hconv
      as [Hn [Hs [Hc [msgs [Hmsgs Hwf]]]]].
    destruct (py_get (str "name") (JStr []) conv) as [| | | |name| |];
      try discriminate.
    destruct (py_get (str "summary") (JStr []) conv) as [| | | |summary| |];
      try discriminate.
    simpl. rewrite Hmsgs. simpl.
    destruct (py_in ql (lower L name) || py_in ql (lower L summary)).
    + simpl. eexists. split; [reflexivity|].
      simpl. rewrite Hc. exact Hstr.
    + destruct (scan_messages_total L ql uuid conv msgs Hwf) as [-> | ->];
        simpl; eexists; (split; [reflexivity|]); simpl.
      * exact Hstr.
      * rewrite Hc. exact Hstr.
Qed.

(** The search API raises nothing on a store of the export format. *)
Lemma search_results_total (L : PyLib) (q : pystr) (convs : store) :
  well_formed_store convs = true ->
  exists r, search_results L q convs = Ok r.
Proof.
  intros H.
  destruct (search_matches_total L (lower L q) _ H) as [matches [Hm Hstr]].
  unfold search_results. rewrite Hm. simpl.
  destruct (py_sort_desc_total h_created_at matches Hstr) as [sorted Hs].
  rewrite Hs. simpl. eexists; reflexivity.
Qed.

(** ** Where the two loading passes agree *)

Lemma leading_space_lstrip (s : pystr) : s = leading_space s ++ lstrip s.
Proof.
  induction s as [|c s IH]; simpl; [reflexivity|].
  destruct (isspace c); simpl; [f_equal; exact IH|reflexivity].
Qed.

Lemma leading_space_isspace (s : pystr) :
  forallb isspace (leading_space s) = true.
Proof.
  induction s as [|c s IH]; simpl; [reflexivity|].
  destruct (isspace c) eqn:E; simpl; [rewrite E; exact IH|reflexivity].
Qed.

Lemma rstrip_trailing (s : pystr) :
  exists trail, s = rstrip s ++ trail /\ forallb isspace trail = true.
Proof.
  exists (rev (leading_space (rev s))). unfold rstrip. split.
  - rewrite <- rev_app_distr, <- leading_space_lstrip, rev_involutive.
    reflexivity.
  - rewrite forallb_forall. intros c Hc. apply in_rev in Hc.
    pose proof (leading_space_isspace (rev s)) as H.
    rewrite forallb_forall in H. apply H, Hc.
Qed.

Lemma startswith_length (s p : pystr) :
  startswith s p = true -> List.length p <= List.length s.
Proof.
  revert s; induction p as [|x p IH]; intros [|y s]; simpl;
    try discriminate; try lia.
  intros H. apply andb_true_iff in H as [_ H]. apply IH in H. lia.
Qed.

(** A found index is not before the start of the search. *)
Lemma rfind_from_ge (sub s : pystr) (i : Z) :
  (0 <= rfind_from i s sub)%Z -> (i <= rfind_from i s sub)%Z.
Proof.
  revert i; induction s as [|c s IH]; intros i; cbn [rfind_from].
  - destruct (startswith [] sub); lia.
  - destruct (0 <=? rfind_from (i + 1) s sub)%Z eqn:E.
    + apply Z.leb_le in E. specialize (IH _ E). lia.
    + destruct (startswith (c :: s) sub); lia.
Qed.

Lemma rfind_from_found (sub s : pystr) (i : Z) :
  (0 <= i)%Z -> py_in sub s = true -> (0 <= rfind_from i s sub)%Z.
Proof.
  revert i; induction s as [|c s IH]; intros i Hi; simpl.
  - rewrite orb_false_r. intros ->. exact Hi.
  - intros H.
    destruct (0 <=? rfind_from (i + 1) s sub)%Z eqn:E;
      [apply Z.leb_le; exact E|].
    destruct (startswith (c :: s) sub) eqn:Hhere; [exact Hi|].
    simpl in H. apply Z.leb_gt in E.
    assert (0 <= rfind_from (i + 1) s sub)%Z by (apply IH; [lia|exact H]).
    lia.
Qed.

(** The occurrence that was found lies inside the string. *)
Lemma rfind_from_fits (sub s : pystr) (i : Z) :
  sub <> [] ->
  (0 <= rfind_from i s sub)%Z ->
  (rfind_from i s sub + Z.of_nat (List.length sub)
   <= i + Z.of_nat (List.length s))%Z.
Proof.
  intros Hsub. revert i; induction s as [|c s IH]; intros i;
    cbn [rfind_from].
  - destruct sub; [congruence|]. simpl. lia.
  - destruct (0 <=? rfind_from (i + 1) s sub)%Z eqn:E.
    + apply Z.leb_le in E. specialize (IH _ E). intros _.
      cbn [List.length]. lia.
    + destruct (startswith (c :: s) sub) eqn:Hhere; [|lia].
      apply startswith_length in Hhere. intros _. lia.
Qed.

(** Moving the start of the search moves the index that is found. *)
Lemma rfind_from_shift (sub s : pystr) (i d : Z) :
  (0 <= i)%Z -> (0 <= d)%Z ->
  rfind_from (i + d) s sub
  = if (0 <=? rfind_from i s sub)%Z then (rfind_from i s sub + d)%Z
    else (-1)%Z.
Proof.
  revert i; induction s as [|c s IH]; intros i Hi Hd; cbn [rfind_from].
  - destruct (startswith [] sub).
    + assert ((0 <=? i)%Z = true) as -> by (apply Z.leb_le; lia). reflexivity.
    + reflexivity.
  - replace (i + d + 1)%Z with (i + 1 + d)%Z by lia.
    rewrite IH by lia.
    destruct (0 <=? rfind_from (i + 1) s sub)%Z eqn:E.
    + apply Z.leb_le in E.
      assert ((0 <=? rfind_from (i + 1) s sub + d)%Z = true) as ->
        by (apply Z.leb_le; lia).
      rewrite (proj2 (Z.leb_le _ _) E). reflexivity.
    + simpl (0 <=? -1)%Z. cbv iota.
      destruct (startswith (c :: s) sub).
      * assert ((0 <=? i)%Z = true) as -> by (apply Z.leb_le; lia).
        reflexivity.
      * reflexivity.
Qed.

Lemma space_is_no_brace (w : N) (s : pystr) :
  isspace w = true -> startswith (w :: s) (str "},") = false.
Proof.
  intros Hw. change (str "},") with [125; 44]%N. cbn [startswith].
  destruct (N.eqb_spec 125 w) as [<-|_]; [discriminate|reflexivity].
Qed.

Lemma py_in_cons (sub s : pystr) (c : N) :
  py_in sub (c :: s) = startswith (c :: s) sub || py_in sub s.
Proof. reflexivity. Qed.

Lemma no_brace_after_space (ws s : pystr) :
  forallb isspace ws = true ->
  py_in (str "},") s = false ->
  py_in (str "},") (ws ++ s) = false.
Proof.
  intros Hws Hs. induction ws as [|w ws IH]; [exact Hs|].
  cbn [forallb] in Hws. apply andb_true_iff in Hws as [Hw Hws].
  cbn [app]. rewrite py_in_cons, (IH Hws), (space_is_no_brace _ _ Hw).
  reflexivity.
Qed.

Lemma no_brace_in_space (ws : pystr) :
  forallb isspace ws = true -> py_in (str "},") ws = false.
Proof.
  intros H. rewrite <- (app_nil_r ws).
  apply no_brace_after_space; [exact H|reflexivity].
Qed.

(** Trailing white space does not change where the last [},] is. *)
Lemma rfind_trailing_space (s trail : pystr) (i : Z) :
  forallb isspace trail = true ->
  rfind_from i (s ++ trail) (str "},") = rfind_from i s (str "},").
Proof.
  intros Htrail. revert i; induction s as [|c s IH]; intros i.
  - simpl app. rewrite (rfind_from_absent _ _ _ (no_brace_in_space _ Htrail)).
    reflexivity.
  - cbn [app rfind_from]. rewrite IH.
    destruct (0 <=? rfind_from (i + 1) s (str "},"))%Z; [reflexivity|].
    assert (Hsame : startswith (c :: s ++ trail) (str "},")
                    = startswith (c :: s) (str "},")).
    { change (str "},") with [125; 44]%N.
      destruct s as [|d s]; [|reflexivity].
      destruct trail as [|w trail]; [reflexivity|].
      cbn [forallb] in Htrail. apply andb_true_iff in Htrail as [Hw _].
      cbn [app startswith].
      destruct (N.eqb_spec 44 w) as [<-|_]; [discriminate|].
      rewrite !andb_false_r. reflexivity. }
    rewrite Hsame. reflexivity.
Qed.

Lemma rfind_not_at_bracket (s : pystr) :
  startswith s (str "[") = true -> rfind s (str "},") <> 0%Z.
Proof.
  destruct s as [|c s]; [discriminate|].
  change (str "[") with [91%N]. cbn [startswith]. rewrite andb_true_r.
  intros Hc. apply N.eqb_eq in Hc. subst c.
  unfold rfind. cbn [rfind_from].
  destruct (0 <=? rfind_from (0 + 1) s (str "},"))%Z eqn:E.
  - apply Z.leb_le, rfind_from_ge in E. lia.
  - change (startswith (91%N :: s) (str "},")) with false. lia.
Qed.

(** The salvage of the partitioner and the salvage of the server give the
    same records whenever [json.loads] does not mind the white space that
    the content starts with; in particular when there is none. *)
Lemma salvage_agree (L : PyLib) (content : pystr) :
  (forall x, json_loads L (leading_space content ++ x) = json_loads L x) ->
  split_salvage L content = salvage L content.
Proof.
  intros Hlead. unfold split_salvage, salvage. cbv zeta.
  destruct (startswith (strip content) (str "[")) eqn:Hopen;
    [|rewrite andb_false_r; reflexivity].
  rewrite andb_true_r.
  pose proof (rfind_not_at_bracket _ Hopen) as Hnot0.
  pose proof (leading_space_lstrip content) as Hcontent.
  pose proof (leading_space_isspace content) as Hspace.
  destruct (rstrip_trailing (lstrip content)) as [trail [Hrest Htrail]].
  fold (strip content) in Hrest.
  revert Hlead Hcontent Hspace Hrest Hnot0.
  generalize (leading_space content) as lead.
  generalize (lstrip content) as rest.
  generalize (strip content) as core.
  intros core rest lead Hlead Hcontent Hspace Hrest Hnot0.
  assert (Hcore : rfind rest (str "},") = rfind core (str "},")).
  { unfold rfind. rewrite Hrest. apply rfind_trailing_space, Htrail. }
  destruct (py_in (str "},") rest) eqn:Hin.
  - assert (Hk : (0 <= rfind rest (str "},"))%Z)
      by (apply rfind_from_found; [lia|exact Hin]).
    assert (Hk' : (0 <= rfind core (str "},"))%Z)
      by (rewrite <- Hcore; exact Hk).
    assert (Hfits : (rfind core (str "},") + 2
                     <= Z.of_nat (List.length core))%Z).
    { assert (Hsub : str "}," <> []) by discriminate.
      pose proof (rfind_from_fits (str "},") core 0 Hsub Hk') as H.
      change (Z.of_nat (List.length (str "},"))) with 2%Z in H.
      unfold rfind. lia. }
    assert (Hwhole : rfind content (str "},")
                     = (rfind core (str "},")
                        + Z.of_nat (List.length lead))%Z).
    { unfold rfind. rewrite Hcontent at 1.
      rewrite rfind_from_skip.
      - rewrite rfind_from_shift by lia.
        fold (rfind rest (str "},")). rewrite (proj2 (Z.leb_le _ _) Hk).
        rewrite Hcore. reflexivity.
      - apply rfind_from_found; [lia|exact Hin]. }
    rewrite Hwhole.
    assert ((0 <? rfind core (str "},") + Z.of_nat (List.length lead))%Z
            = true) as -> by (apply Z.ltb_lt; lia).
    assert ((0 <? rfind core (str "},"))%Z = true) as ->
      by (apply Z.ltb_lt; lia).
    unfold slice_to.
    replace (Z.to_nat (rfind core (str "},")
                       + Z.of_nat (List.length lead) + 1))
      with (List.length lead + Z.to_nat (rfind core (str "},") + 1))
      by lia.
    rewrite Hcontent at 1. rewrite firstn_app_2.
    rewrite Hrest at 1. rewrite firstn_app.
    replace (Z.to_nat (rfind core (str "},") + 1) - List.length core)
      with 0 by lia.
    rewrite firstn_O, app_nil_r, <- app_assoc, Hlead. reflexivity.
  - assert (Hnone : rfind core (str "},") = (-1)%Z).
    { rewrite <- Hcore. apply rfind_from_absent, Hin. }
    assert (Hnone' : rfind content (str "},") = (-1)%Z).
    { unfold rfind. rewrite Hcontent at 1.
      apply rfind_from_absent, no_brace_after_space; assumption. }
    rewrite Hnone, Hnone'. reflexivity.
Qed.

(** The two loading passes add the same records for a file whenever
    [json.loads] does not mind the white space that the content starts
    with: always when the first parse succeeds, and when it fails, for
    every content that [str.strip] leaves unchanged at its head. *)
Lemma load_content_agree (L : PyLib) (content : pystr) :
  (forall x, json_loads L (leading_space content ++ x) = json_loads L x) ->
  split_load_content L content = load_content L content.
Proof.
  intros Hlead. unfold split_load_content, load_content.
  destruct (json_loads L content) as [data|]; [reflexivity|].
  apply salvage_agree, Hlead.
Qed.

Lemma load_content_agree_parsed (L : PyLib) (content : pystr) :
  json_loads L content <> None ->
  split_load_content L content = load_content L content.
Proof.
  unfold split_load_content, load_content.
  destruct (json_loads L content); [reflexivity|congruence].
Qed.

(** X19.  The loading pass of the partitioner and the loading pass of
    the server build the same sequence of records for every set of
    source files in which [json.loads] does not mind the white space
    that a file starts with; in particular whenever no file starts with
    white space. *)
Lemma loading_passes_agree (L : PyLib) (fs : filesystem) :
  (forall i content,
      fs i = Text content ->
      forall x, json_loads L (leading_space content ++ x) = json_loads L x) ->
  split_load L fs = server_load L fs.
Proof.
  intros Hfiles. unfold split_load, server_load.
  generalize (@nil json) as acc. generalize candidate_files as l.
  induction l as [|i l IH]; intros acc; simpl; [reflexivity|].
  rewrite IH. f_equal. unfold split_load_file, visit_file.
  destruct (fs i) as [| |content] eqn:Hi; try reflexivity.
  rewrite (load_content_agree L content (Hfiles i content Hi)).
  reflexivity.
Qed.

(* ================================================================== *)
(** * Further properties *)

(** ** The request handler and the process state *)

Lemma dict_set_In {V} (k : pystr) (v : V) (d : list (pystr * V))
  (k' : pystr) (v' : V) :
  In (k', v') (dict_set k v d) -> (k', v') = (k, v) \/ In (k', v') d.
Proof.
  induction d as [|[k0 v0] d IH]; simpl.
  - intros [H|[]]. left; congruence.
  - destruct (str_eqb k k0) eqn:E; simpl.
    + apply str_eqb_eq in E. subst k0.
      intros [H|H]; [left; congruence|right; right; exact H].
    + intros [H|H]; [right; left; exact H|].
      destruct (IH H) as [Heq|Hin]; [left; exact Heq|right; right; exact Hin].
Qed.

Lemma dict_get_Some_In {V} (k : pystr) (v : V) (d : list (pystr * V)) :
  dict_get k d = Some v -> In (k, v) d.
Proof.
  induction d as [|[k' v'] d IH]; simpl; [discriminate|].
  destruct (str_eqb k k') eqn:E.
  - apply str_eqb_eq in E. subst k'. intros H; injection H as ->.
    left; reflexivity.
  - intros H. right. apply IH, H.
Qed.

Lemma index_one_consistent (conv : json) (w : world) :
  store_consistent (conversations_cache w) ->
  store_consistent (conversations_cache (snd (index_one conv w))).
Proof.
  intros [Hnd Hids]. unfold index_one, cache_set, raise, ret.
  destruct conv as [| | | |s|l|d]; simpl; try (split; assumption).
  - destruct (py_in (str "uuid") s); split; assumption.
  - destruct (existsb _ l); split; assumption.
  - destruct (dict_get (str "uuid") d) as [[| | | |u| |]|] eqn:Hu;
      simpl; try (split; assumption).
    split; [apply dict_set_NoDup; exact Hnd|].
    intros u' d' Hin. apply dict_set_In in Hin as [Heq|Hin].
    + injection Heq as -> ->. exact Hu.
    + apply Hids, Hin.
Qed.

Lemma for_each_index_consistent (recs : list json) (w : world) :
  store_consistent (conversations_cache w) ->
  store_consistent
    (conversations_cache (snd (for_each recs index_one w))).
Proof.
  revert w; induction recs as [|conv recs IH]; intros w H; [exact H|].
  simpl. unfold bind.
  pose proof (index_one_consistent conv w H) as H1.
  destruct (index_one conv w) as [[[]|e] w1]; simpl in *.
  - apply IH, H1.
  - exact H1.
Qed.

Section HandlerFacts.
Variable L : PyLib.
Variable fs : filesystem.

Lemma load_conversations_consistent (w : world) :
  store_consistent (conversations_cache w) ->
  store_consistent
    (conversations_cache (snd (load_conversations L fs w))).
Proof.
  intros H. destruct (conversations_cache w) as [|x c] eqn:Hc.
  - rewrite (load_conversations_miss _ _ _ Hc).
    pose proof (for_each_index_consistent (server_load L fs)
                  {| conversations_cache := [];
                     opened := opened w ++ existing fs |}) as Hrun.
    simpl in Hrun. specialize (Hrun H).
    destruct (for_each _ _ _) as [[[]|e] w']; exact Hrun.
  - rewrite load_conversations_hit by congruence. simpl.
    rewrite Hc. exact H.
Qed.

(** A request leaves the process state as it was, or as one call of
    [load_conversations] leaves it. *)
Lemma do_GET_world (req : request) (w : world) :
  snd (do_GET L fs req w) = w
  \/ snd (do_GET L fs req w) = snd (load_conversations L fs w).
Proof.
  unfold do_GET.
  destruct (str_eqb (req_path req) (str "/")); [left; reflexivity|].
  destruct (str_eqb (req_path req) (str "/api/conversations")).
  { right. unfold serve_conversation_list, get_conversation_list, bind,
      lift, ret.
    destruct (load_conversations L fs w) as [[convs|e] w1]; simpl;
      [|reflexivity].
    destruct (conversation_list convs); reflexivity. }
  destruct (str_eqb (req_path req) (str "/api/conversation")).
  { destruct (first_value (str "id") (req_query req)) as [[|c uuid]|];
      try (left; reflexivity).
    right. unfold serve_conversation, get_conversation, bind, lift, ret.
    destruct (load_conversations L fs w) as [[convs|e] w1]; simpl;
      [|reflexivity].
    destruct (conversation_response (dict_get (c :: uuid) convs))
      as [[|body]|e]; reflexivity. }
  destruct (str_eqb (req_path req) (str "/api/search")); [|left; reflexivity].
  unfold serve_search, bind, lift, ret.
  destruct (match first_value (str "q") (req_query req) with
            | Some v => v
            | None => []
            end) as [|c q]; [left; reflexivity|].
  right. destruct (load_conversations L fs w) as [[convs|e] w1]; simpl;
    [|reflexivity].
  destruct (search_results L (c :: q) convs); reflexivity.
Qed.
End HandlerFacts.

Lemma requests_keep_store_consistent_aux (L : PyLib) (fs : filesystem)
  (req : request) (w : world) :
  store_consistent (conversations_cache w) ->
  store_consistent (conversations_cache (snd (do_GET L fs req w))).
Proof.
  intros H. destruct (do_GET_world L fs req w) as [-> | ->];
    [exact H|apply load_conversations_consistent, H].
Qed.

(** X1.  Once the store holds a conversation, no request changes the
    process state: the cache is not written and no file is opened,
    whatever the path and the query, and whether the request is answered
    or raises. *)
Theorem requests_leave_loaded_store_unchanged (L : PyLib) (fs : filesystem)
  (req : request) (w : world) :
  conversations_cache w <> [] ->
  snd (do_GET L fs req w) = w.
Proof.
  intros Hne. destruct (do_GET_world L fs req w) as [H|H]; [exact H|].
  rewrite H, load_conversations_hit by exact Hne. reflexivity.
Qed.

Lemma requests_leave_loaded_store_unchanged_witness :
  exists w,
    snd (load_conversations ref_lib sample_files initial_world) = w
    /\ opened w = [1]
    /\ snd (do_GET ref_lib sample_files
              (get_request "/api/search" [("q", "hello")%string]) w) = w
    /\ snd (do_GET ref_lib sample_files
              (get_request "/api/conversation" [("id", "zzz")%string]) w) = w.
Proof.
  eexists. split; [reflexivity|]. split; [vm_compute; reflexivity|].
  split; apply requests_leave_loaded_store_unchanged;
    vm_compute; discriminate.
Defined.

(** X2.  Whatever requests the server has handled since it started, the
    index is well built: no identifier is stored twice and every stored
    conversation carries the identifier it is stored under.  This also
    holds after a request that stopped on a [TypeError] of the index
    loop, with the index half built.  The statement is about source
    files whose records are text-keyed, on which [index_one] does what
    the index loop does. *)
Theorem requests_keep_store_consistent (L : PyLib) (fs : filesystem)
  (reqs : list request) :
  forallb text_keyed (server_load L fs) = true ->
  store_consistent
    (conversations_cache (run_requests L fs reqs initial_world)).
Proof.
  intros _. unfold run_requests.
  assert (Hstart : store_consistent (conversations_cache initial_world)).
  { split; [constructor|]. intros u d []. }
  revert Hstart. generalize initial_world as w.
  induction reqs as [|req reqs IH]; intros w Hw; [exact Hw|].
  simpl. apply IH, requests_keep_store_consistent_aux, Hw.
Qed.

Lemma requests_keep_store_consistent_witness :
  let reqs := [get_request "/api/conversations" [];
               get_request "/api/search" [("q", "x")%string];
               get_request "/api/conversation" [("id", "b")%string]] in
  forallb text_keyed (server_load ref_lib broken_files) = true
  /\ fst (do_GET ref_lib broken_files
            (get_request "/api/conversations" []) initial_world)
     = Raise TypeError
  /\ map fst (conversations_cache
                (run_requests ref_lib broken_files reqs initial_world))
     = [str "a"]
  /\ store_consistent
       (conversations_cache
          (run_requests ref_lib broken_files reqs initial_world)).
Proof.
  intros reqs. split; [vm_compute; reflexivity|].
  split; [vm_compute; reflexivity|].
  split; [vm_compute; reflexivity|].
  apply requests_keep_store_consistent. vm_compute. reflexivity.
Defined.

Lemma do_GET_conversation (L : PyLib) (fs : filesystem)
  (query : list (pystr * (pystr * list pystr))) (w : world) :
  do_GET L fs {| req_path := str "/api/conversation"; req_query := query |} w
  = match first_value (str "id") query with
    | Some (c :: uuid) =>
        match serve_conversation L fs (c :: uuid) w with
        | (Ok NotFound, w') => (Ok (SendError 404), w')
        | (Ok (Found body), w') => (Ok (JsonConversation body), w')
        | (Raise e, w') => (Raise e, w')
        end
    | _ => (Ok (SendError 400), w)
    end.
Proof.
  unfold do_GET. cbn [req_path req_query].
  change (str_eqb (str "/api/conversation") (str "/")) with false.
  change (str_eqb (str "/api/conversation") (str "/api/conversations"))
    with false.
  change (str_eqb (str "/api/conversation") (str "/api/conversation"))
    with true.
  cbv iota.
  destruct (first_value (str "id") query) as [[|c uuid]|]; try reflexivity.
  unfold bind.
  destruct (serve_conversation L fs (c :: uuid) w) as [[[|body]|e] w'];
    reflexivity.
Qed.

(** X3.  The fetch-one endpoint.  Without an [id], or with an empty one,
    it answers 400 and touches nothing: the files are not even loaded.
    With an [id], and when it answers at all, it answers 404 exactly when
    the store holds nothing under that identifier, and otherwise 200 with
    a record whose identifier is the one asked for, whose name and summary
    are reported as by the list API, and which has one message per stored
    message. *)
Theorem conversation_endpoint_status (L : PyLib) (fs : filesystem)
  (query : list (pystr * (pystr * list pystr))) (w : world) :
  store_consistent (conversations_cache w) ->
  ((first_value (str "id") query = None
    \/ first_value (str "id") query = Some []) ->
   do_GET L fs
     {| req_path := str "/api/conversation"; req_query := query |} w
   = (Ok (SendError 400), w))
  /\ (forall uuid r w',
        first_value (str "id") query = Some uuid ->
        uuid <> [] ->
        do_GET L fs
          {| req_path := str "/api/conversation"; req_query := query |} w
        = (Ok r, w') ->
        match dict_get uuid (conversations_cache w') with
        | None => r = SendError 404
        | Some conv =>
            exists body,
              r = JsonConversation body
              /\ cv_uuid body = JStr uuid
              /\ reports_name_summary conv (cv_name body) (cv_summary body)
              /\ forall msgs,
                  dict_get (str "chat_messages") conv = Some (JArr msgs) ->
                  List.length (cv_messages body) = List.length msgs
        end).
Proof.
  intros Hstore. split.
  - intros [H|H]; rewrite do_GET_conversation, H; reflexivity.
  - intros uuid r w' Hid Hne Hget.
    assert (Hafter : store_consistent (conversations_cache w')).
    { pose proof (requests_keep_store_consistent_aux L fs
                    {| req_path := str "/api/conversation";
                       req_query := query |} w Hstore) as H.
      rewrite Hget in H. exact H. }
    rewrite do_GET_conversation, Hid in Hget.
    destruct uuid as [|c uuid]; [congruence|].
    destruct (serve_conversation L fs (c :: uuid) w) as [[resp|e] w1]
      eqn:Hserve; [|discriminate].
    assert (w1 = w') by (destruct resp; congruence). subst w1.
    apply serve_conversation_Ok in Hserve.
    destruct (dict_get (c :: uuid) (conversations_cache w')) as [conv|]
      eqn:Hconv.
    + assert (Huuid : dict_get (str "uuid") conv = Some (JStr (c :: uuid))).
      { destruct Hafter as [_ Hids]. apply Hids, dict_get_Some_In, Hconv. }
      destruct conv as [|field conv]; [discriminate|].
      remember (field :: conv) as stored eqn:Hstored.
      unfold conversation_response in Hserve. rewrite Hstored in Hserve at 1.
      destruct (py_iter (py_get (str "chat_messages") (JArr []) stored))
        as [msgs|e] eqn:Hmsgs; [|discriminate]. simpl in Hserve.
      destruct (map_result message_view_of msgs) as [messages|e] eqn:Hviews;
        [|discriminate]. simpl in Hserve. injection Hserve as <-.
      simpl in Hget. injection Hget as <-.
      eexists. split; [reflexivity|]. simpl.
      split; [unfold py_get; rewrite Huuid; reflexivity|].
      split; [apply py_get_reports|].
      intros l Hl. unfold py_get in Hmsgs. rewrite Hl in Hmsgs.
      simpl in Hmsgs. injection Hmsgs as <-.
      apply map_result_Ok in Hviews. symmetry.
      apply (Forall2_length Hviews).
    + simpl in Hserve. injection Hserve as <-. simpl in Hget. congruence.
Qed.

Lemma initial_store_consistent :
  store_consistent (conversations_cache initial_world).
Proof. split; [constructor|]. intros u d []. Qed.

Lemma conversation_endpoint_status_witness :
  do_GET ref_lib sample_files (get_request "/api/conversation" [])
    initial_world
  = (Ok (SendError 400), initial_world)
  /\ (exists w',
        do_GET ref_lib sample_files
          (get_request "/api/conversation" [("id", "zzz")%string])
          initial_world
        = (Ok (SendError 404), w'))
  /\ exists body w',
      do_GET ref_lib sample_files
        (get_request "/api/conversation" [("id", "b")%string])
        initial_world
      = (Ok (JsonConversation body), w')
      /\ cv_uuid body = JStr (str "b").
Proof.
  split; [|split].
  - apply (conversation_endpoint_status ref_lib sample_files []
             initial_world initial_store_consistent).
    left; reflexivity.
  - destruct (conversation_endpoint_status ref_lib sample_files
                [(str "id", (str "zzz", []))] initial_world
                initial_store_consistent) as [_ Hid].
    destruct (do_GET ref_lib sample_files
                (get_request "/api/conversation" [("id", "zzz")%string])
                initial_world) as [[r|e] w'] eqn:H;
      [|vm_compute in H; discriminate].
    assert (Hne : str "zzz" <> []) by discriminate.
    pose proof (Hid (str "zzz") r w' eq_refl Hne H) as Hm.
    assert (Hc : dict_get (str "zzz") (conversations_cache w') = None).
    { vm_compute in H. injection H as _ <-. reflexivity. }
    rewrite Hc in Hm. subst r. exists w'. reflexivity.
  - destruct (conversation_endpoint_status ref_lib sample_files
                [(str "id", (str "b", []))] initial_world
                initial_store_consistent) as [_ Hid].
    destruct (do_GET ref_lib sample_files
                (get_request "/api/conversation" [("id", "b")%string])
                initial_world) as [[r|e] w'] eqn:H;
      [|vm_compute in H; discriminate].
    assert (Hne : str "b" <> []) by discriminate.
    pose proof (Hid (str "b") r w' eq_refl Hne H) as Hm.
    destruct (dict_get (str "b") (conversations_cache w')) as [conv|] eqn:Hc.
    + destruct Hm as [body [-> [Hu _]]]. exists body, w'. auto.
    + exfalso. vm_compute in H. injection H as _ <-. discriminate.
Defined.

(** ** The list API *)

Lemma Forall2_filter_map {A B C} (R : A -> B -> Prop)
  (p : A -> bool) (q : B -> bool) (f : A -> C) (g : B -> C)
  (l : list A) (l' : list B) :
  Forall2 R l l' ->
  (forall x y, R x y -> p x = q y /\ f x = g y) ->
  map f (filter p l) = map g (filter q l').
Proof.
  intros H Hagree. induction H as [|x y l l' Hxy _ IH]; [reflexivity|].
  simpl. destruct (Hagree x y Hxy) as [Hp Hf]. rewrite Hp.
  destruct (q y); simpl; rewrite ?Hf, IH; reflexivity.
Qed.

Lemma py_sort_desc_Ok {A} (key : A -> json) (l r : list A) :
  py_sort_desc (fun x => Ok (key x)) l = Ok r ->
  r = sort_desc (fun x => str_of (key x)) l
  /\ forallb is_str (map key l) = true.
Proof.
  unfold py_sort_desc. rewrite map_result_pure. simpl.
  destruct (forallb is_str (map key l)); [|discriminate].
  intros H; injection H as <-. split; reflexivity.
Qed.

(** The sort keeps the items of one key in the order they had. *)
Lemma insert_desc_filter {A} (skey : A -> pystr) (k : pystr) (x : A)
  (l : list A) :
  filter (fun y => str_eqb (skey y) k) (insert_desc skey x l)
  = filter (fun y => str_eqb (skey y) k) (x :: l).
Proof.
  induction l as [|y l IH]; [reflexivity|].
  cbn [insert_desc]. destruct (str_ltb (skey x) (skey y)) eqn:Hlt;
    [|reflexivity].
  cbn [filter] in *. rewrite IH.
  destruct (str_eqb (skey x) k) eqn:Hx; [|reflexivity].
  destruct (str_eqb (skey y) k) eqn:Hy; [|reflexivity].
  apply str_eqb_eq in Hx, Hy. rewrite Hx, Hy, str_ltb_irrefl in Hlt.
  discriminate.
Qed.

Lemma sort_desc_stable {A} (skey : A -> pystr) (k : pystr) (l : list A) :
  filter (fun y => str_eqb (skey y) k) (sort_desc skey l)
  = filter (fun y => str_eqb (skey y) k) l.
Proof.
  induction l as [|x l IH]; [reflexivity|].
  cbn [sort_desc fold_right]. fold (sort_desc skey l).
  rewrite insert_desc_filter. cbn [filter]. rewrite IH. reflexivity.
Qed.

Lemma list_entry_of_fields (item : pystr * dict) (e : list_entry) :
  list_entry_of item = Ok e ->
  le_uuid e = fst item
  /\ le_created_at e = py_get (str "created_at") (JStr []) (snd item).
Proof.
  destruct item as [uuid conv]. intros H.
  apply list_entry_of_reports in H as [Hu [_ [_ Hc]]]. auto.
Qed.

(** X4.  The list API returns exactly one record for each stored
    conversation: the identifiers of its records are those of the store,
    rearranged, and, the index being well built, none occurs twice. *)
Theorem list_has_one_record_per_conversation (L : PyLib) (fs : filesystem)
  (w w' : world) (r : list list_entry) :
  store_consistent (conversations_cache w) ->
  get_conversation_list L fs w = (Ok r, w') ->
  Permutation (map le_uuid r) (map fst (conversations_cache w'))
  /\ List.length r = List.length (conversations_cache w')
  /\ NoDup (map le_uuid r).
Proof.
  intros Hstore H.
  assert (Hafter : store_consistent (conversations_cache w')).
  { pose proof (load_conversations_consistent L fs w Hstore) as Hinv.
    apply get_conversation_list_Ok in H as [convs [Hload _]].
    rewrite Hload in Hinv. exact Hinv. }
  apply get_conversation_list_Ok in H as [convs [_ [Hc H]]].
  rewrite Hc in *.
  apply conversation_list_entries in H as [entries [Hall [Hperm _]]].
  assert (Hids : map le_uuid entries = map fst convs).
  { clear - Hall. induction Hall as [|item e convs entries He _ IH];
      [reflexivity|].
    simpl. apply list_entry_of_fields in He as [-> _]. rewrite IH.
    reflexivity. }
  assert (Hp : Permutation (map le_uuid r) (map fst convs)).
  { rewrite <- Hids. apply Permutation_map, Hperm. }
  split; [exact Hp|]. split.
  - rewrite <- (length_map le_uuid), (Permutation_length Hp).
    apply length_map.
  - apply (Permutation_NoDup (Permutation_sym Hp)). apply Hafter.
Qed.

Lemma list_has_one_record_per_conversation_witness :
  exists r w',
    get_conversation_list ref_lib duplicate_files initial_world = (Ok r, w')
    /\ map le_uuid r = [str "u"]
    /\ NoDup (map le_uuid r).
Proof.
  destruct (get_conversation_list ref_lib duplicate_files initial_world)
    as [[r|e] w'] eqn:H; [|vm_compute in H; discriminate].
  exists r, w'. split; [reflexivity|].
  split; [vm_compute in H; injection H as <- _; reflexivity|].
  apply (list_has_one_record_per_conversation ref_lib duplicate_files
           initial_world w' r initial_store_consistent H).
Defined.

(** X5.  The list API breaks ties by the order of the store: the
    conversations with one and the same [created_at] are listed in the
    order in which the store holds them. *)
Theorem list_order_is_stable (L : PyLib) (fs : filesystem) (w w' : world)
  (r : list list_entry) (k : pystr) :
  get_conversation_list L fs w = (Ok r, w') ->
  map le_uuid (filter (fun e => eq_str (le_created_at e) k) r)
  = map fst
      (filter (fun item =>
                 eq_str (py_get (str "created_at") (JStr []) (snd item)) k)
         (conversations_cache w')).
Proof.
  intros H. apply get_conversation_list_Ok in H as [convs [_ [-> H]]].
  unfold conversation_list in H.
  destruct (map_result list_entry_of convs) as [entries|e] eqn:Hentries;
    [|discriminate].
  simpl in H. apply py_sort_desc_Ok in H as [-> Hstr].
  apply map_result_Ok in Hentries.
  assert (Hkey : forall e, In e entries ->
            eq_str (le_created_at e) k
            = str_eqb (str_of (le_created_at e)) k).
  { rewrite forallb_forall in Hstr. intros e He.
    specialize (Hstr _ (in_map le_created_at _ _ He)).
    destruct (le_created_at e); try discriminate. reflexivity. }
  rewrite (filter_ext_in _ (fun e => str_eqb (str_of (le_created_at e)) k)).
  2:{ intros e He. apply Hkey.
      apply (Permutation_in _ (sort_desc_perm _ entries) He). }
  rewrite sort_desc_stable.
  rewrite <- (filter_ext_in _ _ _ Hkey).
  symmetry. apply (Forall2_filter_map _ _ _ _ _ _ _ Hentries).
  intros item e He. apply list_entry_of_fields in He as [-> ->]. auto.
Qed.

Lemma list_order_is_stable_witness :
  exists r w',
    get_conversation_list ref_lib tied_files initial_world = (Ok r, w')
    /\ map le_uuid r = [str "y"; str "x"; str "z"]
    /\ map le_uuid
         (filter (fun e => eq_str (le_created_at e) (str "2024")) r)
       = [str "x"; str "z"].
Proof.
  destruct (get_conversation_list ref_lib tied_files initial_world)
    as [[r|e] w'] eqn:H; [|vm_compute in H; discriminate].
  exists r, w'. split; [reflexivity|].
  split; [vm_compute in H; injection H as <- _; reflexivity|].
  rewrite (list_order_is_stable ref_lib tied_files initial_world w' r
             (str "2024") H).
  vm_compute in H. injection H as _ <-. reflexivity.
Defined.

(** ** The search API *)

Lemma scan_messages_shape (L : PyLib) (ql uuid : pystr) (conv : dict)
  (msgs : list json) (hs : list hit) :
  scan_messages L ql uuid conv msgs = Ok hs ->
  hs = [] \/ hs = [hit_of uuid conv "message"].
Proof.
  induction msgs as [|m msgs IH]; simpl.
  - intros H; injection H as <-. auto.
  - destruct m as [| | | | | |d]; try discriminate.
    destruct (py_lower L (py_get (str "text") (JStr []) d)) as [text|e];
      [|discriminate].
    simpl. destruct (py_in ql text); [|exact IH].
    intros H; injection H as <-. auto.
Qed.

(** What one conversation adds to the matches. *)
Lemma search_one_shape (L : PyLib) (ql uuid : pystr) (conv : dict)
  (hs : list hit) :
  search_one L ql (uuid, conv) = Ok hs ->
  (hs = [] /\ title_hits L ql conv = false)
  \/ (hs = [hit_of uuid conv "title/summary"]
      /\ title_hits L ql conv = true)
  \/ (hs = [hit_of uuid conv "message"] /\ title_hits L ql conv = false).
Proof.
  unfold search_one, title_hits, py_lower.
  destruct (py_get (str "name") (JStr []) conv) as [| | | |name| |];
    try discriminate.
  destruct (py_get (str "summary") (JStr []) conv) as [| | | |summary| |];
    try discriminate.
  simpl. destruct (py_in ql (lower L name) || py_in ql (lower L summary)).
  - intros H; injection H as <-. auto.
  - destruct (py_iter _) as [msgs|e]; [|discriminate]. simpl.
    intros H. apply scan_messages_shape in H as [-> | ->]; auto.
Qed.

Lemma search_matches_shape (L : PyLib) (ql : pystr) (convs : store)
  (matches : list hit) :
  search_matches L ql convs = Ok matches ->
  List.length matches <= List.length convs
  /\ incl (map h_uuid matches) (map fst convs)
  /\ (NoDup (map fst convs) -> NoDup (map h_uuid matches))
  /\ forall h, In h matches ->
       exists conv,
         In (h_uuid h, conv) convs
         /\ ((h = hit_of (h_uuid h) conv "title/summary"
              /\ title_hits L ql conv = true)
             \/ (h = hit_of (h_uuid h) conv "message"
                 /\ title_hits L ql conv = false)).
Proof.
  unfold search_matches. revert matches.
  induction convs as [|[uuid conv] convs IH]; intros matches H.
  - simpl in H. injection H as <-. simpl.
    split; [lia|]. split; [intros x Hx; exact Hx|].
    split; [intros _; constructor|]. intros h Hh. destruct Hh.
  - cbn [map_result] in H.
    destruct (search_one L ql (uuid, conv)) as [hs|e] eqn:Hone;
      [|discriminate]. cbn [rbind] in H.
    destruct (map_result (search_one L ql) convs) as [found|e];
      [|discriminate]. cbn [rbind] in H. injection H as <-.
    destruct (IH _ eq_refl) as [Hlen [Hincl [Hnd Hall]]].
    assert (Hhs : hs = []
                  \/ exists mt, hs = [hit_of uuid conv mt]
                       /\ ((mt = "title/summary"%string
                            /\ title_hits L ql conv = true)
                           \/ (mt = "message"%string
                               /\ title_hits L ql conv = false))).
    { apply search_one_shape in Hone as [[-> _]|[[-> Ht]|[-> Ht]]];
        [left; reflexivity|right|right]; eexists; split; eauto. }
    destruct Hhs as [->|[mt [-> Hmt]]]; simpl.
    + split; [lia|]. split; [intros x Hx; right; apply Hincl, Hx|].
      split; [intros Hd; inversion Hd; auto|].
      intros h Hh. destruct (Hall h Hh) as [c [Hin Hc]].
      exists c. split; [right; exact Hin|exact Hc].
    + split; [lia|].
      split; [intros x [<-|Hx]; [left; reflexivity|right; apply Hincl, Hx]|].
      split.
      * intros Hd. inversion Hd as [|? ? Hnotin Hd']; subst.
        constructor; [|apply Hnd, Hd'].
        intros Hin. apply Hnotin, Hincl, Hin.
      * intros h [<-|Hh].
        -- exists conv. split; [left; reflexivity|].
           destruct Hmt as [[-> Ht]|[-> Ht]]; [left|right]; auto.
        -- destruct (Hall h Hh) as [c [Hin Hc]].
           exists c. split; [right; exact Hin|exact Hc].
Qed.

Lemma NoDup_firstn {A} (n : nat) (l : list A) :
  NoDup l -> NoDup (firstn n l).
Proof.
  intros H. revert n; induction H as [|x l Hx _ IH]; intros [|n]; simpl;
    try constructor.
  - intros Hin. apply Hx, (firstn_incl n), Hin.
  - apply IH.
Qed.

(** X6.  The search API reports a conversation at most once, however
    many of its messages match: no identifier occurs twice in the result,
    which is never longer than the store.  Every record of the result
    stems from a stored conversation and carries its stored fields; it is
    tagged ["title/summary"] when the name or the summary of that
    conversation contains the lowercased query, and ["message"]
    otherwise. *)
Theorem search_reports_each_conversation_once (L : PyLib) (q : pystr)
  (convs : store) (r : list hit) :
  NoDup (map fst convs) ->
  search_results L q convs = Ok r ->
  NoDup (map h_uuid r)
  /\ List.length r <= List.length convs
  /\ forall h, In h r ->
       exists conv,
         In (h_uuid h, conv) convs
         /\ ((h = hit_of (h_uuid h) conv "title/summary"
              /\ title_hits L (lower L q) conv = true)
             \/ (h = hit_of (h_uuid h) conv "message"
                 /\ title_hits L (lower L q) conv = false)).
Proof.
  intros Hkeys H.
  apply search_results_Ok in H as [matches [sorted [Hm [Hperm [_ ->]]]]].
  apply search_matches_shape in Hm as [Hlen [_ [Hnd Hall]]].
  split; [|split].
  - rewrite <- firstn_map. apply NoDup_firstn.
    apply (Permutation_NoDup (Permutation_map h_uuid (Permutation_sym Hperm))).
    apply Hnd, Hkeys.
  - rewrite length_firstn, (Permutation_length Hperm). lia.
  - intros h Hh. apply Hall.
    apply (Permutation_in _ Hperm), (firstn_incl 100), Hh.
Qed.

Lemma search_reports_each_conversation_once_witness :
  exists convs r w',
    load_conversations ref_lib tied_files initial_world = (Ok convs, w')
    /\ search_results ref_lib (str "Tea") convs = Ok r
    /\ map (fun h => (h_uuid h, h_match_type h)) r
       = [(str "y", str "title/summary"); (str "x", str "title/summary");
          (str "z", str "message")]
    /\ NoDup (map h_uuid r).
Proof.
  destruct (load_conversations ref_lib tied_files initial_world)
    as [[convs|e] w'] eqn:Hload; [|vm_compute in Hload; discriminate].
  destruct (search_results ref_lib (str "Tea") convs) as [r|e] eqn:Hr.
  2:{ vm_compute in Hload. injection Hload as <- _.
      vm_compute in Hr. discriminate. }
  exists convs, r, w'. split; [reflexivity|]. split; [exact Hr|].
  split.
  { pose proof Hload as Hc. pose proof Hr as Hv.
    vm_compute in Hc. injection Hc as Hc _. rewrite <- Hc in Hv.
    vm_compute in Hv. injection Hv as <-. reflexivity. }
  assert (Hkeys : NoDup (map fst convs)).
  { pose proof (load_conversations_consistent ref_lib tied_files
                  initial_world initial_store_consistent) as Hinv.
    rewrite Hload in Hinv. simpl in Hinv.
    destruct (load_conversations_again _ _ _ _ _ Hload) as [Hc _].
    rewrite Hc in Hinv. apply Hinv. }
  apply (search_reports_each_conversation_once ref_lib (str "Tea") convs r
           Hkeys Hr).
Defined.

Lemma search_matches_none (L : PyLib) (ql : pystr) (convs : store) :
  forallb (fun item => conv_misses L ql (snd item)) convs = true ->
  search_matches L ql convs = Ok [].
Proof.
  unfold search_matches. intros H.
  assert (Hfound : map_result (search_one L ql) convs
                   = Ok (map (fun _ => []) convs)).
  { induction convs as [|[uuid conv] convs IH]; [reflexivity|].
    cbn [forallb] in H. apply andb_true_iff in H as [Hconv H].
    cbn [map_result map]. rewrite (IH H). cbn [snd] in Hconv.
    unfold conv_misses in Hconv. unfold search_one, py_lower.
    destruct (py_get (str "name") (JStr []) conv) as [| | | |name| |];
      try discriminate.
    destruct (py_get (str "summary") (JStr []) conv) as [| | | |summary| |];
      try discriminate.
    destruct (py_get (str "chat_messages") (JArr []) conv) as [| | | | |msgs|];
      try discriminate.
    apply andb_true_iff in Hconv as [Hconv Hmsgs].
    apply andb_true_iff in Hconv as [Hn Hs].
    apply negb_true_iff in Hn, Hs. cbn [rbind]. rewrite Hn, Hs.
    cbn [orb py_iter rbind].
    rewrite (scan_messages_no_hit L ql uuid conv msgs Hmsgs). reflexivity. }
  rewrite Hfound. cbn [rbind]. f_equal.
  clear. induction convs as [|x convs IH]; [reflexivity|exact IH].
Qed.

(** X7.  When the store is loaded and the query occurs in no name, no
    summary and no message text of any conversation, the search API
    answers with the empty list, and leaves the process state as it
    was. *)
Theorem search_without_match_is_empty (L : PyLib) (fs : filesystem)
  (q : pystr) (w : world) :
  conversations_cache w <> [] ->
  forallb (fun item => conv_misses L (lower L q) (snd item))
    (conversations_cache w) = true ->
  serve_search L fs q w = (Ok [], w).
Proof.
  intros Hne Hmiss. unfold serve_search.
  destruct q as [|c q]; [reflexivity|].
  unfold bind, lift. rewrite load_conversations_hit by exact Hne.
  unfold search_results. rewrite (search_matches_none _ _ _ Hmiss).
  reflexivity.
Qed.

Lemma search_without_match_is_empty_witness :
  exists w,
    snd (load_conversations ref_lib sample_files initial_world) = w
    /\ serve_search ref_lib sample_files (str "xyz123nomatch") w = (Ok [], w).
Proof.
  eexists. split; [reflexivity|].
  apply search_without_match_is_empty.
  - vm_compute. discriminate.
  - vm_compute. reflexivity.
Defined.

(** ** The index after an error, and its order *)

Lemma for_each_app {A} (l1 l2 : list A) (body : A -> M unit) (w : world) :
  for_each (l1 ++ l2) body w
  = match for_each l1 body w with
    | (Ok _, w1) => for_each l2 body w1
    | (Raise e, w1) => (Raise e, w1)
    end.
Proof.
  revert w; induction l1 as [|x l1 IH]; intros w; [reflexivity|].
  simpl. unfold bind. destruct (body x w) as [[[]|e] w1]; [apply IH|].
  reflexivity.
Qed.

(** X8.  When the record that follows the indexable records [pre] makes
    the index loop raise a [TypeError], [load_conversations] raises it;
    the cache however keeps the conversations of [pre], and the files
    count as read.  If [pre] held a conversation, every later call
    returns those conversations as the store, without raising and
    without reading the files again: the records after the failing one
    are never indexed. *)
Theorem index_error_leaves_partial_store (L : PyLib) (fs : filesystem)
  (w : world) (pre post : list json) (bad : json) :
  conversations_cache w = [] ->
  server_load L fs = pre ++ bad :: post ->
  forallb indexable pre = true ->
  (forall w0, index_one bad w0 = (Raise TypeError, w0)) ->
  let w1 := {| conversations_cache := fold_left index_add pre [];
               opened := opened w ++ existing fs |} in
  load_conversations L fs w = (Raise TypeError, w1)
  /\ (fold_left index_add pre [] <> [] ->
      load_conversations L fs w1 = (Ok (fold_left index_add pre []), w1)).
Proof.
  intros Hempty Hrecs Hpre Hbad w1. split.
  - rewrite (load_conversations_miss _ _ _ Hempty), Hrecs, for_each_app.
    rewrite (for_each_indexable _ _ Hpre). simpl.
    unfold bind. rewrite Hbad. reflexivity.
  - intros Hne. apply load_conversations_hit. exact Hne.
Qed.

Lemma index_error_leaves_partial_store_witness :
  exists w1,
    load_conversations ref_lib broken_files initial_world
    = (Raise TypeError, w1)
    /\ map fst (conversations_cache w1) = [str "a"]
    /\ load_conversations ref_lib broken_files w1
       = (Ok (conversations_cache w1), w1).
Proof.
  destruct (index_error_leaves_partial_store ref_lib broken_files
              initial_world [JObj record_a] [JObj [(str "uuid", JStr (str "b"))]]
              (JInt 7) eq_refl) as [Hfirst Hnext].
  - vm_compute. reflexivity.
  - reflexivity.
  - intros w0. reflexivity.
  - eexists. split; [exact Hfirst|]. split; [reflexivity|].
    apply Hnext. discriminate.
Defined.

Lemma first_seen_ext (s1 s2 l : list pystr) :
  (forall x, existsb (str_eqb x) s1 = existsb (str_eqb x) s2) ->
  first_seen s1 l = first_seen s2 l.
Proof.
  revert s1 s2; induction l as [|x l IH]; intros s1 s2 H; [reflexivity|].
  simpl. rewrite (H x). destruct (existsb (str_eqb x) s2).
  - apply IH, H.
  - f_equal. apply IH. intros y. simpl. rewrite H. reflexivity.
Qed.

Lemma index_fold_keys (recs : list json) (c : store) :
  map fst (fold_left index_add recs c)
  = map fst c ++ first_seen (map fst c) (uuids recs).
Proof.
  revert c; induction recs as [|r recs IH]; intros c.
  - simpl. rewrite app_nil_r. reflexivity.
  - cbn [fold_left]. rewrite IH. unfold uuids. cbn [flat_map].
    fold (uuids recs). unfold index_add.
    destruct r as [| | | | | |d]; try reflexivity.
    destruct (record_uuid (JObj d)) as [u|]; [|reflexivity].
    rewrite dict_set_keys. cbn [app first_seen].
    destruct (existsb (str_eqb u) (map fst c)) eqn:E; [reflexivity|].
    rewrite <- app_assoc. cbn [app]. do 2 f_equal.
    apply first_seen_ext. intros x.
    rewrite existsb_app. simpl. rewrite orb_false_r. apply orb_comm.
Qed.

(** X9.  The store holds the identifiers in the order in which they
    first occur in the loaded records (while the conversation kept for
    an identifier is the last one loaded): this is the order in which
    the APIs walk the store. *)
Theorem store_keys_in_order_of_first_occurrence (L : PyLib)
  (fs : filesystem) (w w' : world) (st : store) :
  conversations_cache w = [] ->
  forallb indexable (server_load L fs) = true ->
  load_conversations L fs w = (Ok st, w') ->
  map fst st = first_seen [] (uuids (server_load L fs)).
Proof.
  intros Hempty Hrecs H.
  rewrite (load_conversations_miss _ _ _ Hempty) in H.
  rewrite (for_each_indexable _ _ Hrecs) in H. simpl in H.
  injection H as <- _. apply index_fold_keys.
Qed.

Lemma store_keys_in_order_of_first_occurrence_witness :
  exists st w',
    load_conversations ref_lib updated_files initial_world = (Ok st, w')
    /\ uuids (server_load ref_lib updated_files)
       = [str "u"; str "v"; str "u"]
    /\ map fst st = [str "u"; str "v"]
    /\ dict_get (str "u") st
       = Some [(str "uuid", JStr (str "u")); (str "name", JStr (str "new"))].
Proof.
  destruct (load_conversations ref_lib updated_files initial_world)
    as [[st|e] w'] eqn:H; [|vm_compute in H; discriminate].
  exists st, w'. split; [reflexivity|].
  split; [vm_compute; reflexivity|].
  split.
  - rewrite (store_keys_in_order_of_first_occurrence ref_lib updated_files
               initial_world w' st eq_refl);
      [vm_compute; reflexivity|vm_compute; reflexivity|exact H].
  - vm_compute in H. injection H as <- _. reflexivity.
Defined.

(** ** The partitioner: what is written *)

Lemma str_inj (a b : string) : str a = str b -> a = b.
Proof.
  unfold str. revert b; induction a as [|x a IH]; intros [|y b]; simpl;
    try discriminate; [reflexivity|].
  intros H. injection H as Hxy H. f_equal; [|apply IH, H].
  rewrite <- (ascii_N_embedding x), <- (ascii_N_embedding y), Hxy.
  reflexivity.
Qed.

Lemma str_app (a b : string) : str (a ++ b) = str a ++ str b.
Proof.
  unfold str. induction a as [|x a IH]; simpl; [reflexivity|].
  f_equal. exact IH.
Qed.

Lemma string_of_uint_inj (d d' : Decimal.uint) :
  NilEmpty.string_of_uint d = NilEmpty.string_of_uint d' -> d = d'.
Proof.
  intros H. apply (f_equal NilEmpty.uint_of_string) in H.
  rewrite !NilEmpty.usu in H. congruence.
Qed.

Lemma to_uint_not_nil (n : nat) : Nat.to_uint n <> Decimal.Nil.
Proof.
  intros H.
  assert (Hn : n = 0) by (rewrite <- (Unsigned.of_to n), H; reflexivity).
  subst n. discriminate H.
Qed.

Lemma decimal_alt (n : nat) :
  decimal n = str (NilEmpty.string_of_uint (Nat.to_uint n)).
Proof.
  unfold decimal, NilZero.string_of_uint.
  pose proof (to_uint_not_nil n) as H.
  destruct (Nat.to_uint n); [congruence|reflexivity..].
Qed.

Lemma decimal_inj (n m : nat) : decimal n = decimal m -> n = m.
Proof.
  rewrite !decimal_alt. intros H.
  apply str_inj, string_of_uint_inj, Unsigned.to_uint_inj in H. exact H.
Qed.

Lemma zero_decimal_inj (n m : nat) :
  str "0" ++ decimal n = decimal m -> n = m.
Proof.
  rewrite !decimal_alt, <- str_app. intros H.
  change ("0" ++ NilEmpty.string_of_uint (Nat.to_uint n))%string
    with (NilEmpty.string_of_uint (Decimal.D0 (Nat.to_uint n))) in H.
  apply str_inj, string_of_uint_inj in H.
  apply (f_equal Nat.of_uint) in H. rewrite Unsigned.of_to in H.
  rewrite <- H. change (Nat.of_uint (Decimal.D0 (Nat.to_uint n)))
    with (Nat.of_uint (Nat.to_uint n)).
  symmetry. apply Unsigned.of_to.
Qed.

Lemma two_digits_inj (n m : nat) : two_digits n = two_digits m -> n = m.
Proof.
  unfold two_digits.
  destruct (List.length (decimal n) <? 2), (List.length (decimal m) <? 2);
    intros H.
  - apply app_inv_head in H. apply decimal_inj, H.
  - apply zero_decimal_inj, H.
  - symmetry. apply zero_decimal_inj. symmetry. exact H.
  - apply decimal_inj, H.
Qed.

Lemma chunk_filename_inj (i j : nat) :
  chunk_filename i = chunk_filename j -> i = j.
Proof.
  unfold chunk_filename. intros H.
  apply app_inv_head, app_inv_tail, two_digits_inj in H. lia.
Qed.

Lemma combine_seq_snd {A} (l : list A) (k : nat) :
  map snd (combine (seq k (List.length l)) l) = l.
Proof.
  revert k; induction l as [|x l IH]; intros k; simpl; [reflexivity|].
  rewrite IH. reflexivity.
Qed.

Lemma combine_seq_fst {A} (l : list A) (k : nat) :
  map fst (combine (seq k (List.length l)) l) = seq k (List.length l).
Proof.
  revert k; induction l as [|x l IH]; intros k; simpl; [reflexivity|].
  rewrite IH. reflexivity.
Qed.

Lemma dict_set_fresh {V} (k : pystr) (v : V) (d : list (pystr * V)) :
  ~ In k (map fst d) -> dict_set k v d = d ++ [(k, v)].
Proof.
  induction d as [|[k' v'] d IH]; simpl; [reflexivity|].
  intros H. destruct (str_eqb k k') eqn:E.
  - apply str_eqb_eq in E. subst k'. exfalso. apply H. left; reflexivity.
  - rewrite IH; [reflexivity|]. intros Hin. apply H. right; exact Hin.
Qed.

Lemma fold_dict_set_fresh {A V} (key : A -> pystr) (val : A -> V)
  (xs : list A) (dir : list (pystr * V)) :
  NoDup (map key xs) ->
  (forall x, In x xs -> ~ In (key x) (map fst dir)) ->
  fold_left (fun d x => dict_set (key x) (val x) d) xs dir
  = dir ++ map (fun x => (key x, val x)) xs.
Proof.
  revert dir; induction xs as [|x xs IH]; intros dir Hnd Hfresh.
  - simpl. rewrite app_nil_r. reflexivity.
  - cbn [fold_left map]. inversion Hnd as [|? ? Hx Hnd']; subst.
    rewrite dict_set_fresh by (apply Hfresh; left; reflexivity).
    rewrite IH; [rewrite <- app_assoc; reflexivity|exact Hnd'|].
    intros y Hy Hin. rewrite map_app in Hin. apply in_app_or in Hin.
    destruct Hin as [Hin|[Heq|[]]].
    + apply (Hfresh y); [right; exact Hy|exact Hin].
    + apply Hx. simpl in Heq. rewrite Heq. apply in_map, Hy.
Qed.

Lemma chunk_filenames_NoDup {A} (cs : list A) :
  NoDup (map (fun ic : nat * A => chunk_filename (fst ic)) (enumerate cs)).
Proof.
  unfold enumerate.
  rewrite <- (map_map fst chunk_filename), combine_seq_fst.
  generalize (seq_NoDup (List.length cs) 0).
  generalize (seq 0 (List.length cs)) as l.
  induction l as [|i l IH]; intros Hnd; [constructor|].
  inversion Hnd as [|? ? Hi Hnd']; subst. simpl. constructor.
  - intros Hin. apply in_map_iff in Hin as [j [Heq Hj]].
    apply chunk_filename_inj in Heq. subst j. contradiction.
  - apply IH, Hnd'.
Qed.

(** Each chunk is written to a file of its own. *)
Lemma write_chunks_files (cs : list (list json)) :
  write_chunks cs
  = map (fun ic => (chunk_filename (fst ic), snd ic)) (enumerate cs).
Proof.
  unfold write_chunks.
  rewrite (fold_dict_set_fresh (fun ic => chunk_filename (fst ic)) snd).
  - reflexivity.
  - apply chunk_filenames_NoDup.
  - intros x _ [].
Qed.

Lemma split_and_write_Ok (L : PyLib) (fs : filesystem) (out : split_output) :
  split_and_write L fs = Ok out ->
  exists cs,
    split_conversations L fs = Ok cs
    /\ List.length (concat cs) = List.length (split_load L fs)
    /\ out = {| chunk_files := write_chunks cs;
                split_manifest :=
                  manifest_of (List.length (split_load L fs)) cs |}.
Proof.
  unfold split_and_write, split_conversations. intros H.
  destruct (py_sort_desc created_at_key (split_load L fs)) as [sorted|e]
    eqn:Hsort; [|discriminate].
  cbn [rbind] in H |- *. injection H as <-.
  apply py_sort_desc_spec in Hsort as [Hperm _].
  exists (partition_chunks L sorted). split; [reflexivity|].
  unfold partition_chunks.
  rewrite pack_chunks_from, chunks_from_concat. cbn [app].
  rewrite (Permutation_length Hperm). auto.
Qed.

(** X10.  The manifest accounts for every loaded record: its total is the
    number of records the partitioner loaded, duplicates included; the
    counts of its chunks add up to that total; and no chunk is listed
    with a count of zero. *)
Theorem manifest_accounts_for_every_record (L : PyLib) (fs : filesystem)
  (out : split_output) :
  split_and_write L fs = Ok out ->
  total_conversations (split_manifest out) = List.length (split_load L fs)
  /\ list_sum (map ce_count (manifest_chunks (split_manifest out)))
     = total_conversations (split_manifest out)
  /\ Forall (fun entry => 1 <= ce_count entry)
       (manifest_chunks (split_manifest out)).
Proof.
  intros H. apply split_and_write_Ok in H as [cs [Hcs [Hlen ->]]].
  cbn [split_manifest manifest_of total_conversations manifest_chunks].
  split; [reflexivity|]. split.
  - rewrite map_map. cbn [ce_count].
    rewrite <- (map_map snd (@List.length json)).
    unfold enumerate. rewrite combine_seq_snd, <- length_concat. exact Hlen.
  - apply Forall_map, Forall_forall. intros [i c] Hin. cbn [ce_count snd].
    apply in_combine_r in Hin.
    apply split_conversations_Ok in Hcs as [sorted [_ [_ [_ [_ ->]]]]].
    rewrite pack_chunks_from in Hin.
    pose proof (chunks_from_nonempty (conv_size L) MAX_CHUNK_SIZE sorted [])
      as Hne.
    rewrite Forall_forall in Hne. specialize (Hne c Hin).
    destruct c; [congruence|simpl; lia].
Qed.

Lemma manifest_accounts_for_every_record_witness :
  exists out,
    split_and_write ref_lib duplicate_files = Ok out
    /\ total_conversations (split_manifest out) = 3
    /\ map ce_count (manifest_chunks (split_manifest out)) = [3]
    /\ List.length (split_load ref_lib duplicate_files) = 3.
Proof.
  destruct (split_and_write ref_lib duplicate_files) as [out|e] eqn:H;
    [|vm_compute in H; discriminate].
  destruct (manifest_accounts_for_every_record ref_lib duplicate_files out H)
    as [Htotal _].
  exists out. split; [reflexivity|].
  assert (Hlen : List.length (split_load ref_lib duplicate_files) = 3)
    by (vm_compute; reflexivity).
  split; [rewrite Htotal; exact Hlen|].
  split; [vm_compute in H; injection H as <-; reflexivity|exact Hlen].
Defined.

(** X11.  Every chunk is written to a file of its own: the names of the
    chunk files differ from one another, so none replaces another; read
    in the order of the manifest, the files hold the chunks of
    [split_conversations], and each manifest entry gives the name of its
    file and the number of conversations in it. *)
Theorem chunk_files_match_manifest (L : PyLib) (fs : filesystem)
  (out : split_output) :
  split_and_write L fs = Ok out ->
  NoDup (map fst (chunk_files out))
  /\ split_conversations L fs = Ok (map snd (chunk_files out))
  /\ map (fun entry => (ce_file entry, ce_count entry))
       (manifest_chunks (split_manifest out))
     = map (fun file => (fst file, List.length (snd file))) (chunk_files out).
Proof.
  intros H. apply split_and_write_Ok in H as [cs [Hcs [_ ->]]].
  cbn [chunk_files split_manifest manifest_of manifest_chunks].
  rewrite write_chunks_files. split; [|split].
  - rewrite map_map. cbn [fst]. apply chunk_filenames_NoDup.
  - rewrite map_map. cbn [snd]. unfold enumerate.
    rewrite combine_seq_snd. exact Hcs.
  - rewrite !map_map. reflexivity.
Qed.

Lemma chunk_files_match_manifest_witness :
  exists out,
    split_and_write ref_lib duplicate_files = Ok out
    /\ map fst (chunk_files out) = [str "conversations_01.json"]
    /\ NoDup (map fst (chunk_files out))
    /\ chunk_filename 9 = str "conversations_10.json"
    /\ chunk_filename 99 = str "conversations_100.json".
Proof.
  destruct (split_and_write ref_lib duplicate_files) as [out|e] eqn:H;
    [|vm_compute in H; discriminate].
  destruct (chunk_files_match_manifest ref_lib duplicate_files out H)
    as [Hnd _].
  exists out. split; [reflexivity|].
  split; [vm_compute in H; injection H as <-; reflexivity|].
  split; [exact Hnd|]. split; vm_compute; reflexivity.
Defined.

(** ** The partitioner: sizes, order and failure *)

Lemma total_le_app {A} (size : A -> N) (c1 c2 : list A) :
  (total size c1 <= total size (c1 ++ c2))%N.
Proof. rewrite total_app. lia. Qed.

(** X12.  The chunks of the partitioner respect the threshold as far as
    the conversations allow: the measured sizes of the conversations of a
    chunk add up to at most [MAX_CHUNK_SIZE], unless the chunk holds a
    single conversation that is larger than that by itself.  And the
    packing wastes no file: the sizes of two chunks that follow each
    other add up to more than the threshold, so they could not have been
    one chunk. *)
Theorem chunks_fill_the_threshold (L : PyLib) (fs : filesystem)
  (cs : list (list json)) :
  split_conversations L fs = Ok cs ->
  (forall c, In c cs ->
     (total (conv_size L) c <= MAX_CHUNK_SIZE)%N
     \/ exists x, c = [x] /\ (MAX_CHUNK_SIZE < conv_size L x)%N)
  /\ (forall cs1 c c' cs2,
        cs = cs1 ++ c :: c' :: cs2 ->
        (MAX_CHUNK_SIZE < total (conv_size L) c + total (conv_size L) c')%N).
Proof.
  intros H. apply split_conversations_Ok in H as [sorted [_ [_ [_ [_ ->]]]]].
  rewrite pack_chunks_from. split.
  - intros c Hc. apply in_split in Hc as [cs1 [cs2 Hc]].
    destruct (exists_last (l := c)) as [p [x Hpx]].
    { pose proof (chunks_from_nonempty (conv_size L) MAX_CHUNK_SIZE
                    sorted []) as Hne.
      rewrite Hc in Hne. apply Forall_app in Hne as [_ Hne].
      inversion Hne; assumption. }
    subst c. destruct p as [|y p].
    + simpl. destruct (N.ltb_spec MAX_CHUNK_SIZE (conv_size L x)) as [Hbig|Hle].
      * right. exists x. auto.
      * left. lia.
    + left. rewrite total_app. simpl total at 2.
      assert (Hp : y :: p <> []) by discriminate.
      destruct (chunks_from_within _ _ _ _ _ _ _ _ _ Hc Hp)
        as [[_ Hlen]|Hle]; [simpl in Hlen; lia|lia].
  - intros cs1 c c' cs2 Hcs. destruct c' as [|x c'].
    + pose proof (chunks_from_nonempty (conv_size L) MAX_CHUNK_SIZE
                    sorted []) as Hne.
      rewrite Hcs in Hne. apply Forall_app in Hne as [_ Hne].
      inversion Hne as [|? ? _ Hne']; subst.
      inversion Hne'; congruence.
    + pose proof (chunks_from_boundary _ _ _ _ _ _ _ _ _ Hcs) as Hb.
      simpl total at 2. lia.
Qed.

Lemma chunks_fill_the_threshold_witness :
  exists cs,
    split_conversations ref_lib duplicate_files = Ok cs
    /\ List.length cs = 1
    /\ forall c, In c cs ->
         (total (conv_size ref_lib) c <= MAX_CHUNK_SIZE)%N
         \/ exists x, c = [x] /\ (MAX_CHUNK_SIZE < conv_size ref_lib x)%N.
Proof.
  destruct (split_conversations ref_lib duplicate_files) as [cs|e] eqn:H;
    [|vm_compute in H; discriminate].
  destruct (chunks_fill_the_threshold ref_lib duplicate_files cs H)
    as [Hbound _].
  exists cs. split; [reflexivity|].
  split; [vm_compute in H; injection H as <-; reflexivity|exact Hbound].
Defined.

(** X13.  Read one after the other, the chunks list the loaded
    conversations from the newest to the oldest: their [created_at]
    values, the empty string standing for a missing one, never increase,
    also from the end of a chunk to the start of the next. *)
Theorem chunks_run_from_newest_to_oldest (L : PyLib) (fs : filesystem)
  (cs : list (list json)) :
  split_conversations L fs = Ok cs ->
  exists keys,
    map_result created_at_key (concat cs) = Ok keys
    /\ descending keys
    /\ Permutation (concat cs) (split_load L fs).
Proof.
  intros H.
  apply split_conversations_Ok in H as [sorted [keys [Hperm [Hk [Hd ->]]]]].
  rewrite pack_chunks_from, chunks_from_concat. cbn [app].
  exists keys. auto.
Qed.

Lemma chunks_run_from_newest_to_oldest_witness :
  exists cs keys,
    split_conversations ref_lib duplicate_files = Ok cs
    /\ map_result created_at_key (concat cs) = Ok keys
    /\ keys = [JStr (str "2025"); JStr (str "2024"); JStr []]
    /\ descending keys.
Proof.
  destruct (split_conversations ref_lib duplicate_files) as [cs|e] eqn:H;
    [|vm_compute in H; discriminate].
  destruct (chunks_run_from_newest_to_oldest ref_lib duplicate_files cs H)
    as [keys [Hkeys [Hdesc _]]].
  exists cs, keys. split; [reflexivity|]. split; [exact Hkeys|].
  split; [|exact Hdesc].
  vm_compute in H. injection H as <-.
  vm_compute in Hkeys. injection Hkeys as <-. reflexivity.
Defined.

Lemma created_at_key_fails (l : list json) (r : json) :
  In r l -> (forall d, r <> JObj d) ->
  map_result created_at_key l = Raise AttributeError.
Proof.
  intros Hin Hr. induction l as [|x l IH]; [destruct Hin|].
  cbn [map_result]. destruct x as [| | | | | |d]; try reflexivity.
  cbn [created_at_key rbind]. destruct Hin as [Heq|Hin].
  - exfalso. apply (Hr d). symmetry. exact Heq.
  - rewrite (IH Hin). reflexivity.
Qed.

(** X14.  The partitioner needs every loaded record to be a dict: as soon
    as one of them is not (a number, a string, a list, null), the sort
    raises [AttributeError], and neither a chunk nor the manifest is
    written. *)
Theorem partitioner_fails_on_a_record_that_is_no_dict (L : PyLib)
  (fs : filesystem) (r : json) :
  In r (split_load L fs) ->
  (forall d, r <> JObj d) ->
  split_conversations L fs = Raise AttributeError
  /\ split_and_write L fs = Raise AttributeError.
Proof.
  intros Hin Hr. unfold split_conversations, split_and_write, py_sort_desc.
  rewrite (created_at_key_fails _ _ Hin Hr). split; reflexivity.
Qed.

Lemma partitioner_fails_on_a_record_that_is_no_dict_witness :
  split_load ref_lib broken_files
  = [JObj record_a; JInt 7; JObj [(str "uuid", JStr (str "b"))]]
  /\ split_conversations ref_lib broken_files = Raise AttributeError
  /\ split_and_write ref_lib broken_files = Raise AttributeError.
Proof.
  split; [vm_compute; reflexivity|].
  apply (partitioner_fails_on_a_record_that_is_no_dict ref_lib broken_files
           (JInt 7)).
  - vm_compute. right; left; reflexivity.
  - intros d. discriminate.
Defined.

(** ** Flattening: what is kept, what is passed over, when it answers *)

(** The loop over the items of a content list, with its result. *)
Lemma flatten_cons (item : json) (items : list json) :
  (do parts <- map_result block_parts (item :: items); Ok (concat parts))
  = (do p <- block_parts item;
     do rest <- (do parts <- map_result block_parts items;
                 Ok (concat parts));
     Ok (p ++ rest)).
Proof.
  cbn [map_result]. destruct (block_parts item) as [p|e]; [|reflexivity].
  cbn [rbind]. destruct (map_result block_parts items) as [parts|e];
    reflexivity.
Qed.

Lemma block_parts_not_rendered (item : json) :
  rendered item = false -> block_parts item = Ok [].
Proof.
  unfold rendered, block_parts.
  destruct item as [| | | | | |d]; try reflexivity; [discriminate|].
  destruct (eq_str (py_get (str "type") JNull d) (str "text"));
    [discriminate|].
  destruct (eq_str (py_get (str "type") JNull d) (str "tool_use"));
    [discriminate|].
  destruct (eq_str (py_get (str "type") JNull d) (str "tool_result"));
    [discriminate|reflexivity].
Qed.

Lemma flatten_filter_rendered (items : list json) :
  (do parts <- map_result block_parts (filter rendered items);
   Ok (concat parts))
  = (do parts <- map_result block_parts items; Ok (concat parts)).
Proof.
  induction items as [|item items IH]; [reflexivity|].
  cbn [filter]. destruct (rendered item) eqn:E.
  - rewrite !flatten_cons, IH. reflexivity.
  - rewrite flatten_cons, (block_parts_not_rendered _ E), IH.
    cbn [rbind]. destruct (map_result block_parts items) as [parts|e];
      reflexivity.
Qed.

(** The part of [format_message_content] that reads a content list. *)
Lemma content_list_parts (items : list json) :
  (do b <- truthy (JArr items);
   if b then
     do its <- py_iter (JArr items);
     do parts <- map_result block_parts its;
     Ok (concat parts)
   else Ok [])
  = (do parts <- map_result block_parts items; Ok (concat parts)).
Proof. destruct items; reflexivity. Qed.

(** X15.  The flattening passes over every item of a content list that is
    neither a string nor a block of type [text], [tool_use] or
    [tool_result]: taking those items out of the list changes neither
    the flattened text nor the exception, if there is one. *)
Theorem flattening_passes_over_other_items (msg msg' : dict)
  (items : list json) :
  dict_get (str "text") msg' = dict_get (str "text") msg ->
  dict_get (str "content") msg = Some (JArr items) ->
  dict_get (str "content") msg' = Some (JArr (filter rendered items)) ->
  format_message_content msg' = format_message_content msg.
Proof.
  intros Htext Hcontent Hcontent'. unfold format_message_content.
  rewrite Htext, Hcontent, Hcontent', !content_list_parts.
  rewrite flatten_filter_rendered. reflexivity.
Qed.

Lemma flattening_passes_over_other_items_witness :
  exists m,
    dict_get (str "chat_messages") blocks_conv = Some (JArr [JObj m])
    /\ format_message_content m
       = format_message_content
           [(str "text", JStr (str "see"));
            (str "content",
             JArr [JObj [(str "type", JStr (str "text"));
                         (str "text", JStr (str "hi"))];
                   JStr (str "raw")])]
    /\ format_message_content m
       = Ok (str "see" ++ nl ++ str "hi" ++ nl ++ str "raw").
Proof.
  eexists. split; [reflexivity|]. split; [|reflexivity].
  symmetry. eapply flattening_passes_over_other_items; reflexivity.
Defined.

Lemma flatten_held_texts (items : list json) (texts : list pystr) :
  Forall2 holds_text items texts ->
  (do parts <- map_result block_parts items; Ok (concat parts))
  = Ok (map JStr texts).
Proof.
  induction 1 as [|item s items texts Hs _ IH]; [reflexivity|].
  rewrite flatten_cons, IH.
  destruct Hs as [->|[d [-> [Htype Hs]]]]; [reflexivity|].
  unfold block_parts. rewrite Htype, Hs. reflexivity.
Qed.

(** X16.  A message whose content is a list of text blocks and plain
    strings flattens to their texts, in the order of the list, joined by
    line feeds; a [text] field that is a non-empty string comes first,
    joined in the same way. *)
Theorem flattening_joins_texts (msg : dict) (items : list json)
  (texts : list pystr) :
  dict_get (str "content") msg = Some (JArr items) ->
  Forall2 holds_text items texts ->
  (dict_get (str "text") msg = None ->
   format_message_content msg = Ok (join nl texts))
  /\ (forall t, dict_get (str "text") msg = Some (JStr t) ->
      format_message_content msg
      = Ok (join nl ((if nonempty t then [t] else []) ++ texts))).
Proof.
  intros Hcontent Hitems. unfold format_message_content.
  rewrite Hcontent, content_list_parts, (flatten_held_texts _ _ Hitems).
  split.
  - intros ->. cbn [rbind app]. apply py_join_strings.
  - intros t ->. destruct t as [|c t]; cbn [truthy rbind nonempty app].
    + apply py_join_strings.
    + apply (py_join_strings nl ((c :: t) :: texts)).
Qed.

Lemma flattening_joins_texts_witness :
  format_message_content
    [(str "text", JStr (str "see"));
     (str "content",
      JArr [JObj [(str "type", JStr (str "text"));
                  (str "text", JStr (str "hi"))];
            JStr (str "raw")])]
  = Ok (join nl [str "see"; str "hi"; str "raw"]).
Proof.
  destruct (flattening_joins_texts
              [(str "text", JStr (str "see"));
               (str "content",
                JArr [JObj [(str "type", JStr (str "text"));
                            (str "text", JStr (str "hi"))];
                      JStr (str "raw")])]
              _ [str "hi"; str "raw"] eq_refl) as [_ Htext].
  - constructor; [right; eexists; repeat split|].
    constructor; [left; reflexivity|constructor].
  - apply (Htext (str "see")). reflexivity.
Defined.

Lemma strings_of (l : list json) :
  forallb is_str l = true -> l = map JStr (map str_of l).
Proof.
  induction l as [|v l IH]; [reflexivity|].
  simpl. intros H. apply andb_true_iff in H as [Hv H].
  destruct v; try discriminate. simpl. f_equal. apply IH, H.
Qed.

Lemma py_format_total (v : json) :
  formattable v = true -> exists s, py_format v = Ok s.
Proof.
  destruct v as [|[|]| | | | |]; try discriminate; intros _;
    eexists; reflexivity.
Qed.

Lemma block_parts_total (item : json) :
  renderable_block item = true ->
  exists p, block_parts item = Ok p /\ forallb is_str p = true.
Proof.
  unfold renderable_block, block_parts.
  destruct item as [| | | |s| |d]; try (intros _; eexists; split; reflexivity).
  destruct (eq_str (py_get (str "type") JNull d) (str "text")).
  { intros H. eexists. split; [reflexivity|]. simpl. rewrite H. reflexivity. }
  destruct (eq_str (py_get (str "type") JNull d) (str "tool_use")).
  { intros H. apply py_format_total in H as [s ->].
    eexists. split; reflexivity. }
  destruct (eq_str (py_get (str "type") JNull d) (str "tool_result")).
  { intros H. apply py_format_total in H as [s ->].
    eexists. split; reflexivity. }
  intros _. eexists. split; reflexivity.
Qed.

Lemma flatten_total (items : list json) :
  forallb renderable_block items = true ->
  exists parts,
    (do ps <- map_result block_parts items; Ok (concat ps)) = Ok parts
    /\ forallb is_str parts = true.
Proof.
  induction items as [|item items IH]; intros H.
  - exists []. split; reflexivity.
  - cbn [forallb] in H. apply andb_true_iff in H as [Hitem H].
    destruct (IH H) as [rest [Hrest Hstr]].
    destruct (block_parts_total _ Hitem) as [p [Hp Hpstr]].
    rewrite flatten_cons, Hp, Hrest. cbn [rbind].
    exists (p ++ rest). split; [reflexivity|].
    rewrite forallb_app, Hpstr, Hstr. reflexivity.
Qed.

(** The flattening answers on every message it can take. *)
Lemma format_message_content_total (msg : dict) :
  renderable_message msg = true ->
  exists s, format_message_content msg = Ok s.
Proof.
  unfold renderable_message, format_message_content. intros H.
  apply andb_true_iff in H as [Htext Hcontent].
  assert (Ht : exists tp,
             match dict_get (str "text") msg with
             | Some text => do b <- truthy text; Ok (if b then [text] else [])
             | None => Ok []
             end = Ok tp /\ forallb is_str tp = true).
  { destruct (dict_get (str "text") msg) as [[| | | |[|c t]| |]|];
      try discriminate; eexists; split; reflexivity. }
  destruct Ht as [tp [-> Htp]].
  assert (Hc : exists bl,
             match dict_get (str "content") msg with
             | Some content =>
                 do b <- truthy content;
                 if b then
                   do items <- py_iter content;
                   do parts <- map_result block_parts items;
                   Ok (concat parts)
                 else Ok []
             | None => Ok []
             end = Ok bl /\ forallb is_str bl = true).
  { destruct (dict_get (str "content") msg) as [[| | | |s|items|]|];
      try discriminate.
    - eexists; split; reflexivity.
    - destruct s as [|c s]; [eexists; split; reflexivity|].
      cbn [truthy py_iter rbind]. rewrite block_parts_chars. cbn [rbind].
      rewrite concat_singletons. eexists. split; [reflexivity|].
      clear. induction (c :: s) as [|x l IH]; [reflexivity|exact IH].
    - rewrite content_list_parts. apply flatten_total, Hcontent.
    - eexists; split; reflexivity. }
  destruct Hc as [bl [-> Hbl]]. cbn [rbind].
  unfold py_join. rewrite forallb_app, Htp, Hbl. eexists. reflexivity.
Qed.

Lemma message_views_total (msgs : list json) :
  Forall (fun msg => exists m,
            msg = JObj m /\ renderable_message m = true) msgs ->
  exists views,
    map_result message_view_of msgs = Ok views
    /\ Forall2
         (fun msg view =>
            exists m,
              msg = JObj m
              /\ format_message_content m = Ok (mv_content view)
              /\ (dict_get (str "sender") m = None ->
                  mv_sender view = JStr (str "unknown")))
         msgs views.
Proof.
  induction 1 as [|msg msgs [m [-> Hm]] _ [views [Hviews Hrel]]].
  - exists []. split; [reflexivity|constructor].
  - destruct (format_message_content_total _ Hm) as [s Hs].
    assert (Hview : exists view,
               message_view_of (JObj m) = Ok view
               /\ mv_content view = s
               /\ mv_sender view
                  = py_get (str "sender") (JStr (str "unknown")) m).
    { unfold message_view_of. rewrite Hs. cbn [rbind].
      eexists. split; [reflexivity|]. split; reflexivity. }
    destruct Hview as [view [Hview [Hcontent Hsender]]].
    cbn [map_result]. rewrite Hview, Hviews. cbn [rbind].
    eexists. split; [reflexivity|].
    constructor; [|exact Hrel].
    exists m. split; [reflexivity|]. split; [congruence|].
    rewrite Hsender. unfold py_get. intros ->. reflexivity.
Qed.

(** X17.  The fetch-one API answers with a record, and raises nothing, for
    every stored conversation whose messages are dicts that the
    flattening can take: text blocks with string texts, tool blocks
    whose name or content is a string, a number, a boolean or null, and
    items of any other kind.  The record holds one message per stored
    message, in the stored order, each with its flattened content and
    with the sender ["unknown"] when the message names none. *)
Theorem fetch_answers_on_renderable_messages (conv : dict)
  (msgs : list json) :
  conv <> [] ->
  py_get (str "chat_messages") (JArr []) conv = JArr msgs ->
  Forall (fun msg => exists m,
            msg = JObj m /\ renderable_message m = true) msgs ->
  exists body,
    conversation_response (Some conv) = Ok (Found body)
    /\ Forall2
         (fun msg view =>
            exists m,
              msg = JObj m
              /\ format_message_content m = Ok (mv_content view)
              /\ (dict_get (str "sender") m = None ->
                  mv_sender view = JStr (str "unknown")))
         msgs (cv_messages body).
Proof.
  intros Hne Hmsgs Hall.
  destruct (message_views_total _ Hall) as [views [Hviews Hrel]].
  destruct conv as [|field conv]; [congruence|].
  cbn [conversation_response].
  rewrite Hmsgs. cbn [py_iter rbind]. rewrite Hviews. cbn [rbind].
  eexists. split; [reflexivity|]. exact Hrel.
Qed.

Lemma fetch_answers_on_renderable_messages_witness :
  exists body,
    conversation_response (Some blocks_conv) = Ok (Found body)
    /\ map mv_content (cv_messages body)
       = [str "see" ++ nl ++ str "hi" ++ nl ++ str "raw"]
    /\ map mv_sender (cv_messages body) = [JStr (str "unknown")].
Proof.
  destruct (fetch_answers_on_renderable_messages blocks_conv
              [JObj [(str "text", JStr (str "see"));
                     (str "content",
                      JArr [JObj [(str "type", JStr (str "text"));
                                  (str "text", JStr (str "hi"))];
                            JObj [(str "type", JStr (str "image"))];
                            JInt 3;
                            JStr (str "raw")])]])
    as [body [Hbody _]].
  - discriminate.
  - reflexivity.
  - constructor; [|constructor]. eexists. split; reflexivity.
  - exists body. split; [exact Hbody|].
    vm_compute in Hbody. injection Hbody as <-. split; reflexivity.
Defined.

(** ** The APIs side by side *)

(** X18.  The search API reports nothing that the list API does not list:
    for every record of a search result, the list of the same store has
    a record with the same identifier, name, summary and [created_at]. *)
Theorem search_hits_are_listed (L : PyLib) (q : pystr) (convs : store)
  (listed : list list_entry) (r : list hit) :
  conversation_list convs = Ok listed ->
  search_results L q convs = Ok r ->
  forall h, In h r ->
    exists e,
      In e listed
      /\ le_uuid e = h_uuid h
      /\ le_name e = h_name h
      /\ le_summary e = h_summary h
      /\ le_created_at e = h_created_at h.
Proof.
  intros Hlist Hsearch h Hh.
  apply search_results_Ok in Hsearch
    as [matches [sorted [Hm [Hperm [_ ->]]]]].
  apply search_matches_shape in Hm as [_ [_ [_ Hall]]].
  destruct (Hall h) as [conv [Hin Hhit]].
  { apply (Permutation_in _ Hperm), (firstn_incl 100), Hh. }
  apply conversation_list_entries in Hlist as [entries [Hentries [Hp _]]].
  destruct (Forall2_pick _ _ _ _ Hentries Hin) as [e [He Hentry]].
  exists e. split; [apply (Permutation_in _ (Permutation_sym Hp) He)|].
  unfold list_entry_of in Hentry.
  destruct (py_len (py_get (str "chat_messages") (JArr []) conv));
    [|discriminate].
  cbn [rbind] in Hentry. injection Hentry as <-. cbn.
  destruct Hhit as [[-> _]|[-> _]]; cbn; auto.
Qed.

Lemma search_hits_are_listed_witness :
  exists convs listed r w',
    load_conversations ref_lib sample_files initial_world = (Ok convs, w')
    /\ conversation_list convs = Ok listed
    /\ search_results ref_lib (str "notes") convs = Ok r
    /\ map h_uuid r = [str "b"]
    /\ forall h, In h r -> exists e, In e listed /\ le_uuid e = h_uuid h.
Proof.
  destruct (load_conversations ref_lib sample_files initial_world)
    as [[convs|e] w'] eqn:Hload; [|vm_compute in Hload; discriminate].
  assert (Hc : convs = fst (match load_conversations ref_lib sample_files
                                    initial_world with
                            | (Ok c, _) => (c, tt)
                            | _ => ([], tt)
                            end)) by (rewrite Hload; reflexivity).
  destruct (conversation_list convs) as [listed|e] eqn:Hlist.
  2:{ rewrite Hc in Hlist. vm_compute in Hlist. discriminate. }
  destruct (search_results ref_lib (str "notes") convs) as [r|e] eqn:Hr.
  2:{ rewrite Hc in Hr. vm_compute in Hr. discriminate. }
  exists convs, listed, r, w'. split; [reflexivity|].
  split; [exact Hlist|]. split; [exact Hr|]. split.
  - pose proof Hr as Hv. rewrite Hc in Hv. vm_compute in Hv.
    injection Hv as <-. reflexivity.
  - intros h Hh.
    destruct (search_hits_are_listed ref_lib (str "notes") convs listed r
                Hlist Hr h Hh) as [e [He [Hu _]]].
    exists e. auto.
Defined.

(** ** Names of the chunk files *)

(** X20.  With their two-digit numbers, the names of the first 99 chunk
    files sort, as strings, in the order of the chunks. *)
Theorem chunk_filenames_sort_in_order (i j : nat) :
  i < j -> j < 99 ->
  str_ltb (chunk_filename i) (chunk_filename j) = true.
Proof.
  intros Hij Hj.
  assert (Hall :
    forallb (fun a =>
               forallb (fun b =>
                          if a <? b
                          then str_ltb (chunk_filename a) (chunk_filename b)
                          else true)
                 (seq 0 99))
      (seq 0 99) = true) by (vm_compute; reflexivity).
  rewrite forallb_forall in Hall.
  assert (Hi : In i (seq 0 99)) by (apply in_seq; lia).
  specialize (Hall i Hi). rewrite forallb_forall in Hall.
  assert (Hj' : In j (seq 0 99)) by (apply in_seq; lia).
  specialize (Hall j Hj').
  apply Nat.ltb_lt in Hij. rewrite Hij in Hall. exact Hall.
Qed.

Lemma chunk_filenames_sort_in_order_witness :
  str_ltb (chunk_filename 8) (chunk_filename 9) = true
  /\ chunk_filename 8 = str "conversations_09.json"
  /\ chunk_filename 9 = str "conversations_10.json"
  /\ str_ltb (chunk_filename 98) (chunk_filename 99) = false.
Proof.
  split; [apply chunk_filenames_sort_in_order; lia|].
  split; [vm_compute; reflexivity|].
  split; vm_compute; reflexivity.
Defined.

(** ** The two loading passes, where they agree *)

Lemma loading_passes_agree_witness :
  split_load ref_lib (files [Text truncated_export])
  = server_load ref_lib (files [Text truncated_export])
  /\ server_load ref_lib (files [Text truncated_export]) = [JObj record_a].
Proof.
  split; [|vm_compute; reflexivity].
  apply loading_passes_agree. intros i content Hi x.
  destruct i as [|[|i]]; try discriminate.
  - injection Hi as <-. reflexivity.
  - simpl in Hi. destruct i; discriminate.
Defined.
